(** * SEC EDGAR pipeline: the checkpointed 10-K batch fetcher and the
    quarter-merge manifest

  A shallow embedding of [src/fetch_10k_html_batch.py] and of the manifest
  logic of [src/partition_2_quarters.py].

  Python code is rendered in a state-and-exception monad over a [World]
  that holds the storage back ends, the process heap and an observable
  trace.  Library collaborators (HTTP transport, the HTML parser, path
  canonicalisation, the JSON and Parquet codecs) are oracles carried by the
  world; everything the repository itself computes (string handling, URL
  derivation, retry, buffering, flushing, checkpointing, manifest
  arithmetic) is written out.

  Strings are byte strings holding UTF-8 text; case mapping and white space
  are those of the ASCII range. *)

From Stdlib Require Import ZArith String Ascii List Lia Bool Permutation.
From Stdlib Require Import DecimalString DecimalZ.
From stdpp Require Import base gmap strings list sorting.

Local Open Scope Z_scope.

(* ================================================================== *)
(** * Python string methods used by the scripts                        *)
(* ================================================================== *)

Module PyStr.

(** [str.strip] white space, ASCII range: TAB..CR, FS..US and SPACE. *)
Definition is_ws (c : ascii) : bool :=
  let n := nat_of_ascii c in
  ((9 <=? n) && (n <=? 13) || (28 <=? n) && (n <=? 32))%nat.

Definition lower_char (c : ascii) : ascii :=
  let n := nat_of_ascii c in
  if ((65 <=? n) && (n <=? 90))%nat then ascii_of_nat (n + 32) else c.

Definition upper_char (c : ascii) : ascii :=
  let n := nat_of_ascii c in
  if ((97 <=? n) && (n <=? 122))%nat then ascii_of_nat (n - 32) else c.

Fixpoint map_chars (f : ascii -> ascii) (s : string) : string :=
  match s with
  | EmptyString => EmptyString
  | String c r => String (f c) (map_chars f r)
  end.

Definition lower : string -> string := map_chars lower_char.
Definition upper : string -> string := map_chars upper_char.

Fixpoint lstrip_by (p : ascii -> bool) (s : string) : string :=
  match s with
  | EmptyString => EmptyString
  | String c r => if p c then lstrip_by p r else s
  end.

Fixpoint rstrip_by (p : ascii -> bool) (s : string) : string :=
  match s with
  | EmptyString => EmptyString
  | String c r =>
      match rstrip_by p r with
      | EmptyString => if p c then EmptyString else String c EmptyString
      | r' => String c r'
      end
  end.

Definition strip (s : string) : string := rstrip_by is_ws (lstrip_by is_ws s).

(** [s.lstrip(c)] and [s.strip(c)] for a one-character argument. *)
Definition lstrip_char (c : ascii) : string -> string := lstrip_by (Ascii.eqb c).
Definition strip_char (c : ascii) (s : string) : string :=
  rstrip_by (Ascii.eqb c) (lstrip_by (Ascii.eqb c) s).

Definition startswith (pre s : string) : bool := String.prefix pre s.

Definition endswith (suf s : string) : bool :=
  let n := String.length s in
  let k := String.length suf in
  ((k <=? n)%nat && String.eqb (substring (n - k) k s) suf).

(** [s.replace(c, new)] for a one-character pattern. *)
Fixpoint replace_char (c : ascii) (new : string) (s : string) : string :=
  match s with
  | EmptyString => EmptyString
  | String a r =>
      if Ascii.eqb a c then new +:+ replace_char c new r
      else String a (replace_char c new r)
  end.

(** [sub in s] *)
Fixpoint contains (sub s : string) : bool :=
  String.prefix sub s ||
  match s with
  | EmptyString => false
  | String _ r => contains sub r
  end.

(** [s.split(c)]: always at least one field. *)
Fixpoint split (c : ascii) (s : string) : list string :=
  match s with
  | EmptyString => [EmptyString]
  | String a r =>
      if Ascii.eqb a c then EmptyString :: split c r
      else match split c r with
           | f :: fs => String a f :: fs
           | [] => [String a EmptyString]
           end
  end.

(** [s.split(c, 1)]: cut at the first occurrence only. *)
Fixpoint split1 (c : ascii) (s : string) : list string :=
  match s with
  | EmptyString => [EmptyString]
  | String a r =>
      if Ascii.eqb a c then [EmptyString; r]
      else match split1 c r with
           | f :: fs => String a f :: fs
           | [] => [String a EmptyString]
           end
  end.

(** [s[n:]] *)
Fixpoint drop (n : nat) (s : string) : string :=
  match n, s with
  | O, _ => s
  | S k, String _ r => drop k r
  | S _, EmptyString => EmptyString
  end.

(** Line boundaries of [str.splitlines], ASCII range:
    LF, VT, FF, CR (CR LF counting once), FS, GS, RS. *)
Definition is_linebreak (c : ascii) : bool :=
  let n := nat_of_ascii c in
  ((10 <=? n) && (n <=? 13) || (28 <=? n) && (n <=? 30))%nat.

(** [splitlines_acc cur s]: [cur] is the line being read, reversed. *)
Fixpoint splitlines_acc (cur : option string) (s : string) : list string :=
  match s with
  | EmptyString =>
      match cur with Some l => [String.rev l] | None => [] end
  | String c r =>
      if is_linebreak c then
        let line := String.rev (default EmptyString cur) in
        match c, r with
        | "013"%char, String "010"%char r' => line :: splitlines_acc None r'
        | _, _ => line :: splitlines_acc None r
        end
      else splitlines_acc (Some (String c (default EmptyString cur))) r
  end.

Definition splitlines : string -> list string := splitlines_acc None.

(** [sep.join(parts)] *)
Definition join (sep : string) (parts : list string) : string :=
  String.concat sep parts.

(** [str(n)] for an integer. *)
Definition of_Z (z : Z) : string := NilZero.string_of_int (Z.to_int z).

(** [int(s)] for a string of decimal digits with an optional sign, white
    space around it allowed; [None] where Python raises [ValueError].
    Underscores between digits, which Python also accepts, are not
    modelled. *)
Definition to_Z (s : string) : option Z :=
  match strip s with
  | String "+" r =>
      match NilZero.uint_of_string r with
      | Some d => Some (Z.of_uint d)
      | None => None
      end
  | t =>
      match NilZero.int_of_string t with
      | Some d => Some (Z.of_int d)
      | None => None
      end
  end.

(** [f"{n:06d}"]: zero padding to six characters, the sign included. *)
Definition pad6 (z : Z) : string :=
  let digits := of_Z (Z.abs z) in
  let sign := if z <? 0 then "-"%string else EmptyString in
  sign +:+ String.concat EmptyString
             (repeat "0"%string (6 - String.length sign - String.length digits))
       +:+ digits.

End PyStr.


(* ================================================================== *)
(** * Python values, exceptions and the effect monad                   *)
(* ================================================================== *)

Module Py.

(** The scalar values that occur in checkpoint states and table cells.
    [PyObj] stands for any other object (a set, a bytes object, ...):
    it has a [str()] but no JSON encoding. *)
Inductive pyval : Type :=
| PyNone
| PyBool (b : bool)
| PyInt (z : Z)
| PyStr (s : string)
| PyObj (repr : string).

(** An instance of a subclass of [Exception]: class name and [str(e)]. *)
Record exn : Type := Exn { exn_type : string; exn_text : string }.

Inductive result (A : Type) : Type :=
| Ok (a : A)
| Err (e : exn).
Arguments Ok {A} a.
Arguments Err {A} e.

(** What running a piece of code ends in: a value, a raised exception,
    or the death of the process (which no [except] clause sees). *)
Inductive outcome (A : Type) : Type :=
| Ret (a : A)
| Exc (e : exn)
| Killed.
Arguments Ret {A} a.
Arguments Exc {A} e.
Arguments Killed {A}.

Definition M (S A : Type) : Type := S -> outcome A * S.

Definition ret {S A} (a : A) : M S A := fun s => (Ret a, s).

Definition bind {S A B} (c : M S A) (k : A -> M S B) : M S B :=
  fun s =>
    match c s with
    | (Ret a, s') => k a s'
    | (Exc e, s') => (Exc e, s')
    | (Killed, s') => (Killed, s')
    end.

Definition raise {S A} (e : exn) : M S A := fun s => (Exc e, s).

Definition lift {S A} (r : result A) : M S A :=
  match r with Ok a => ret a | Err e => raise e end.

Definition gets {S A} (f : S -> A) : M S A := fun s => (Ret (f s), s).

Definition modify {S} (f : S -> S) : M S unit := fun s => (Ret tt, f s).

(** [try: body except Exception as e: handler(e)] *)
Definition try_except {S A} (body : M S A) (handler : exn -> M S A) : M S A :=
  fun s =>
    match body s with
    | (Exc e, s') => handler e s'
    | r => r
    end.

(** [try: body finally: cleanup] *)
Definition try_finally {S A} (body : M S A) (cleanup : M S unit) : M S A :=
  fun s =>
    match body s with
    | (Killed, s') => (Killed, s')
    | (r, s') =>
        match cleanup s' with
        | (Ret _, s'') => (r, s'')
        | (Exc e, s'') => (Exc e, s'')
        | (Killed, s'') => (Killed, s'')
        end
    end.

(** [bool(v)] *)
Definition truthy (v : pyval) : bool :=
  match v with
  | PyNone => false
  | PyBool b => b
  | PyInt z => negb (z =? 0)
  | PyStr s => negb (String.eqb s "")
  | PyObj _ => true
  end.

(** [str(v)] *)
Definition py_str (v : pyval) : string :=
  match v with
  | PyNone => "None"
  | PyBool true => "True"
  | PyBool false => "False"
  | PyInt z => PyStr.of_Z z
  | PyStr s => s
  | PyObj r => r
  end.

(** [int(v)] *)
Definition py_int (v : pyval) : result Z :=
  match v with
  | PyInt z => Ok z
  | PyBool b => Ok (if b then 1 else 0)
  | PyStr s =>
      match PyStr.to_Z s with
      | Some z => Ok z
      | None => Err (Exn "ValueError" ("invalid literal for int() with base 10: " +:+ s))
      end
  | PyNone => Err (Exn "TypeError" "int() argument must be a string or a number, not 'NoneType'")
  | PyObj r => Err (Exn "TypeError" "int() argument must be a string or a number")
  end.

(** [range(lo, hi)] *)
Definition range (lo hi : Z) : list Z :=
  map (fun k => lo + Z.of_nat k) (seq 0 (Z.to_nat (hi - lo))).

#[global] Instance pyval_eq_dec : EqDecision pyval.
Proof. solve_decision. Defined.

#[global] Instance exn_eq_dec : EqDecision exn.
Proof. solve_decision. Defined.

End Py.

Export Py.

#[global] Instance M_ret {S} : MRet (M S) := fun A => @ret S A.
#[global] Instance M_bind {S} : MBind (M S) := fun A B k c => @bind S A B c k.
#[global] Instance M_throw {S} : MThrow exn (M S) := fun A => @raise S A.

(* ================================================================== *)
(** * fetch_10k_html_batch.py                                          *)
(* ================================================================== *)

Module Fetch.

(** A Python [dict] with string keys. *)
Abbreviation dict := (gmap string pyval).

(** A pandas row: the labels of the frame's columns with their cells, in
    column order.  A frame is the list of its rows, all over the same
    columns. *)
Definition Series : Type := list (string * pyval).
Definition DataFrame : Type := list Series.

(** What [json.loads] hands back: an object, or some other JSON value. *)
Inductive jdoc : Type :=
| JObject (d : dict)
| JScalar (v : pyval).

(** The content of a stored object, as far as the script can tell. *)
Inductive fdata : Type :=
| JsonText (doc : jdoc)               (* UTF-8 text that is valid JSON *)
| RawBytes (b : string)               (* bytes that are not valid JSON *)
| ParquetTable (groups : list DataFrame) (* a Parquet file and its row groups *)
| PartFile (records : list dict).     (* a Parquet part built from records *)

(** Where an object lives: a canonical local path, or [bucket/key]. *)
Inductive place : Type :=
| Local (p : string)
| Gcs (key : string).

Inductive event : Type :=
| EvCall (row : Series)                     (* extract_filing_html_directly entered *)
| EvGet (url ua : string) (timeout : Z)     (* requests.get *)
| EvSleep (secs : option Z)                 (* time.sleep; [None] is [args.delay] *)
| EvWarn (msg : string).                    (* a [WARN] line on stdout *)

Record World : Type := mkWorld {
  (** collaborators *)
  http : string -> result (Z * string);
      (* requests.get(url): status code and body, or a transport error *)
  table_hrefs : string -> result (option (list (option string)));
      (* BeautifulSoup(text).find("table", class_="tableFile") and the
         href of each <a> inside it, in document order *)
  visible_text : string -> result string;
      (* BeautifulSoup(text) with the non-content tags decomposed, then
         get_text(separator="\n") of the body or of the whole soup *)
  resolve : string -> string;
      (* Path(p).expanduser().resolve(), as a string *)
  write_fault : place -> option exn;
      (* the error, if any, with which the back end refuses a write *)
  now : Z;
      (* int(time.time()) *)
  (** durable storage *)
  local_files : gmap string fdata;
  gcs_objects : gmap string fdata;
  (** process memory: dict objects by address *)
  heap : list dict;
  (** what an observer sees *)
  trace : list event;
  (** [Some n]: the process is terminated from outside right after its
      [n+1]-th completed flush (part written, checkpoint saved) *)
  kill_after : option nat
}.

Definition set_local (f : gmap string fdata -> gmap string fdata) (w : World) : World :=
  mkWorld (http w) (table_hrefs w) (visible_text w) (resolve w) (write_fault w)
          (now w) (f (local_files w)) (gcs_objects w) (heap w) (trace w) (kill_after w).

Definition set_gcs (f : gmap string fdata -> gmap string fdata) (w : World) : World :=
  mkWorld (http w) (table_hrefs w) (visible_text w) (resolve w) (write_fault w)
          (now w) (local_files w) (f (gcs_objects w)) (heap w) (trace w) (kill_after w).

Definition set_heap (f : list dict -> list dict) (w : World) : World :=
  mkWorld (http w) (table_hrefs w) (visible_text w) (resolve w) (write_fault w)
          (now w) (local_files w) (gcs_objects w) (f (heap w)) (trace w) (kill_after w).

Definition set_trace (f : list event -> list event) (w : World) : World :=
  mkWorld (http w) (table_hrefs w) (visible_text w) (resolve w) (write_fault w)
          (now w) (local_files w) (gcs_objects w) (heap w) (f (trace w)) (kill_after w).

Definition set_kill (k : option nat) (w : World) : World :=
  mkWorld (http w) (table_hrefs w) (visible_text w) (resolve w) (write_fault w)
          (now w) (local_files w) (gcs_objects w) (heap w) (trace w) k.

Abbreviation Run := (M World).

Definition emit (e : event) : Run unit := modify (set_trace (fun t => t ++ [e])).

(** ** Storage primitives *)

Definition read_local (key : string) : Run fdata :=
  fun w =>
    match local_files w !! key with
    | Some d => (Ret d, w)
    | None => (Exc (Exn "FileNotFoundError" key), w)
    end.

Definition read_gcs (key : string) : Run fdata :=
  fun w =>
    match gcs_objects w !! key with
    | Some d => (Ret d, w)
    | None => (Exc (Exn "FileNotFoundError" key), w)
    end.

Definition write_local (key : string) (d : fdata) : Run unit :=
  fun w =>
    match write_fault w (Local key) with
    | Some e => (Exc e, w)
    | None => (Ret tt, set_local (insert key d) w)
    end.

Definition write_gcs (key : string) (d : fdata) : Run unit :=
  fun w =>
    match write_fault w (Gcs key) with
    | Some e => (Exc e, w)
    | None => (Ret tt, set_gcs (insert key d) w)
    end.

(** [Path(p).expanduser().exists()]: the file [resolve p] names. *)
Definition local_exists (p : string) : Run bool :=
  gets (fun w => bool_decide (is_Some (local_files w !! resolve w p))).

(** ** The heap of dict objects *)

Definition alloc (d : dict) : Run nat :=
  fun w => (Ret (length (heap w)), set_heap (fun h => h ++ [d]) w).

Definition deref (r : nat) : Run dict :=
  fun w =>
    match heap w !! r with
    | Some d => (Ret d, w)
    | None => (Exc (Exn "SystemError" "dangling reference"), w)
    end.

(** [obj[k] = v] *)
Definition setitem (r : nat) (k : string) (v : pyval) : Run unit :=
  modify (set_heap (fun h =>
    match h !! r with
    | Some d => <[r := <[k := v]> d]> h
    | None => h
    end)).

(** ** JSON codec *)

Definition json_encodable (v : pyval) : bool :=
  match v with PyObj _ => false | _ => true end.

(** [json.dumps(d, ensure_ascii=False, indent=2).encode("utf-8")] *)
Definition json_dumps (d : dict) : result fdata :=
  if bool_decide (map_Forall (fun _ v => json_encodable v = true) d)
  then Ok (JsonText (JObject d))
  else Err (Exn "TypeError" "Object is not JSON serializable").

(** [json.loads] of an object's content read as UTF-8 text. *)
Definition json_loads (f : fdata) : result jdoc :=
  match f with
  | JsonText doc => Ok doc
  | RawBytes b => Err (Exn "JSONDecodeError" "Expecting value")
  | ParquetTable _ | PartFile _ => Err (Exn "UnicodeDecodeError" "invalid start byte")
  end.

(** ** STORAGE HELPERS *)

Definition is_gcs_path (p : string) : bool :=
  PyStr.startswith "gs://" (PyStr.lower (PyStr.strip p)).

Definition parse_gcs_url (gs_url : string) : result (string * string) :=
  let s := PyStr.strip gs_url in
  if negb (PyStr.startswith "gs://" s)
  then Err (Exn "ValueError" ("Not a GCS URL: " +:+ gs_url))
  else
    let rest := PyStr.drop 5 s in
    let parts := PyStr.split1 "/" rest in
    let bucket := nth 0 parts "" in
    let key := if (length parts =? 2)%nat then nth 1 parts "" else "" in
    Ok (bucket, key).

Definition gcs_exists (gs_url : string) : Run bool :=
  '(bucket, key) ← lift (parse_gcs_url gs_url);
  gets (fun w => bool_decide (is_Some (gcs_objects w !! (bucket +:+ "/" +:+ key)))).

(** ** CHECKPOINT *)

Definition checkpoint_exists (path : string) : Run bool :=
  if is_gcs_path path then gcs_exists path else local_exists path.

Definition load_checkpoint (path : string) : Run (option jdoc) :=
  ex ← checkpoint_exists path;
  if negb ex then ret None
  else
    try_except
      (if is_gcs_path path then
         '(b, k) ← lift (parse_gcs_url path);
         data ← read_gcs (b +:+ "/" +:+ k);
         doc ← lift (json_loads data);
         ret (Some doc)
       else
         p ← gets (fun w => resolve w path);
         data ← read_local p;
         doc ← lift (json_loads data);
         ret (Some doc))
      (fun e =>
         emit (EvWarn ("[WARN] Failed to load checkpoint " +:+ path +:+ ": "
                       +:+ exn_type e +:+ ": " +:+ exn_text e));;
         ret None).

Definition save_checkpoint (path : string) (state : nat) : Run unit :=
  (* state = dict(state) *)
  d ← deref state;
  state ← alloc d;
  t ← gets now;
  setitem state "updated_at_unix" (PyInt t);;
  d' ← deref state;
  payload ← lift (json_dumps d');
  try_except
    (if is_gcs_path path then
       '(b, k) ← lift (parse_gcs_url path);
       write_gcs (b +:+ "/" +:+ k) payload
     else
       p ← gets (fun w => resolve w path);
       write_local p payload)
    (fun e =>
       emit (EvWarn ("[WARN] Failed to save checkpoint " +:+ path +:+ ": "
                     +:+ exn_type e +:+ ": " +:+ exn_text e))).

(** ** 1) The HTML loader *)

(** [row.get(k, default)] and [row[k]] on a pandas row. *)
Fixpoint series_get (row : Series) (k : string) (dflt : pyval) : pyval :=
  match row with
  | [] => dflt
  | (c, v) :: r => if String.eqb c k then v else series_get r k dflt
  end.

Definition http_get (url ua : string) (timeout : Z) : Run (Z * string) :=
  emit (EvGet url ua timeout);;
  r ← gets (fun w => http w url);
  lift r.

(** [s.endswith((".txt", ".htm", ".html"))] *)
Definition has_document_suffix (s : string) : bool :=
  PyStr.endswith ".txt" s || PyStr.endswith ".htm" s || PyStr.endswith ".html" s.

(** [lambda h: h and (h.endswith(".htm") or h.endswith(".html"))
                 and "index" not in h.lower()] *)
Definition is_primary_href (h : option string) : bool :=
  match h with
  | None => false
  | Some s =>
      negb (String.eqb s "")
      && (PyStr.endswith ".htm" s || PyStr.endswith ".html" s)
      && negb (PyStr.contains "index" (PyStr.lower s))
  end.

(** The result triple [(url, content, status)]. *)
Definition fetched : Type := option string * option string * string.

(** The body of the [try] block. *)
Definition extract_filing_html_body (row : Series) (user_agent_email : string)
  : Run fetched :=
  let filename :=
    PyStr.replace_char " " ""
      (PyStr.strip (py_str (series_get row "Filename" (PyStr "")))) in
  if String.eqb filename "" then
    ret (None, None, "❌ Missing or invalid Filename")
  else if has_document_suffix (PyStr.lower filename) then
    (* CASE 1: the filename points directly to a document *)
    let filing_url := "https://www.sec.gov/Archives/" +:+ PyStr.lstrip_char "/" filename in
    '(status_code, text) ← http_get filing_url user_agent_email 25;
    if negb (status_code =? 200) then
      ret (Some filing_url, None, "❌ Filing fetch failed: " +:+ PyStr.of_Z status_code)
    else
      ret (Some filing_url, Some text, "✅ Success (direct)")
  else
    (* CASE 2: the filename includes the accession folder *)
    let parts := PyStr.split "/" filename in
    if (length parts <? 4)%nat then
      ret (None, None, "⚠️ Invalid path: " +:+ filename)
    else
      let cik := nth 2 parts "" in
      let accession_nodash := nth 3 parts "" in
      let index_url :=
        "https://www.sec.gov/Archives/edgar/data/" +:+ cik +:+ "/"
          +:+ accession_nodash +:+ "/index.html" in
      '(status_code, text) ← http_get index_url user_agent_email 15;
      if negb (status_code =? 200) then
        ret (Some index_url, None, "❌ Index fetch failed: " +:+ PyStr.of_Z status_code)
      else
        table ← (oracle ← gets table_hrefs; lift (oracle text));
        match table with
        | None => ret (Some index_url, None, "⚠️ No document table found")
        | Some hrefs =>
            match List.find is_primary_href hrefs with
            | None => ret (Some index_url, None, "⚠️ No primary .htm/.html link found")
            | Some link_href =>
                let filing_path := PyStr.lstrip_char "/" (default "" link_href) in
                let filing_url := "https://www.sec.gov/" +:+ filing_path in
                '(f_status, f_text) ← http_get filing_url user_agent_email 25;
                if negb (f_status =? 200) then
                  ret (Some filing_url, None,
                        "❌ Filing fetch failed: " +:+ PyStr.of_Z f_status)
                else
                  ret (Some filing_url, Some f_text, "✅ Success (index)")
            end
        end.

Definition extract_filing_html_directly (row : Series) (user_agent_email : string)
  : Run fetched :=
  emit (EvCall row);;
  try_except
    (extract_filing_html_body row user_agent_email)
    (fun e => ret (None, None, "⚠️ Exception: " +:+ exn_text e)).

(** ** 2) The cleaning function *)

Definition newline : string := String "010" "".

Definition clean_filing_html (html_text : string) : Run string :=
  try_except
    (raw_text ← (oracle ← gets visible_text; lift (oracle html_text));
     let lines :=
       map PyStr.strip
           (List.filter (fun line => negb (String.eqb (PyStr.strip line) ""))
                   (PyStr.splitlines raw_text)) in
     ret (PyStr.join newline lines))
    (fun e => ret ("⚠️ Cleaning failed: " +:+ exn_text e)).

(** ** 3) The pipeline *)

Definition write_part_gcs (records : list dict) (out_url : string) : Run unit :=
  '(out_bucket, out_key) ← lift (parse_gcs_url out_url);
  write_gcs (out_bucket +:+ "/" +:+ out_key) (PartFile records).

Definition write_part_local (records : list dict) (out_path : string) : Run unit :=
  p ← gets (fun w => resolve w out_path);
  write_local p (PartFile records).

Record Args : Type := mkArgs {
  input : string;
  output_prefix : string;
  user_agent : string;
  retry_limit : Z;
  checkpoint_every : Z;
  max_rowgroups : Z;
  max_filings : Z;
  skip_if_exists : bool;
  checkpoint_path : string;
  checkpoint_save_every : Z
}.

Definition with_checkpoint_path (args : Args) (p : string) : Args :=
  mkArgs (input args) (output_prefix args) (user_agent args) (retry_limit args)
         (checkpoint_every args) (max_rowgroups args) (max_filings args)
         (skip_if_exists args) p (checkpoint_save_every args).

(** The variables of [main] that its nested functions and loops update,
    with the two module globals tracking the position. *)
Record Locals : Type := mkLocals {
  start_i : Z;
  out_part : Z;
  ok_in_part : Z;
  total_seen : Z;
  total_ok : Z;
  processed_since_ckpt : Z;
  buffer : list dict;
  current_rowgroup : Z;
  current_row_index : Z
}.

Definition TENK_FORMS : list string := ["10-K"; "10-K/A"].

(** [str(Path(d) / name)] *)
Definition path_join (d name : string) : string :=
  if PyStr.endswith "/" d then d +:+ name else d +:+ "/" +:+ name.

Definition default_checkpoint_path (args : Args) : Run string :=
  if String.eqb (checkpoint_path args) "" then
    if is_gcs_path (output_prefix args) then
      '(b, pref) ← lift (parse_gcs_url (output_prefix args));
      let pref := PyStr.strip_char "/" pref in
      ret ("gs://" +:+ b +:+ "/" +:+ pref +:+ "/_checkpoint.json")
    else
      out_dir ← gets (fun w => resolve w (output_prefix args));
      ret (path_join out_dir "_checkpoint.json")
  else ret (checkpoint_path args).

(** [pq.ParquetFile(...)] on the input. *)
Definition open_parquet (args : Args) : Run (list DataFrame) :=
  data ← (if is_gcs_path (input args) then
            '(b, k) ← lift (parse_gcs_url (input args));
            read_gcs (b +:+ "/" +:+ k)
          else
            p ← gets (fun w => resolve w (input args));
            read_local p);
  match data with
  | ParquetTable groups => ret groups
  | _ => raise (Exn "ArrowInvalid" "Parquet magic bytes not found")
  end.

(** [pf.read_row_group(rg).to_pandas()] *)
Definition read_row_group (pf : list DataFrame) (rg : Z) : Run DataFrame :=
  if rg <? 0 then raise (Exn "IndexError" "row group index out of range")
  else match pf !! Z.to_nat rg with
       | Some df => ret df
       | None => raise (Exn "IndexError" "row group index out of range")
       end.

(** [df.iloc[i]] *)
Definition iloc (df : DataFrame) (i : Z) : Run Series :=
  let j := if i <? 0 then Z.of_nat (length df) + i else i in
  if j <? 0 then raise (Exn "IndexError" "single positional indexer is out-of-bounds")
  else match df !! Z.to_nat j with
       | Some row => ret row
       | None => raise (Exn "IndexError" "single positional indexer is out-of-bounds")
       end.

(** [df.columns] *)
Definition df_columns (df : DataFrame) : list string :=
  match df with
  | row :: _ => map fst row
  | [] => []
  end.

(** [.astype("string").str.strip().str.upper()] on one cell.  A missing
    value stays missing. *)
Definition normalize_form_type (v : pyval) : pyval :=
  match v with
  | PyNone => PyNone
  | _ => PyStr (PyStr.upper (PyStr.strip (py_str v)))
  end.

Fixpoint series_set (row : Series) (k : string) (f : pyval -> pyval) : Series :=
  match row with
  | [] => []
  | (c, v) :: r =>
      if String.eqb c k then (c, f v) :: series_set r k f
      else (c, v) :: series_set r k f
  end.

Definition isin_tenk (v : pyval) : bool :=
  match v with
  | PyStr s => existsb (String.eqb s) TENK_FORMS
  | _ => false
  end.

(** The column normalisation and the form-type filter of the row-group
    loop, followed by [reset_index]. *)
Definition filter_tenk (df : DataFrame) : DataFrame :=
  if existsb (String.eqb "Form Type") (df_columns df) then
    List.filter (fun row => isin_tenk (series_get row "Form Type" PyNone))
           (map (fun row => series_set row "Form Type" normalize_form_type) df)
  else df.

Definition part_url (args : Args) (part_idx : Z) : Run string :=
  if is_gcs_path (output_prefix args) then
    '(out_bucket, out_prefix) ← lift (parse_gcs_url (output_prefix args));
    let out_prefix := PyStr.strip_char "/" out_prefix in
    ret ("gs://" +:+ out_bucket +:+ "/" +:+ out_prefix +:+ "/part-"
          +:+ PyStr.pad6 part_idx +:+ ".parquet")
  else
    out_dir ← gets (fun w => resolve w (output_prefix args));
    ret (path_join out_dir ("part-" +:+ PyStr.pad6 part_idx +:+ ".parquet")).

Definition checkpoint_state (l : Locals) (rowgroup row_in_rowgroup : Z) : dict :=
  <["total_ok" := PyInt (total_ok l)]>
  (<["total_seen" := PyInt (total_seen l)]>
  (<["ok_in_part" := PyInt (ok_in_part l)]>
  (<["out_part" := PyInt (out_part l)]>
  (<["row_in_rowgroup" := PyInt row_in_rowgroup]>
  (<["rowgroup" := PyInt rowgroup]> ∅))))).

Definition persist_ckpt (args : Args) (l : Locals) (rowgroup row_in_rowgroup : Z)
  : Run unit :=
  state ← alloc (checkpoint_state l rowgroup row_in_rowgroup);
  save_checkpoint (checkpoint_path args) state.

(** The moment at which an outside termination scheduled by [kill_after]
    takes effect. *)
Definition kill_point : Run unit :=
  fun w =>
    match kill_after w with
    | None => (Ret tt, w)
    | Some O => (Killed, w)
    | Some (S n) => (Ret tt, set_kill (Some n) w)
    end.

(** [buffer = []; out_part += 1; ok_in_part = 0] *)
Definition next_part (l : Locals) : Locals :=
  mkLocals (start_i l) (out_part l + 1) 0 (total_seen l) (total_ok l)
           (processed_since_ckpt l) [] (current_rowgroup l) (current_row_index l).

Definition flush_part (args : Args) (l : Locals) : Run Locals :=
  match buffer l return Run Locals with
  | [] => ret l
  | _ :: _ =>
      out ← part_url args (out_part l);
      skip_gcs ← (if skip_if_exists args && is_gcs_path out
                  then gcs_exists out else ret false);
      if (skip_gcs : bool) then ret (next_part l)
      else
        skip_local ← (if skip_if_exists args && negb (is_gcs_path out)
                      then local_exists out else ret false);
        if (skip_local : bool) then ret (next_part l)
        else
          (if is_gcs_path out then write_part_gcs (buffer l) out
           else write_part_local (buffer l) out);;
          let l' := next_part l in
          (* Save checkpoint right after flush *)
          persist_ckpt args l' (current_rowgroup l') (current_row_index l');;
          kill_point;;
          ret l'
  end.

(** How a loop body ends: fall through to the next iteration
    ([continue] included), [break], or [return] from [main]. *)
Inductive ctl : Type := Next | Break | Return.

(** [for x in xs: body], threading the variables the body assigns. *)
Fixpoint for_each {A St : Type} (xs : list A)
         (body : A -> St -> Run (ctl * St)) (st : St) : Run (ctl * St) :=
  match xs with
  | [] => ret (Next, st)
  | x :: rest =>
      '(c, st') ← body x st;
      match c with
      | Next => for_each rest body st'
      | Break => ret (Next, st')
      | Return => ret (Return, st')
      end
  end.

(** [url, html_text, status] of the retry loop; all [None] before the
    first attempt. *)
Definition attempt : Type := option string * option string * option string.

(** [if html_text:] *)
Definition has_content (html_text : option string) : bool :=
  match html_text with
  | Some s => negb (String.eqb s "")
  | None => false
  end.

(** [for attempt in range(n): ...] of the retry loop. *)
Fixpoint retry_loop (n : nat) (row : Series) (ua : string) (cur : attempt)
  : Run attempt :=
  match n with
  | O => ret cur
  | S k =>
      '(url, html_text, status) ← extract_filing_html_directly row ua;
      if has_content html_text then ret (url, html_text, Some status)
      else
        emit (EvSleep (Some 2));;
        retry_loop k row ua (url, html_text, Some status)
  end.

Definition opt_str (o : option string) : pyval :=
  match o with Some s => PyStr s | None => PyNone end.

(** [col.replace(" ", "_").lower()] *)
Definition column_key (col : string) : string :=
  PyStr.lower (PyStr.replace_char " " "_" col).

(** [for col in df.columns: rec[column_key(col)] = row[col]] *)
Definition add_columns (cols : list string) (row : Series) (rec : dict) : dict :=
  fold_left (fun r col => <[column_key col := series_get row col PyNone]> r) cols rec.

Definition fail_record (cols : list string) (row : Series)
           (url status : option string) : dict :=
  add_columns cols row
    (<["cleaned_text" := PyNone]>
    (<["filing_text" := PyNone]>
    (<["filing_url" := opt_str url]>
    (<["status" := opt_str status]> ∅)))).

Definition ok_record (cols : list string) (row : Series)
           (url : option string) (html_text cleaned : string) : dict :=
  add_columns cols row
    (<["cleaned_text" := PyStr cleaned]>
    (<["filing_text" := PyStr html_text]>
    (<["filing_url" := opt_str url]>
    (<["status" := PyStr "✅ Success"]> ∅)))).

(** [current_row_index = i; total_seen += 1; processed_since_ckpt += 1] *)
Definition enter_row (l : Locals) (i : Z) : Locals :=
  mkLocals (start_i l) (out_part l) (ok_in_part l) (total_seen l + 1) (total_ok l)
           (processed_since_ckpt l + 1) (buffer l) (current_rowgroup l) i.

(** [buffer.append(rec)] *)
Definition push (l : Locals) (rec : dict) : Locals :=
  mkLocals (start_i l) (out_part l) (ok_in_part l) (total_seen l) (total_ok l)
           (processed_since_ckpt l) (buffer l ++ [rec]) (current_rowgroup l)
           (current_row_index l).

(** [processed_since_ckpt = 0] *)
Definition reset_since (l : Locals) : Locals :=
  mkLocals (start_i l) (out_part l) (ok_in_part l) (total_seen l) (total_ok l)
           0 (buffer l) (current_rowgroup l) (current_row_index l).

(** [total_ok += 1; ok_in_part += 1] *)
Definition count_ok (l : Locals) : Locals :=
  mkLocals (start_i l) (out_part l) (ok_in_part l + 1) (total_seen l) (total_ok l + 1)
           (processed_since_ckpt l) (buffer l) (current_rowgroup l)
           (current_row_index l).

Definition set_start_i (l : Locals) (v : Z) : Locals :=
  mkLocals v (out_part l) (ok_in_part l) (total_seen l) (total_ok l)
           (processed_since_ckpt l) (buffer l) (current_rowgroup l)
           (current_row_index l).

Definition set_current_rowgroup (l : Locals) (rg : Z) : Locals :=
  mkLocals (start_i l) (out_part l) (ok_in_part l) (total_seen l) (total_ok l)
           (processed_since_ckpt l) (buffer l) rg (current_row_index l).

(** The periodic checkpoint at the end of an iteration:
    [persist_ckpt(rg, i + 1)] once enough rows went by. *)
Definition periodic_ckpt (args : Args) (rg i : Z) (l : Locals) : Run Locals :=
  if checkpoint_save_every args <=? processed_since_ckpt l then
    persist_ckpt args l rg (i + 1);;
    ret (reset_since l)
  else ret l.

(** The body of [for i in range(begin_i, len(df))]. *)
Definition row_body (args : Args) (rg : Z) (df : DataFrame) (i : Z) (l : Locals)
  : Run (ctl * Locals) :=
  let l := enter_row l i in
  if negb (max_filings args =? 0) && (max_filings args <? total_seen l) then
    l ← flush_part args l;
    persist_ckpt args l rg i;;
    ret (Return, l)
  else
    row ← iloc df i;
    '(url, html_text, status) ←
      retry_loop (Z.to_nat (retry_limit args)) row (user_agent args) (None, None, None);
    if negb (has_content html_text) then
      let l := push l (fail_record (df_columns df) row url status) in
      l ← periodic_ckpt args rg i l;
      ret (Next, l)
    else
      (* success *)
      let html := default "" html_text in
      cleaned ← clean_filing_html html;
      let l := push (count_ok l) (ok_record (df_columns df) row url html cleaned) in
      l ← (if checkpoint_every args <=? ok_in_part l
           then flush_part args l else ret l);
      l ← periodic_ckpt args rg i l;
      emit (EvSleep None);;
      ret (Next, l).

(** The body of [for rg in range(start_rg, pf.num_row_groups)]. *)
Definition rowgroup_body (args : Args) (pf : list DataFrame) (start_rg rg : Z)
           (l : Locals) : Run (ctl * Locals) :=
  if negb (max_rowgroups args =? 0) && (max_rowgroups args <=? rg) then
    ret (Break, l)
  else
    let l := set_current_rowgroup l rg in
    df ← read_row_group pf rg;
    let df := filter_tenk df in
    match df return Run (ctl * Locals) with
    | [] => ret (Next, set_start_i l 0)
    | _ :: _ =>
        let begin_i := if rg =? start_rg then start_i l else 0 in
        '(c, l) ← for_each (range begin_i (Z.of_nat (length df)))
                           (row_body args rg df) l;
        match c return Run (ctl * Locals) with
        | Return => ret (Return, l)
        | _ =>
            (* rowgroup done -> save checkpoint at start of next rowgroup *)
            persist_ckpt args l (rg + 1) 0;;
            ret (Next, set_start_i l 0)
        end
    end.

(** [load_checkpoint(...) or {}] *)
Definition or_empty (loaded : option jdoc) : jdoc :=
  match loaded with
  | None => JObject ∅
  | Some (JObject d) => if bool_decide (d = ∅) then JObject ∅ else JObject d
  | Some (JScalar v) => if truthy v then JScalar v else JObject ∅
  end.

(** [int(ckpt.get(k, 0))] *)
Definition ckpt_int (ckpt : jdoc) (k : string) : Run Z :=
  match ckpt with
  | JObject d => lift (py_int (default (PyInt 0) (d !! k)))
  | JScalar _ => raise (Exn "AttributeError" "object has no attribute 'get'")
  end.

Definition main (args : Args) : Run unit :=
  path ← default_checkpoint_path args;
  let args := with_checkpoint_path args path in
  pf ← open_parquet args;
  loaded ← load_checkpoint (checkpoint_path args);
  let ckpt := or_empty loaded in
  start_rg ← ckpt_int ckpt "rowgroup";
  start_i ← ckpt_int ckpt "row_in_rowgroup";
  out_part ← ckpt_int ckpt "out_part";
  ok_in_part ← ckpt_int ckpt "ok_in_part";
  total_seen ← ckpt_int ckpt "total_seen";
  total_ok ← ckpt_int ckpt "total_ok";
  let l := mkLocals start_i out_part ok_in_part total_seen total_ok 0 []
                    start_rg start_i in
  let num_row_groups := Z.of_nat (length pf) in
  '(c, l) ← for_each (range start_rg num_row_groups)
                     (rowgroup_body args pf start_rg) l;
  match c return Run unit with
  | Return => ret tt
  | _ =>
      l ← flush_part args l;
      persist_ckpt args l num_row_groups 0
  end.

(** ** Running, and running again *)

(** A new process over the same storage: the heap is gone, nothing is
    scheduled to stop it. *)
Definition restart (w : World) : World :=
  set_kill None (set_heap (fun _ => []) w).

Definition part_records (f : fdata) : list dict :=
  match f with
  | PartFile records => records
  | _ => []
  end.

(** The Fetch Results held by the output parts in storage. *)
Definition written_results (w : World) : list dict :=
  concat (map (fun kv => part_records (snd kv))
              (map_to_list (local_files w) ++ map_to_list (gcs_objects w))).

Definition is_success (rec : dict) : bool :=
  bool_decide (rec !! "status" = Some (PyStr "✅ Success")).

Definition successes (records : list dict) : nat :=
  length (List.filter is_success records).

End Fetch.

(* ================================================================== *)
(** * partition_2_quarters.py: the manifest of processed input files   *)
(* ================================================================== *)

Module Partition.

Abbreviation dict := (gmap string pyval).

(** One line of a text object, as [splitlines] yields it. *)
Inductive line : Type :=
| JsonLine (obj : dict)    (* the text [json.dumps] gives for this object *)
| TextLine (s : string).   (* any other text, blank or not *)

Inductive odata : Type :=
| Lines (ls : list line)   (* UTF-8 text *)
| Binary.                  (* a Parquet file, or other bytes that are not text *)

Record World : Type := mkWorld {
  objects : gmap string odata;         (* the bucket store, by [bucket/path] *)
  write_fault : string -> option exn;  (* the error refusing a write to a key *)
  batch_fault : list string -> option exn;
      (* the error, if any, raised while a batch is read, grouped and
         merged into the quarter files *)
  utc_now_iso : string;
  lock_files : gset string;            (* local lock files present *)
  merged : list (list string);
      (* the batches merged into the quarter files so far, in order *)
  slept : nat                          (* calls of [time.sleep] *)
}.

Abbreviation Run := (M World).

Definition set_objects (f : gmap string odata -> gmap string odata) (w : World) : World :=
  mkWorld (f (objects w)) (write_fault w) (batch_fault w) (utc_now_iso w)
          (lock_files w) (merged w) (slept w).

Definition set_locks (f : gset string -> gset string) (w : World) : World :=
  mkWorld (objects w) (write_fault w) (batch_fault w) (utc_now_iso w)
          (f (lock_files w)) (merged w) (slept w).

Definition set_merged (f : list (list string) -> list (list string)) (w : World) : World :=
  mkWorld (objects w) (write_fault w) (batch_fault w) (utc_now_iso w)
          (lock_files w) (f (merged w)) (slept w).

Definition sleep : Run unit :=
  modify (fun w => mkWorld (objects w) (write_fault w) (batch_fault w) (utc_now_iso w)
                           (lock_files w) (merged w) (S (slept w))).

(** [s.partition(c)]: head and tail around the first [c]. *)
Definition partition1 (c : ascii) (s : string) : string * string :=
  match PyStr.split1 c s with
  | [h; t] => (h, t)
  | h :: _ => (h, "")
  | [] => ("", "")
  end.

Definition split_gcs_uri (gs_uri : string) : result (string * string) :=
  if negb (PyStr.startswith "gs://" gs_uri)
  then Err (Exn "ValueError" ("Expected gs:// URI, got: " +:+ gs_uri))
  else Ok (partition1 "/" (PyStr.drop 5 gs_uri)).

(** The order of [sorted] on strings. *)
Definition str_le (a b : string) : Prop := String.leb a b = true.

#[global] Instance str_le_dec : RelDecision str_le.
Proof. intros a b. unfold str_le. apply _. Defined.

(** [fs.get_file_info(FileSelector(base, recursive=True))]: the paths of
    the file objects below [base]. *)
Definition files_under (base : string) (w : World) : list string :=
  List.filter (PyStr.startswith (base +:+ "/")) (map fst (map_to_list (objects w))).

Definition list_gcs_parquets (bucket prefix : string) : Run (list string) :=
  infos ← gets (files_under (bucket +:+ "/" +:+ prefix));
  let out := map (fun path => "gs://" +:+ path)
                 (List.filter (PyStr.endswith ".parquet") infos) in
  ret (merge_sort str_le out).

(** [f.read().decode("utf-8").splitlines()] on the object at [key]. *)
Definition read_lines (key : string) : Run (list line) :=
  fun w =>
    match objects w !! key with
    | Some (Lines ls) => (Ret ls, w)
    | Some Binary => (Exc (Exn "UnicodeDecodeError" "invalid start byte"), w)
    | None => (Exc (Exn "FileNotFoundError" key), w)
    end.

(** The loop of [read_manifest] over the lines: the [input_file] of each
    record, in order.  Only strings are kept: nothing but strings is
    ever looked up in the set. *)
Fixpoint manifest_inputs (ls : list line) : result (list string) :=
  match ls with
  | [] => Ok []
  | TextLine s :: rest =>
      if String.eqb (PyStr.strip s) "" then manifest_inputs rest
      else Err (Exn "JSONDecodeError" "Expecting value")
  | JsonLine obj :: rest =>
      match obj !! "input_file" with
      | None => Err (Exn "KeyError" "'input_file'")
      | Some v =>
          match manifest_inputs rest with
          | Ok fs => Ok (match v with PyStr f => f :: fs | _ => fs end)
          | Err e => Err e
          end
      end
  end.

Definition read_manifest (manifest_uri : string) : Run (gset string) :=
  '(bucket, path) ← lift (split_gcs_uri manifest_uri);
  try_except
    (ls ← read_lines (bucket +:+ "/" +:+ path);
     fs ← lift (manifest_inputs ls);
     ret (list_to_set fs))
    (fun _ => ret ∅).

Definition write_object (key : string) (d : odata) : Run unit :=
  fun w =>
    match write_fault w key with
    | Some e => (Exc e, w)
    | None => (Ret tt, set_objects (insert key d) w)
    end.

(** The object holding [("\n".join(lines) + "\n").encode("utf-8")]. *)
Definition text_of_lines (ls : list line) : odata :=
  match ls with
  | [] => Lines [TextLine ""]
  | _ => Lines ls
  end.

Definition is_file (key : string) : Run bool :=
  gets (fun w => bool_decide (is_Some (objects w !! key))).

(** [fs.move(src, dst)] *)
Definition move (src dst : string) : Run unit :=
  fun w =>
    match objects w !! src with
    | Some d => (Ret tt, set_objects (fun m => <[dst := d]> (delete src m)) w)
    | None => (Exc (Exn "FileNotFoundError" src), w)
    end.

Definition append_manifest (manifest_uri : string) (records : list dict) : Run unit :=
  '(bucket, path) ← lift (split_gcs_uri manifest_uri);
  let target := bucket +:+ "/" +:+ path in
  existing_lines ← try_except (read_lines target) (fun _ => ret []);
  let new_lines := existing_lines ++ map JsonLine records in
  let tmp_path := target +:+ ".tmp" in
  write_object tmp_path (text_of_lines new_lines);;
  (* atomic-ish replace *)
  present ← is_file target;
  (if (present : bool) then modify (set_objects (delete target)) else ret tt);;
  move tmp_path target.

Definition acquire_local_lock (lock_path : string) : Run unit :=
  held ← gets (fun w => bool_decide (lock_path ∈ lock_files w));
  if (held : bool) then
    raise (Exn "RuntimeError"
               ("Lock exists at " +:+ lock_path +:+ ". Another job may be running."))
  else modify (set_locks (fun s => {[lock_path]} ∪ s)).

Definition release_local_lock (lock_path : string) : Run unit :=
  modify (set_locks (fun s => s ∖ {[lock_path]})).

(** [process_batch] followed by [merge_into_quarter_files]. *)
Definition process_and_merge (batch : list string) : Run unit :=
  fun w =>
    match batch_fault w batch with
    | Some e => (Exc e, w)
    | None => (Ret tt, set_merged (fun m => m ++ [batch]) w)
    end.

Record Args : Type := mkArgs {
  input_prefix : string;
  out_base : string;
  manifest : string;
  batch_files : Z;
  sleep_seconds : Z;
  lock_path : string
}.

(** [[new_files[i:i + n] for i in range(0, len(new_files), n)]];
    the step [n = 0] is the [ValueError] of [range]. *)
Definition batches (n : Z) (new_files : list string) : result (list (list string)) :=
  if n =? 0 then Err (Exn "ValueError" "range() arg 3 must not be zero")
  else if n <? 0 then Ok []
  else
    let k := Z.to_nat n in
    let count := ((length new_files + k - 1) / k)%nat in
    Ok (map (fun j => firstn k (skipn (j * k) new_files)) (seq 0 count)).

Definition manifest_record (uri now : string) : dict :=
  <["processed_at" := PyStr now]> (<["input_file" := PyStr uri]> ∅).

Fixpoint for_batches (args : Args) (bs : list (list string)) : Run unit :=
  match bs with
  | [] => ret tt
  | batch :: rest =>
      process_and_merge batch;;
      now ← gets utc_now_iso;
      let manifest_records := map (fun uri => manifest_record uri now) batch in
      (* write manifest after each batch *)
      append_manifest (manifest args) manifest_records;;
      for_batches args rest
  end.

(** One turn of [while True]: [true] when the loop goes round again. *)
Definition pass (args : Args) (in_bucket in_prefix : string) : Run bool :=
  processed ← read_manifest (manifest args);
  all_files ← list_gcs_parquets in_bucket in_prefix;
  let new_files :=
    List.filter (fun f => negb (bool_decide (f ∈ (processed : gset string)))) all_files in
  match new_files with
  | [] =>
      if 0 <? sleep_seconds args then sleep;; ret true else ret false
  | _ :: _ =>
      bs ← lift (batches (batch_files args) new_files);
      for_batches args bs;;
      if 0 <? sleep_seconds args then sleep;; ret true else ret false
  end.

(** [while True] with a bound on the number of turns; [None] when the
    bound is reached with the loop still going. *)
Fixpoint turns (fuel : nat) (args : Args) (in_bucket in_prefix : string)
  : Run (option unit) :=
  match fuel with
  | O => ret None
  | S k =>
      again ← pass args in_bucket in_prefix;
      if (again : bool) then turns k args in_bucket in_prefix else ret (Some tt)
  end.

Definition main (fuel : nat) (args : Args) : Run (option unit) :=
  acquire_local_lock (lock_path args);;
  try_finally
    ('(in_bucket, in_prefix) ← lift (split_gcs_uri (input_prefix args));
     let in_prefix :=
       if PyStr.endswith "/" in_prefix
       then substring 0 (String.length in_prefix - 1) in_prefix
       else in_prefix in
     turns fuel args in_bucket in_prefix)
    (release_local_lock (lock_path args)).

End Partition.

(* ================================================================== *)
(** * Properties of the batch fetcher                                  *)
(* ================================================================== *)

Module FetchSpec.
Import Fetch.

(** ** Unfolding the effect monad *)

Ltac run_unfold :=
  unfold mbind, mret, mthrow, M_bind, M_ret, M_throw,
         bind, ret, raise, lift, gets, modify, try_except in *.

(** ** Code that no outside termination interrupts *)

Definition never_killed {S A} (c : M S A) : Prop :=
  forall s, fst (c s) <> Killed.

Lemma nk_ret {S A} (a : A) : never_killed (S := S) (ret a).
Proof. intros s. discriminate. Qed.

Lemma nk_raise {S A} (e : exn) : never_killed (S := S) (A := A) (raise e).
Proof. intros s. discriminate. Qed.

Lemma nk_lift {S A} (r : result A) : never_killed (S := S) (lift r).
Proof. destruct r; [apply nk_ret | apply nk_raise]. Qed.

Lemma nk_gets {S A} (f : S -> A) : never_killed (gets f).
Proof. intros s. discriminate. Qed.

Lemma nk_modify {S} (f : S -> S) : never_killed (modify f).
Proof. intros s. discriminate. Qed.

Lemma nk_bind {S A B} (c : M S A) (k : A -> M S B) :
  never_killed c -> (forall a, never_killed (k a)) -> never_killed (bind c k).
Proof.
  intros Hc Hk s. unfold bind. specialize (Hc s).
  destruct (c s) as [[a|e|] s']; cbn in *; [apply Hk | discriminate | congruence].
Qed.

Lemma nk_try_except {S A} (body : M S A) (h : exn -> M S A) :
  never_killed body -> (forall e, never_killed (h e)) ->
  never_killed (try_except body h).
Proof.
  intros Hb Hh s. unfold try_except. specialize (Hb s).
  destruct (body s) as [[a|e|] s']; cbn in *; [discriminate | apply Hh | congruence].
Qed.

Ltac nk_step :=
  match goal with
  | |- never_killed (mbind _ _) => apply nk_bind; [|intros]
  | |- never_killed (bind _ _) => apply nk_bind; [|intros]
  | |- never_killed (ret _) => apply nk_ret
  | |- never_killed (mret _) => apply nk_ret
  | |- never_killed (raise _) => apply nk_raise
  | |- never_killed (lift _) => apply nk_lift
  | |- never_killed (gets _) => apply nk_gets
  | |- never_killed (modify _) => apply nk_modify
  | |- never_killed (emit _) => apply nk_modify
  | |- never_killed (try_except _ _) => apply nk_try_except; [|intros]
  | |- never_killed (if ?b then _ else _) => destruct b
  | |- never_killed (match ?x with _ => _ end) => destruct x
  | |- never_killed (let '(_, _) := ?x in _) => destruct x
  end.

Lemma nk_http_get (url ua : string) (t : Z) : never_killed (http_get url ua t).
Proof. unfold http_get. repeat nk_step. Qed.

Lemma nk_extract_body (row : Series) (ua : string) :
  never_killed (extract_filing_html_body row ua).
Proof.
  unfold extract_filing_html_body.
  repeat first [apply nk_http_get | nk_step].
Qed.

(** [try_except] with a handler that returns leaves no exception. *)
Lemma try_except_total {S A} (body : M S A) (h : exn -> A) (s : S) :
  never_killed body ->
  exists a s', try_except body (fun e => ret (h e)) s = (Ret a, s').
Proof.
  intros Hb. unfold try_except. specialize (Hb s).
  destruct (body s) as [[a|e|] s']; cbn in *; eauto. congruence.
Qed.

(** ** What [save_checkpoint] does, case by case *)

(** The object a checkpoint path names. *)
Definition checkpoint_place (path : string) (w : World) : result place :=
  if is_gcs_path path then
    match parse_gcs_url path with
    | Ok (b, k) => Ok (Gcs (b +:+ "/" +:+ k))
    | Err e => Err e
    end
  else Ok (Local (resolve w path)).

Definition store_at (pl : place) (d : fdata) (w : World) : World :=
  match pl with
  | Local p => set_local (insert p d) w
  | Gcs k => set_gcs (insert k d) w
  end.

Definition lookup_at (pl : place) (w : World) : option fdata :=
  match pl with
  | Local p => local_files w !! p
  | Gcs k => gcs_objects w !! k
  end.

(** The copy of the state that is serialised. *)
Definition stamped (d : dict) (w : World) : dict :=
  <["updated_at_unix" := PyInt (now w)]> d.

Definition warn_save (path : string) (e : exn) : event :=
  EvWarn ("[WARN] Failed to save checkpoint " +:+ path +:+ ": "
          +:+ exn_type e +:+ ": " +:+ exn_text e).

Definition warn_load (path : string) (e : exn) : event :=
  EvWarn ("[WARN] Failed to load checkpoint " +:+ path +:+ ": "
          +:+ exn_type e +:+ ": " +:+ exn_text e).

Definition save_outcome (path : string) (d : dict) (w : World) : outcome unit * World :=
  let w1 := set_heap (fun h => h ++ [stamped d w]) w in
  match json_dumps (stamped d w) with
  | Err e => (Exc e, w1)
  | Ok payload =>
      match checkpoint_place path w with
      | Err e => (Ret tt, set_trace (fun t => t ++ [warn_save path e]) w1)
      | Ok pl =>
          match write_fault w pl with
          | Some e => (Ret tt, set_trace (fun t => t ++ [warn_save path e]) w1)
          | None => (Ret tt, store_at pl payload w1)
          end
      end
  end.

Lemma heap_snoc_lookup (h : list dict) (d : dict) : (h ++ [d]) !! length h = Some d.
Proof. now rewrite list_lookup_middle. Qed.

Lemma heap_snoc_insert (h : list dict) (d d' : dict) :
  <[length h := d']> (h ++ [d]) = h ++ [d'].
Proof.
  replace (length h) with (length h + 0)%nat by lia.
  now rewrite insert_app_r.
Qed.

Lemma save_checkpoint_eq (path : string) (st : nat) (d : dict) (w : World) :
  heap w !! st = Some d ->
  save_checkpoint path st w = save_outcome path d w.
Proof.
  intros Hst. unfold save_checkpoint, save_outcome, checkpoint_place.
  run_unfold. unfold deref, alloc, setitem, write_gcs, write_local, emit, store_at.
  run_unfold. unfold set_heap, set_trace, set_local, set_gcs. cbn. rewrite Hst. cbn.
  rewrite heap_snoc_lookup, heap_snoc_insert, heap_snoc_lookup.
  unfold stamped.
  destruct (json_dumps _) as [payload|e]; [|reflexivity].
  destruct (is_gcs_path path).
  - destruct (parse_gcs_url path) as [[b k]|e]; [|reflexivity].
    cbn. destruct (write_fault w _); reflexivity.
  - cbn. destruct (write_fault w _); reflexivity.
Qed.

(** ** The direct-document example *)

Definition example_filename : string :=
  "edgar/data/320193/0000320193-20-000096.txt".

Definition example_url : string :=
  "https://www.sec.gov/Archives/edgar/data/320193/0000320193-20-000096.txt".

Definition example_row : Series :=
  [("Filename", PyStr example_filename); ("Form Type", PyStr "10-K")].

(** C7.  A row whose Filename is
    [edgar/data/320193/0000320193-20-000096.txt] is fetched through the
    direct-document branch: one GET, with the 25 second timeout of that
    branch, of the archive root followed by the filename; when the reply
    is HTTP 200 the result is that URL, the reply body as content and the
    status [Success (direct)] behind its check-mark glyph.  The row of
    the example, with form type 10-K, is a candidate row. *)
Theorem C7_direct_layout_example
        (row : Series) (ua body : string) (w : World) :
  series_get row "Filename" (PyStr "") = PyStr example_filename ->
  http w example_url = Ok (200, body) ->
  fst (extract_filing_html_directly row ua w)
    = Ret (Some example_url, Some body, "✅ Success (direct)")
  /\ trace (snd (extract_filing_html_directly row ua w))
    = trace w ++ [EvCall row; EvGet example_url ua 25]
  /\ filter_tenk [example_row] = [example_row].
Proof.
  intros Hname Hget.
  unfold extract_filing_html_directly, extract_filing_html_body.
  rewrite Hname. destruct w as [h ? ? ? ? ? ? ? ? tr ?].
  vm_compute in Hget. vm_compute. rewrite Hget.
  repeat split.
  clear. induction tr as [|e t IH]; [reflexivity|].
  now rewrite IH.
Qed.

Lemma C7_direct_layout_example_witness :
  fst (extract_filing_html_directly example_row "ua@example.org"
         (mkWorld (fun _ => Ok (200, "<html/>")) (fun _ => Ok None) (fun t => Ok t)
                  (fun p => p) (fun _ => None) 0 ∅ ∅ [] [] None))
  = Ret (Some example_url, Some "<html/>", "✅ Success (direct)").
Proof.
  refine (proj1 (C7_direct_layout_example example_row "ua@example.org" "<html/>" _ _ _));
    reflexivity.
Defined.

(** ** Exceptions stop at the loader and at the cleaner *)

(** C6.  [extract_filing_html_directly] always returns a triple, whatever
    the row, the user agent and the state of the network and the parser:
    an exception raised anywhere in its body (a transport error of
    [requests.get], a parser failure) comes back as
    [(None, None, "Exception: ...")] behind the warning glyph.
    [clean_filing_html] always returns a string, and a failure of the
    parser comes back as the text [Cleaning failed: ...]. *)
Theorem C6_no_exception_escapes (row : Series) (ua html : string) (w : World) :
  (exists r w', extract_filing_html_directly row ua w = (Ret r, w'))
  /\ (forall e w',
        extract_filing_html_body row ua (set_trace (fun t => t ++ [EvCall row]) w)
          = (Exc e, w') ->
        extract_filing_html_directly row ua w
          = (Ret (None, None, "⚠️ Exception: " +:+ exn_text e), w'))
  /\ (exists text, clean_filing_html html w = (Ret text, w))
  /\ (forall e,
        visible_text w html = Err e ->
        clean_filing_html html w = (Ret ("⚠️ Cleaning failed: " +:+ exn_text e), w)).
Proof.
  split; [|split; [|split]].
  - unfold extract_filing_html_directly.
    change (emit (EvCall row);; ?c) with (bind (emit (EvCall row)) (fun _ => c)).
    unfold bind at 1. cbn [emit modify].
    apply try_except_total, nk_extract_body.
  - intros e w' Hbody. unfold extract_filing_html_directly.
    change (emit (EvCall row);; ?c) with (bind (emit (EvCall row)) (fun _ => c)).
    unfold bind at 1. cbn [emit modify]. unfold try_except.
    now rewrite Hbody.
  - unfold clean_filing_html. run_unfold.
    destruct (visible_text w html); eauto.
  - intros e He. unfold clean_filing_html. run_unfold.
    now rewrite He.
Qed.

Definition offline : World :=
  mkWorld (fun _ => Err (Exn "ConnectionError" "network is unreachable"))
          (fun _ => Ok None)
          (fun _ => Err (Exn "RecursionError" "maximum recursion depth exceeded"))
          (fun p => p) (fun _ => None) 0 ∅ ∅ [] [] None.

Lemma C6_no_exception_escapes_witness :
  fst (extract_filing_html_directly example_row "ua@example.org" offline)
    = Ret (None, None, "⚠️ Exception: network is unreachable")
  /\ fst (clean_filing_html "<html>" offline)
    = Ret "⚠️ Cleaning failed: maximum recursion depth exceeded".
Proof.
  destruct (C6_no_exception_escapes example_row "ua@example.org" "<html>" offline)
    as (_ & Hexc & _ & Hclean).
  split.
  - erewrite Hexc by (vm_compute; reflexivity). reflexivity.
  - erewrite Hclean by reflexivity. reflexivity.
Defined.

(** ** The checkpoint store *)

Definition counter_fields : list string :=
  ["rowgroup"; "row_in_rowgroup"; "out_part"; "ok_in_part"; "total_seen"; "total_ok"].

Definition encodable (d : dict) : Prop :=
  map_Forall (fun _ v => json_encodable v = true) d.

Lemma json_dumps_ok (d : dict) :
  encodable d -> json_dumps d = Ok (JsonText (JObject d)).
Proof. intros H. unfold json_dumps. now rewrite bool_decide_eq_true_2. Qed.

Lemma encodable_stamped (d : dict) (w : World) : encodable d -> encodable (stamped d w).
Proof. intros H. apply map_Forall_insert_2; [reflexivity | exact H]. Qed.

Lemma encodable_checkpoint_state (l : Locals) (a b : Z) :
  encodable (checkpoint_state l a b).
Proof.
  unfold checkpoint_state, encodable.
  repeat (apply map_Forall_insert_2; [reflexivity|]).
  apply map_Forall_empty.
Qed.

Lemma lookup_at_store (pl : place) (f : fdata) (w : World) :
  lookup_at pl (store_at pl f w) = Some f.
Proof. destruct pl; cbn; apply lookup_insert_eq. Qed.

(** [load_checkpoint], case by case, on a path that names an object. *)
Lemma load_checkpoint_eq (path : string) (pl : place) (w : World) :
  checkpoint_place path w = Ok pl ->
  load_checkpoint path w =
    match lookup_at pl w with
    | None => (Ret None, w)
    | Some f =>
        match json_loads f with
        | Ok doc => (Ret (Some doc), w)
        | Err e => (Ret None, set_trace (fun t => t ++ [warn_load path e]) w)
        end
    end.
Proof.
  unfold checkpoint_place, load_checkpoint, checkpoint_exists, gcs_exists, local_exists.
  destruct (is_gcs_path path).
  - destruct (parse_gcs_url path) as [[b k]|e]; [|discriminate].
    intros [= <-]. run_unfold. unfold read_gcs, emit. run_unfold. cbn.
    destruct (gcs_objects w !! _) as [f|] eqn:Hf.
    + rewrite bool_decide_eq_true_2 by eauto. cbn. rewrite Hf.
      destruct (json_loads f); reflexivity.
    + rewrite bool_decide_eq_false_2 by (intros [? ?]; discriminate). reflexivity.
  - intros [= <-]. run_unfold. unfold read_local, emit. run_unfold. cbn.
    destruct (local_files w !! _) as [f|] eqn:Hf.
    + rewrite bool_decide_eq_true_2 by eauto. cbn. rewrite Hf.
      destruct (json_loads f); reflexivity.
    + rewrite bool_decide_eq_false_2 by (intros [? ?]; discriminate). reflexivity.
Qed.

(** C10.  [save_checkpoint] works on a copy: the dict object the caller
    passed holds after the call exactly what it held before, and so does
    every other object that existed; the time stamp went into a new object
    at a different address. *)
Theorem C10_save_checkpoint_copies_state
        (path : string) (state : nat) (d : dict) (w : World) :
  heap w !! state = Some d ->
  heap (snd (save_checkpoint path state w)) !! state = Some d
  /\ (forall r d', heap w !! r = Some d' ->
                   heap (snd (save_checkpoint path state w)) !! r = Some d')
  /\ heap (snd (save_checkpoint path state w)) !! length (heap w)
       = Some (<["updated_at_unix" := PyInt (now w)]> d)
  /\ state <> length (heap w).
Proof.
  intros Hst. rewrite (save_checkpoint_eq _ _ _ _ Hst).
  assert (Hheap : heap (snd (save_outcome path d w)) = heap w ++ [stamped d w]).
  { unfold save_outcome.
    destruct (json_dumps _); [|reflexivity].
    destruct (checkpoint_place path w) as [pl|]; [|reflexivity].
    destruct (write_fault w pl); [reflexivity|]. now destruct pl. }
  rewrite Hheap.
  assert (Hold : forall r d', heap w !! r = Some d' ->
                              (heap w ++ [stamped d w]) !! r = Some d').
  { intros r d' Hr. rewrite lookup_app_l; [exact Hr|].
    now apply lookup_lt_Some in Hr. }
  repeat split.
  - now apply Hold.
  - exact Hold.
  - apply heap_snoc_lookup.
  - apply lookup_lt_Some in Hst. lia.
Qed.

Definition blank : World :=
  mkWorld (fun _ => Ok (200, "<html/>")) (fun _ => Ok None) (fun t => Ok t)
          (fun p => p) (fun _ => None) 1700000000 ∅ ∅ [] [] None.

Definition zero_locals : Locals := mkLocals 0 0 0 0 0 0 [] 0 0.

Lemma C10_save_checkpoint_copies_state_witness :
  heap (snd (save_checkpoint "/out/_checkpoint.json" 0
               (set_heap (fun _ => [checkpoint_state zero_locals 3 7]) blank))) !! 0%nat
  = Some (checkpoint_state zero_locals 3 7).
Proof.
  refine (proj1 (C10_save_checkpoint_copies_state "/out/_checkpoint.json" 0
                   (checkpoint_state zero_locals 3 7) _ _)).
  reflexivity.
Defined.



(** On a path that names an object (a local path, or a [gs://] URL that
    [parse_gcs_url] accepts), [load_checkpoint] returns [None] without
    raising when no object is stored there and when the stored content
    does not deserialise; storage is left as it was, and the caller's
    [or {}] then reads every counter as 0. *)
Lemma load_checkpoint_absent_or_corrupt (path : string) (pl : place) (w : World) :
  checkpoint_place path w = Ok pl ->
  (lookup_at pl w = None
   \/ exists f e, lookup_at pl w = Some f /\ json_loads f = Err e) ->
  exists w',
    load_checkpoint path w = (Ret None, w')
    /\ local_files w' = local_files w
    /\ gcs_objects w' = gcs_objects w
    /\ or_empty None = JObject ∅
    /\ Forall (fun k => ckpt_int (or_empty None) k w' = (Ret 0, w')) counter_fields.
Proof.
  intros Hpl Hcase. rewrite (load_checkpoint_eq _ _ _ Hpl).
  assert (Hzero : forall w', Forall (fun k => ckpt_int (or_empty None) k w' = (Ret 0, w'))
                                    counter_fields).
  { intros w'. unfold counter_fields. repeat constructor. }
  destruct Hcase as [Hnone | (f & e & Hf & He)].
  - rewrite Hnone. exists w. repeat split. apply Hzero.
  - rewrite Hf, He. eexists. repeat split. apply Hzero.
Qed.

(** C4 against the code.  Nothing is stored anywhere and the path is one
    that [is_gcs_path], which compares in lower case, takes for a bucket
    URL; [parse_gcs_url] compares as written and raises [ValueError].
    The existence check of [load_checkpoint] runs before its [try], so the
    exception reaches the caller instead of the sentinel [None];
    [save_checkpoint], which parses the path inside its [try], logs the
    same error and returns. *)
Theorem C4_uppercase_scheme_raises :
  local_files blank = ∅
  /\ gcs_objects blank = ∅
  /\ is_gcs_path "GS://bucket/_checkpoint.json" = true
  /\ load_checkpoint "GS://bucket/_checkpoint.json" blank
     = (Exc (Exn "ValueError" "Not a GCS URL: GS://bucket/_checkpoint.json"), blank)
  /\ fst (save_checkpoint "GS://bucket/_checkpoint.json" 0
            (set_heap (fun _ => [checkpoint_state zero_locals 0 0]) blank))
     = Ret tt.
Proof. repeat split. Qed.

(** [save_checkpoint] of a state that serialises ends normally, whatever
    the path and the storage do. *)
Lemma save_checkpoint_returns (path : string) (state : nat) (d : dict) (w : World) :
  heap w !! state = Some d ->
  encodable d ->
  fst (save_checkpoint path state w) = Ret tt.
Proof.
  intros Hst Henc. rewrite (save_checkpoint_eq _ _ _ _ Hst). unfold save_outcome.
  rewrite (json_dumps_ok _ (encodable_stamped _ w Henc)).
  destruct (checkpoint_place path w) as [pl|]; [|reflexivity].
  now destruct (write_fault w pl).
Qed.

(** The state of the failing call: [{"rowgroup": {1, 2}}]. *)
Definition unserialisable_state : dict := <["rowgroup" := PyObj "{1, 2}"]> ∅.

(** C5 against the code.  [json.dumps] runs before the [try]: on a state
    holding a value that JSON cannot encode, [save_checkpoint] raises
    [TypeError] to its caller, with nothing written and nothing logged. *)
Theorem C5_unserialisable_state_raises :
  save_checkpoint "/out/_checkpoint.json" 0
    (set_heap (fun _ => [unserialisable_state]) blank)
  = (Exc (Exn "TypeError" "Object is not JSON serializable"),
     set_heap (fun _ => [unserialisable_state;
                         <["updated_at_unix" := PyInt 1700000000]> unserialisable_state])
              blank).
Proof. vm_compute. reflexivity. Qed.

(** ** The retry loop *)

(** Appending to the trace. *)
Definition log (evs : list event) (w : World) : World :=
  set_trace (fun t => t ++ evs) w.

Lemma log_nil (w : World) : log [] w = w.
Proof. destruct w. unfold log, set_trace. cbn. now rewrite app_nil_r. Qed.

Lemma log_log (a b : list event) (w : World) : log b (log a w) = log (a ++ b) w.
Proof. unfold log, set_trace. cbn. now rewrite app_assoc. Qed.

Lemma trace_log (evs : list event) (w : World) : trace (log evs w) = trace w ++ evs.
Proof. reflexivity. Qed.

(** Two worlds in which the network and the index parser answer alike. *)
Definition same_oracles (w v : World) : Prop :=
  http v = http w /\ table_hrefs v = table_hrefs w.

Lemma same_oracles_log (w v : World) (evs : list event) :
  same_oracles w v -> same_oracles w (log evs v).
Proof. intros H. exact H. Qed.

Definition is_call (e : event) : bool :=
  match e with EvCall _ => true | _ => false end.

Definition is_retry_sleep (e : event) : bool :=
  match e with EvSleep (Some 2) => true | _ => false end.

(** Calls of the per-row fetch function, and pauses of the retry loop,
    recorded in a trace. *)
Definition calls (t : list event) : nat := length (List.filter is_call t).
Definition retry_sleeps (t : list event) : nat := length (List.filter is_retry_sleep t).

Lemma calls_app (a b : list event) : calls (a ++ b) = (calls a + calls b)%nat.
Proof. unfold calls. now rewrite List.filter_app, length_app. Qed.

Lemma retry_sleeps_app (a b : list event) :
  retry_sleeps (a ++ b) = (retry_sleeps a + retry_sleeps b)%nat.
Proof. unfold retry_sleeps. now rewrite List.filter_app, length_app. Qed.

Lemma http_get_run (url ua : string) (t : Z) (v : World) :
  http_get url ua t v
  = (match http v url with Ok r => Ret r | Err e => Exc e end, log [EvGet url ua t] v).
Proof.
  unfold http_get, emit, log. run_unfold. unfold set_trace. cbn.
  destruct (http v url); reflexivity.
Qed.

(** One call of the loader: a result and a piece of trace that depend on
    the row and on the answers of the network and the parser only; the
    piece of trace holds the call itself and no pause, and the status is
    never the bare success mark of the result records. *)
Lemma extract_deterministic (row : Series) (ua : string) (w : World) :
  exists (r : fetched) (evs : list event),
    calls evs = 1%nat /\ retry_sleeps evs = 0%nat
    /\ snd r <> "✅ Success"
    /\ forall v, same_oracles w v ->
                 extract_filing_html_directly row ua v = (Ret r, log evs v).
Proof.
  unfold extract_filing_html_directly, extract_filing_html_body.
  set (filename := PyStr.replace_char " " "" _).
  set (handler := fun e : exn => ret (None, None, "⚠️ Exception: " +:+ exn_text e)).
  assert (Hstep : forall (c : Run fetched) (r : fetched) (evs : list event),
             (forall v, same_oracles w v -> try_except c handler v = (Ret r, log evs v)) ->
             forall v, same_oracles w v ->
                (emit (EvCall row);; try_except c handler) v
                = (Ret r, log (EvCall row :: evs) v)).
  { intros c r evs Hc v Hv. run_unfold. unfold emit. run_unfold. cbn.
    fold (log [EvCall row] v).
    specialize (Hc (log [EvCall row] v) (same_oracles_log _ _ _ Hv)).
    unfold try_except in Hc. rewrite Hc. now rewrite log_log. }
  assert (Hfin : forall (r : fetched) (evs : list event) (c : Run fetched),
             (forall v, same_oracles w v -> try_except c handler v = (Ret r, log evs v)) ->
             calls evs = 0%nat -> retry_sleeps evs = 0%nat ->
             snd r <> "✅ Success" ->
             exists (r : fetched) (evs : list event),
               calls evs = 1%nat /\ retry_sleeps evs = 0%nat
               /\ snd r <> "✅ Success"
               /\ forall v, same_oracles w v ->
                    (emit (EvCall row);; try_except c handler) v = (Ret r, log evs v)).
  { intros r evs c Hrun Hc Hs Hr. exists r, (EvCall row :: evs).
    split; [|split; [|split]].
    - unfold calls in *. cbn. now rewrite Hc.
    - unfold retry_sleeps in *. cbn. exact Hs.
    - exact Hr.
    - now apply Hstep. }
  assert (Hexn : forall e : exn, "⚠️ Exception: " +:+ exn_text e <> "✅ Success")
    by (intros e; cbn; discriminate).
  destruct (String.eqb filename "").
  { eapply (Hfin _ []);
      [intros v _; subst handler; now rewrite log_nil
      | reflexivity | reflexivity | cbn; discriminate]. }
  destruct (has_document_suffix (PyStr.lower filename)).
  { set (url := "https://www.sec.gov/Archives/" +:+ _).
    destruct (http w url) as [[code text]|e] eqn:Hget.
    - destruct (negb (code =? 200)) eqn:Hcode;
        (eapply (Hfin _ [EvGet url ua 25]);
         [intros v [Hh _]; subst handler; run_unfold;
          rewrite http_get_run, Hh, Hget, Hcode; reflexivity
         | reflexivity | reflexivity | cbn; discriminate]).
    - eapply (Hfin _ [EvGet url ua 25]);
        [intros v [Hh _]; subst handler; run_unfold;
         rewrite http_get_run, Hh, Hget; reflexivity
        | reflexivity | reflexivity | apply Hexn]. }
  set (parts := PyStr.split "/" filename).
  destruct (length parts <? 4)%nat.
  { eapply (Hfin _ []);
      [intros v _; subst handler; now rewrite log_nil
      | reflexivity | reflexivity | cbn; discriminate]. }
  set (index_url := "https://www.sec.gov/Archives/edgar/data/" +:+ _).
  destruct (http w index_url) as [[code text]|e] eqn:Hget.
  2:{ eapply (Hfin _ [EvGet index_url ua 15]);
        [intros v [Hh _]; subst handler; run_unfold;
         rewrite http_get_run, Hh, Hget; reflexivity
        | reflexivity | reflexivity | apply Hexn]. }
  destruct (negb (code =? 200)) eqn:Hcode.
  { eapply (Hfin _ [EvGet index_url ua 15]);
      [intros v [Hh _]; subst handler; run_unfold;
       rewrite http_get_run, Hh, Hget, Hcode; reflexivity
      | reflexivity | reflexivity | cbn; discriminate]. }
  destruct (table_hrefs w text) as [[hrefs|]|e] eqn:Htab.
  3:{ eapply (Hfin _ [EvGet index_url ua 15]);
        [intros v [Hh Ht]; subst handler; run_unfold;
         rewrite http_get_run, Hh, Hget, Hcode; cbn; rewrite Ht, Htab; reflexivity
        | reflexivity | reflexivity | apply Hexn]. }
  2:{ eapply (Hfin _ [EvGet index_url ua 15]);
        [intros v [Hh Ht]; subst handler; run_unfold;
         rewrite http_get_run, Hh, Hget, Hcode; cbn; rewrite Ht, Htab; reflexivity
        | reflexivity | reflexivity | cbn; discriminate]. }
  destruct (List.find is_primary_href hrefs) as [link|] eqn:Hfind.
  2:{ eapply (Hfin _ [EvGet index_url ua 15]);
        [intros v [Hh Ht]; subst handler; run_unfold;
         rewrite http_get_run, Hh, Hget, Hcode; cbn; rewrite Ht, Htab; cbn;
         rewrite Hfind; reflexivity
        | reflexivity | reflexivity | cbn; discriminate]. }
  set (filing_url := "https://www.sec.gov/" +:+ PyStr.lstrip_char "/" (default "" link)).
  destruct (http w filing_url) as [[fcode ftext]|e] eqn:Hget2.
  - destruct (negb (fcode =? 200)) eqn:Hfcode;
      (eapply (Hfin _ [EvGet index_url ua 15; EvGet filing_url ua 25]);
       [intros v [Hh Ht]; subst handler; run_unfold;
        rewrite http_get_run, Hh, Hget, Hcode; cbn; rewrite Ht, Htab; cbn;
        rewrite Hfind; fold filing_url; rewrite http_get_run; cbn;
        rewrite Hh, Hget2, Hfcode; now rewrite log_log
       | reflexivity | reflexivity | cbn; discriminate]).
  - eapply (Hfin _ [EvGet index_url ua 15; EvGet filing_url ua 25]);
      [intros v [Hh Ht]; subst handler; run_unfold;
       rewrite http_get_run, Hh, Hget, Hcode; cbn; rewrite Ht, Htab; cbn;
       rewrite Hfind; fold filing_url; rewrite http_get_run; cbn;
       rewrite Hh, Hget2; now rewrite log_log
      | reflexivity | reflexivity | apply Hexn].
Qed.

Definition attempt_of (r : fetched) : attempt :=
  (fst (fst r), snd (fst r), Some (snd r)).

Definition html_of (a : attempt) : option string := snd (fst a).

(** The trace of [n] failed attempts: each one the events of the call
    followed by the two-second pause. *)
Definition failed_attempts (evs : list event) (n : nat) : list event :=
  concat (repeat (evs ++ [EvSleep (Some 2)]) n).

Lemma calls_failed_attempts (evs : list event) (n : nat) :
  calls evs = 1%nat -> calls (failed_attempts evs n) = n.
Proof.
  intros H. unfold failed_attempts. induction n as [|n IH]; [reflexivity|].
  cbn [repeat concat]. rewrite !calls_app, H, IH. reflexivity.
Qed.

Lemma retry_sleeps_failed_attempts (evs : list event) (n : nat) :
  retry_sleeps evs = 0%nat -> retry_sleeps (failed_attempts evs n) = n.
Proof.
  intros H. unfold failed_attempts. induction n as [|n IH]; [reflexivity|].
  cbn [repeat concat]. rewrite !retry_sleeps_app, H, IH. reflexivity.
Qed.

Section RetryLoop.
Variables (row : Series) (ua : string) (w : World).
Variables (r : fetched) (evs : list event).
Hypothesis Hcall : forall v, same_oracles w v ->
  extract_filing_html_directly row ua v = (Ret r, log evs v).

(** The loop when the fetch fails: [n] attempts, [n] pauses. *)
Lemma retry_loop_failing (n : nat) :
  has_content (snd (fst r)) = false ->
  forall (cur : attempt) (v : World), same_oracles w v ->
    retry_loop n row ua cur v
    = (Ret (match n with O => cur | S _ => attempt_of r end),
       log (failed_attempts evs n) v).
Proof.
  intros Hfail. induction n as [|n IH]; intros cur v Hv.
  - cbn. now rewrite log_nil.
  - cbn [retry_loop]. run_unfold. rewrite (Hcall v Hv).
    destruct r as [[url html] status]. cbn in Hfail. rewrite Hfail.
    unfold emit. run_unfold. fold (log [EvSleep (Some 2)] (log evs v)).
    rewrite log_log.
    rewrite IH by (apply same_oracles_log, Hv).
    rewrite log_log. unfold failed_attempts. cbn [repeat concat].
    destruct n; reflexivity.
Qed.

(** The loop when the fetch succeeds: one attempt, no pause. *)
Lemma retry_loop_succeeding (n : nat) :
  has_content (snd (fst r)) = true ->
  forall (cur : attempt) (v : World), same_oracles w v ->
    retry_loop (S n) row ua cur v = (Ret (attempt_of r), log evs v).
Proof.
  intros Hok cur v Hv. cbn [retry_loop]. run_unfold. rewrite (Hcall v Hv).
  destruct r as [[url html] status]. cbn in Hok. now rewrite Hok.
Qed.
End RetryLoop.

Lemma same_oracles_refl (w : World) : same_oracles w w.
Proof. split; reflexivity. Qed.

(** Whatever the fetch does, the loop ends with at most [n] calls made. *)
Lemma retry_loop_bounded (n : nat) (row : Series) (ua : string) (w : World) :
  exists (a : attempt) (t : list event),
    retry_loop n row ua (None, None, None) w = (Ret a, log t w)
    /\ (calls t <= n)%nat.
Proof.
  destruct (extract_deterministic row ua w) as (r & evs & Hc & Hs & Hne & Hrun).
  destruct (has_content (snd (fst r))) eqn:Hcontent.
  - destruct n as [|n].
    + exists (None, None, None), []. cbn. rewrite log_nil. split; [reflexivity | lia].
    + exists (attempt_of r), evs. split; [|lia].
      apply (retry_loop_succeeding row ua w r evs Hrun n Hcontent), same_oracles_refl.
  - eexists _, _. split.
    + apply (retry_loop_failing row ua w r evs Hrun n Hcontent), same_oracles_refl.
    + now rewrite calls_failed_attempts.
Qed.

(** ** [persist_ckpt] always goes through *)

(** The world after [persist_ckpt(rowgroup, row_in_rowgroup)]. *)
Definition persisted (args : Args) (l : Locals) (a b : Z) (w : World) : World :=
  snd (save_outcome (checkpoint_path args) (checkpoint_state l a b)
                    (set_heap (fun h => h ++ [checkpoint_state l a b]) w)).

Lemma persist_ckpt_eq (args : Args) (l : Locals) (a b : Z) (w : World) :
  persist_ckpt args l a b w = (Ret tt, persisted args l a b w).
Proof.
  unfold persist_ckpt, persisted. run_unfold. unfold alloc. cbn.
  set (w1 := set_heap _ w).
  assert (Hst : heap w1 !! length (heap w) = Some (checkpoint_state l a b))
    by apply heap_snoc_lookup.
  rewrite (save_checkpoint_eq _ _ _ _ Hst).
  pose proof (save_checkpoint_returns (checkpoint_path args) _ _ w1 Hst
                (encodable_checkpoint_state l a b)) as Hret.
  rewrite (save_checkpoint_eq _ _ _ _ Hst) in Hret.
  destruct (save_outcome _ _ w1) as [o w2]. cbn in *. now subst o.
Qed.

(** What [persist_ckpt] may change: the heap, the checkpoint object, and
    the trace, by a warning. *)
Lemma persisted_frame (args : Args) (l : Locals) (a b : Z) (w : World) :
  http (persisted args l a b w) = http w
  /\ table_hrefs (persisted args l a b w) = table_hrefs w
  /\ visible_text (persisted args l a b w) = visible_text w
  /\ resolve (persisted args l a b w) = resolve w
  /\ write_fault (persisted args l a b w) = write_fault w
  /\ now (persisted args l a b w) = now w
  /\ kill_after (persisted args l a b w) = kill_after w
  /\ exists ws, trace (persisted args l a b w) = trace w ++ ws
                /\ calls ws = 0%nat /\ retry_sleeps ws = 0%nat.
Proof.
  unfold persisted, save_outcome.
  rewrite (json_dumps_ok _ (encodable_stamped _ _ (encodable_checkpoint_state l a b))).
  destruct (checkpoint_place _ _) as [pl|e].
  - destruct (write_fault _ pl) as [e|].
    + cbn. repeat split. eexists. repeat split.
    + destruct pl; cbn; repeat split; exists []; now rewrite app_nil_r.
  - cbn. repeat split. eexists. repeat split.
Qed.

Lemma periodic_ckpt_eq (args : Args) (rg i : Z) (l : Locals) (w : World) :
  periodic_ckpt args rg i l w
  = if checkpoint_save_every args <=? processed_since_ckpt l
    then (Ret (reset_since l), persisted args l rg (i + 1) w)
    else (Ret l, w).
Proof.
  unfold periodic_ckpt. destruct (_ <=? _); [|reflexivity].
  run_unfold. now rewrite persist_ckpt_eq.
Qed.

Lemma iloc_at (df : DataFrame) (i : Z) (row : Series) (w : World) :
  0 <= i -> df !! Z.to_nat i = Some row -> iloc df i w = (Ret row, w).
Proof.
  intros Hi Hrow. unfold iloc.
  destruct (i <? 0) eqn:Hneg; [lia|]. rewrite Hneg, Hrow. reflexivity.
Qed.


(** A network that answers every request with 404. *)
Definition not_found : World :=
  mkWorld (fun _ => Ok (404, "")) (fun _ => Ok None) (fun t => Ok t)
          (fun p => p) (fun _ => None) 1700000000 ∅ ∅ [] [] None.

Definition example_args : Args :=
  mkArgs "/in.parquet" "/out" "ua@example.org" 2 1 0 0 false "" 50.


(** ** Interrupting after a flush and resuming *)

Definition second_row : Series :=
  [("Filename", PyStr "edgar/data/861439/0000912057-94-000263.txt");
   ("Form Type", PyStr "10-K")].

(** One row group of two candidate rows, a network that answers every
    request with 200; [example_args] flush after every success. *)
Definition two_rows : World :=
  set_local (insert "/in.parquet" (ParquetTable [[example_row; second_row]])) blank.

Definition uninterrupted : World := snd (main example_args two_rows).

(** Terminated right after the first flush and its checkpoint. *)
Definition interrupted : World :=
  snd (main example_args (set_kill (Some 0%nat) two_rows)).

Definition resumed : World := snd (main example_args (restart interrupted)).

Definition first_result : dict :=
  ok_record ["Filename"; "Form Type"] example_row (Some example_url) "<html/>" "<html/>".

Definition checkpoint_of (w : World) : option dict :=
  match local_files w !! "/out/_checkpoint.json" with
  | Some (JsonText (JObject d)) => Some d
  | _ => None
  end.

Definition checkpoint_field (w : World) (k : string) : option pyval :=
  match checkpoint_of w with
  | Some d => d !! k
  | None => None
  end.

Lemma uninterrupted_ends : fst (main example_args two_rows) = Ret tt.
Proof. vm_compute. reflexivity. Qed.

Lemma interrupted_is_killed :
  fst (main example_args (set_kill (Some 0%nat) two_rows)) = Killed.
Proof. vm_compute. reflexivity. Qed.

Lemma resumed_ends : fst (main example_args (restart interrupted)) = Ret tt.
Proof. vm_compute. reflexivity. Qed.

Lemma interrupted_part_0 :
  local_files interrupted !! "/out/part-000000.parquet" = Some (PartFile [first_result]).
Proof. vm_compute. reflexivity. Qed.

Lemma interrupted_checkpoint_rowgroup :
  checkpoint_field interrupted "rowgroup" = Some (PyInt 0).
Proof. vm_compute. reflexivity. Qed.

Lemma interrupted_checkpoint_row :
  checkpoint_field interrupted "row_in_rowgroup" = Some (PyInt 0).
Proof. vm_compute. reflexivity. Qed.

Lemma interrupted_checkpoint_seen :
  checkpoint_field interrupted "total_seen" = Some (PyInt 1).
Proof. vm_compute. reflexivity. Qed.

Lemma uninterrupted_results :
  count_occ (decide_rel (=)) (written_results uninterrupted) first_result = 1%nat
  /\ length (written_results uninterrupted) = 2%nat.
Proof. split; vm_compute; reflexivity. Qed.

Lemma resumed_results :
  count_occ (decide_rel (=)) (written_results resumed) first_result = 2%nat
  /\ length (written_results resumed) = 3%nat.
Proof. split; vm_compute; reflexivity. Qed.

(** C1 against the code.  Two candidate rows, both fetched with success,
    a flush after every success.  The run terminated right after the
    first flush has written part 0 with the result of row 0, and a
    checkpoint whose position is row 0 itself: [flush_part] saves
    [current_row_index], the row just flushed, not the next one.  The
    resumed run fetches row 0 again and writes its result a second time,
    so the parts of the two runs hold three results where the
    uninterrupted run writes two. *)
Theorem C1_resumed_run_repeats_flushed_row :
  fst (main example_args two_rows) = Ret tt
  /\ fst (main example_args (set_kill (Some 0%nat) two_rows)) = Killed
  /\ fst (main example_args (restart interrupted)) = Ret tt
  /\ local_files interrupted !! "/out/part-000000.parquet"
     = Some (PartFile [first_result])
  /\ checkpoint_field interrupted "rowgroup" = Some (PyInt 0)
  /\ checkpoint_field interrupted "row_in_rowgroup" = Some (PyInt 0)
  /\ checkpoint_field interrupted "total_seen" = Some (PyInt 1)
  /\ count_occ (decide_rel (=)) (written_results uninterrupted) first_result = 1%nat
  /\ count_occ (decide_rel (=)) (written_results resumed) first_result = 2%nat
  /\ ~ Permutation (written_results resumed) (written_results uninterrupted).
Proof.
  destruct uninterrupted_results as [Hu1 Hu2].
  destruct resumed_results as [Hr1 Hr2].
  split; [exact uninterrupted_ends|].
  split; [exact interrupted_is_killed|].
  split; [exact resumed_ends|].
  split; [exact interrupted_part_0|].
  split; [exact interrupted_checkpoint_rowgroup|].
  split; [exact interrupted_checkpoint_row|].
  split; [exact interrupted_checkpoint_seen|].
  split; [exact Hu1|]. split; [exact Hr1|].
  intros Hperm. apply Permutation_length in Hperm. rewrite Hu2, Hr2 in Hperm. discriminate.
Qed.

(** ** Output parts stay within the flush threshold *)

Definition part_ok (T : Z) (f : fdata) : Prop :=
  Z.of_nat (successes (part_records f)) <= T.

(** No column of the row is stored under the key [status]. *)
Definition row_ok (row : Series) : Prop :=
  Forall (fun c => column_key (fst c) <> "status") row.

Definition frame_ok (df : DataFrame) : Prop := Forall row_ok df.

(** The [ok_in_part] a run starts from: that of the checkpoint it finds,
    or 0. *)
Definition loaded_ok_in_part (args : Args) (w : World) : outcome Z :=
  fst ((path ← default_checkpoint_path args;
        loaded ← load_checkpoint path;
        ckpt_int (or_empty loaded) "ok_in_part") w).

(** Between iterations the buffer holds fewer successes than the
    threshold, and no more than the counter says. *)
Definition buffer_inv (T : Z) (l : Locals) : Prop :=
  Z.of_nat (successes (buffer l)) <= ok_in_part l
  /\ Z.of_nat (successes (buffer l)) < T.

Lemma successes_app (a b : list dict) :
  successes (a ++ b) = (successes a + successes b)%nat.
Proof. unfold successes. now rewrite List.filter_app, length_app. Qed.

Lemma add_columns_other (cols : list string) (row : Series) (rec : dict) (k : string) :
  Forall (fun col => column_key col <> k) cols ->
  add_columns cols row rec !! k = rec !! k.
Proof.
  unfold add_columns. revert rec.
  induction cols as [|col cols IH]; intros rec Hcols; [reflexivity|].
  inversion Hcols as [|? ? Hcol Hrest]; subst. cbn [fold_left].
  rewrite IH by exact Hrest. now rewrite lookup_insert_ne.
Qed.

(** A failure record is not counted as a success, as long as no column
    lands on the [status] key and the status is not the success mark. *)
Lemma fail_record_not_success
      (cols : list string) (row : Series) (url status : option string) :
  Forall (fun col => column_key col <> "status") cols ->
  status <> Some "✅ Success" ->
  is_success (fail_record cols row url status) = false.
Proof.
  intros Hcols Hstatus. unfold is_success, fail_record.
  apply bool_decide_eq_false_2.
  rewrite add_columns_other by exact Hcols.
  rewrite !lookup_insert_ne by discriminate. rewrite lookup_insert_eq.
  destruct status as [s|]; cbn; [|discriminate].
  intros [= ->]. now apply Hstatus.
Qed.

Lemma df_columns_ok (df : DataFrame) :
  frame_ok df -> Forall (fun col => column_key col <> "status") (df_columns df).
Proof.
  intros Hdf. destruct df as [|row rest]; [constructor|].
  inversion Hdf as [|? ? Hrow _]; subst. cbn.
  unfold row_ok in Hrow. now rewrite Forall_map.
Qed.

Lemma series_set_ok (row : Series) (k : string) (f : pyval -> pyval) :
  row_ok row -> row_ok (series_set row k f).
Proof.
  unfold row_ok. induction row as [|[c v] row IH]; intros H; [constructor|].
  inversion H; subst. cbn [series_set].
  destruct (String.eqb c k); constructor; auto.
Qed.

Lemma filter_tenk_ok (df : DataFrame) : frame_ok df -> frame_ok (filter_tenk df).
Proof.
  unfold frame_ok, filter_tenk. intros Hdf.
  destruct (existsb _ _); [|exact Hdf].
  apply List.Forall_forall. intros row Hin.
  apply List.filter_In in Hin as [Hin _].
  apply List.in_map_iff in Hin as (row0 & <- & Hin0).
  apply series_set_ok. rewrite List.Forall_forall in Hdf. now apply Hdf.
Qed.

(** The retry loop, for the invariant: it touches the trace only, and the
    status it hands on is never the success mark. *)
Lemma retry_loop_result (n : nat) (row : Series) (ua : string) (w : World) :
  exists (a : attempt) (t : list event),
    retry_loop n row ua (None, None, None) w = (Ret a, log t w)
    /\ snd a <> Some "✅ Success".
Proof.
  destruct (extract_deterministic row ua w) as (r & evs & Hc & Hs & Hne & Hrun).
  assert (Hattempt : snd (attempt_of r) <> Some "✅ Success").
  { destruct r as [[? ?] status]. cbn in *. intros [= ->]. now apply Hne. }
  destruct (has_content (snd (fst r))) eqn:Hcontent.
  - destruct n as [|n].
    + exists (None, None, None), []. cbn. rewrite log_nil. split; [reflexivity | discriminate].
    + exists (attempt_of r), evs. split; [|exact Hattempt].
      apply (retry_loop_succeeding row ua w r evs Hrun n Hcontent), same_oracles_refl.
  - eexists _, _. split.
    + apply (retry_loop_failing row ua w r evs Hrun n Hcontent), same_oracles_refl.
    + destruct n; [discriminate | exact Hattempt].
Qed.

Section Invariant.
Variable T : Z.
Hypothesis T_positive : 1 <= T.

(** A property of the storage that survives whatever leaves the two
    stores alone, and the writing of an object within the threshold. *)
Variable I : World -> Prop.
Hypothesis I_frame : forall w w',
  local_files w' = local_files w -> gcs_objects w' = gcs_objects w -> I w -> I w'.
Hypothesis I_store : forall pl f w, part_ok T f -> I w -> I (store_at pl f w).

(** [c] keeps the property, however it ends, and what it returns
    satisfies [Q]. *)
Definition keeps {A} (c : Run A) (Q : A -> Prop) : Prop :=
  forall w, I w -> I (snd (c w)) /\ forall a, fst (c w) = Ret a -> Q a.

Lemma keeps_ret {A} (a : A) (Q : A -> Prop) : Q a -> keeps (ret a) Q.
Proof. intros HQ w Hw. split; [exact Hw|]. now intros ? [= <-]. Qed.

Lemma keeps_bind {A B} (c : Run A) (k : A -> Run B) (Q1 : A -> Prop) (Q2 : B -> Prop) :
  keeps c Q1 -> (forall a, Q1 a -> keeps (k a) Q2) -> keeps (c ≫= k) Q2.
Proof.
  intros Hc Hk w Hw. change (c ≫= k) with (bind c k). unfold bind.
  destruct (Hc w Hw) as [Hw1 Hq1].
  destruct (c w) as [[a|e|] w1]; cbn in *.
  - apply Hk; auto.
  - split; [exact Hw1 | discriminate].
  - split; [exact Hw1 | discriminate].
Qed.

(** Code that leaves both stores as they are. *)
Definition storage_free {A} (c : Run A) : Prop :=
  forall w, local_files (snd (c w)) = local_files w
            /\ gcs_objects (snd (c w)) = gcs_objects w.

Lemma keeps_storage_free {A} (c : Run A) : storage_free c -> keeps c (fun _ => True).
Proof.
  intros Hc w Hw. destruct (Hc w) as [Hl Hg]. split; [|trivial].
  now apply (I_frame w).
Qed.

Lemma keeps_post {A} (c : Run A) (Q : A -> Prop) :
  storage_free c -> (forall w a, fst (c w) = Ret a -> Q a) -> keeps c Q.
Proof.
  intros Hc HQ w Hw. destruct (Hc w) as [Hl Hg]. split.
  - now apply (I_frame w).
  - apply HQ.
Qed.

Lemma sf_ret {A} (a : A) : storage_free (ret (S := World) a).
Proof. intros w. split; reflexivity. Qed.

Lemma sf_raise {A} (e : exn) : storage_free (raise (S := World) (A := A) e).
Proof. intros w. split; reflexivity. Qed.

Lemma sf_lift {A} (r : result A) : storage_free (lift (S := World) r).
Proof. destruct r; [apply sf_ret | apply sf_raise]. Qed.

Lemma sf_gets {A} (f : World -> A) : storage_free (gets f).
Proof. intros w. split; reflexivity. Qed.

Lemma sf_emit (e : event) : storage_free (emit e).
Proof. intros w. split; reflexivity. Qed.

Lemma sf_bind {A B} (c : Run A) (k : A -> Run B) :
  storage_free c -> (forall a, storage_free (k a)) -> storage_free (c ≫= k).
Proof.
  intros Hc Hk w. change (c ≫= k) with (bind c k). unfold bind.
  destruct (Hc w) as [Hl Hg].
  destruct (c w) as [[a|e|] w1]; cbn in *; [|auto..].
  destruct (Hk a w1) as [Hl1 Hg1]. split; congruence.
Qed.

Lemma sf_try_except {A} (body : Run A) (h : exn -> Run A) :
  storage_free body -> (forall e, storage_free (h e)) -> storage_free (try_except body h).
Proof.
  intros Hb Hh w. unfold try_except. destruct (Hb w) as [Hl Hg].
  destruct (body w) as [[a|e|] w1]; cbn in *; [auto| |auto].
  destruct (Hh e w1) as [Hl1 Hg1]. split; congruence.
Qed.

Ltac sf_step :=
  match goal with
  | |- storage_free (_ ≫= _) => apply sf_bind; [|intros]
  | |- storage_free (ret _) => apply sf_ret
  | |- storage_free (raise _) => apply sf_raise
  | |- storage_free (lift _) => apply sf_lift
  | |- storage_free (gets _) => apply sf_gets
  | |- storage_free (emit _) => apply sf_emit
  | |- storage_free (try_except _ _) => apply sf_try_except; [|intros]
  | |- storage_free (if ?b then _ else _) => destruct b
  | |- storage_free (match ?x with _ => _ end) => destruct x
  end.

Lemma sf_clean (html : string) : storage_free (clean_filing_html html).
Proof. unfold clean_filing_html. repeat sf_step. Qed.

Lemma sf_iloc (df : DataFrame) (i : Z) : storage_free (iloc df i).
Proof. unfold iloc. repeat sf_step. Qed.

Lemma sf_read_row_group (pf : list DataFrame) (rg : Z) : storage_free (read_row_group pf rg).
Proof. unfold read_row_group. repeat sf_step. Qed.

Lemma sf_part_url (args : Args) (n : Z) : storage_free (part_url args n).
Proof. unfold part_url. repeat sf_step. Qed.

Lemma sf_gcs_exists (u : string) : storage_free (gcs_exists u).
Proof. unfold gcs_exists. repeat sf_step. Qed.

Lemma sf_local_exists (p : string) : storage_free (local_exists p).
Proof. unfold local_exists. repeat sf_step. Qed.

Lemma sf_kill_point : storage_free kill_point.
Proof. intros w. unfold kill_point. destruct (kill_after w) as [[|n]|]; split; reflexivity. Qed.

Lemma keeps_persist_ckpt (args : Args) (l : Locals) (a b : Z) :
  keeps (persist_ckpt args l a b) (fun _ => True).
Proof.
  intros w Hw. rewrite persist_ckpt_eq. cbn. split; [|trivial].
  unfold persisted, save_outcome.
  rewrite (json_dumps_ok _ (encodable_stamped _ _ (encodable_checkpoint_state l a b))).
  assert (Hw1 : I (set_heap (fun h => h ++ [checkpoint_state l a b]) w))
    by (apply (I_frame w); auto).
  set (w1 := set_heap _ w) in *.
  destruct (checkpoint_place _ w1) as [pl|e].
  - destruct (write_fault w1 pl) as [e|]; cbn.
    + now apply (I_frame w1).
    + apply I_store; [|now apply (I_frame w1)]. unfold part_ok. cbn. lia.
  - cbn. now apply (I_frame w1).
Qed.

Lemma keeps_write_part (records : list dict) (out : string) :
  Z.of_nat (successes records) <= T ->
  keeps (if is_gcs_path out then write_part_gcs records out
         else write_part_local records out) (fun _ => True).
Proof.
  intros Hrecs w Hw. split; [|trivial].
  destruct (is_gcs_path out).
  - unfold write_part_gcs. run_unfold.
    destruct (parse_gcs_url out) as [[b k]|e]; cbn; [|exact Hw].
    unfold write_gcs. destruct (write_fault w _); cbn; [exact Hw|].
    now apply (I_store (Gcs _)).
  - unfold write_part_local. run_unfold. cbn.
    unfold write_local. destruct (write_fault w _); cbn; [exact Hw|].
    now apply (I_store (Local _)).
Qed.

Lemma buffer_inv_next_part (l : Locals) : buffer_inv T (next_part l).
Proof. unfold buffer_inv. cbn. lia. Qed.

Lemma keeps_flush_part (args : Args) (l : Locals) :
  Z.of_nat (successes (buffer l)) <= T ->
  0 <= ok_in_part l ->
  keeps (flush_part args l) (buffer_inv T).
Proof.
  intros Hbuf Hok. unfold flush_part.
  destruct (buffer l) as [|rec recs] eqn:Hl.
  { apply keeps_ret. unfold buffer_inv. rewrite Hl. cbn. lia. }
  eapply keeps_bind; [apply keeps_storage_free, sf_part_url|]. intros out _.
  eapply keeps_bind.
  { apply keeps_storage_free.
    destruct (skip_if_exists args && is_gcs_path out); [apply sf_gcs_exists | apply sf_ret]. }
  intros [|] _; [apply keeps_ret, buffer_inv_next_part|].
  eapply keeps_bind.
  { apply keeps_storage_free.
    destruct (skip_if_exists args && negb (is_gcs_path out));
      [apply sf_local_exists | apply sf_ret]. }
  intros [|] _; [apply keeps_ret, buffer_inv_next_part|].
  eapply keeps_bind; [apply keeps_write_part, Hbuf|]. intros _ _.
  eapply keeps_bind; [apply keeps_persist_ckpt|]. intros _ _.
  eapply keeps_bind; [apply keeps_storage_free, sf_kill_point|]. intros _ _.
  apply keeps_ret, buffer_inv_next_part.
Qed.

Lemma keeps_periodic_ckpt (args : Args) (rg i : Z) (l : Locals) :
  keeps (periodic_ckpt args rg i l)
        (fun l' => buffer l' = buffer l /\ ok_in_part l' = ok_in_part l).
Proof.
  unfold periodic_ckpt. destruct (_ <=? _).
  - eapply keeps_bind; [apply keeps_persist_ckpt|]. intros _ _.
    apply keeps_ret. split; reflexivity.
  - apply keeps_ret. split; reflexivity.
Qed.

Lemma keeps_for_each {A St} (P : St -> Prop) (body : A -> St -> Run (ctl * St)) :
  (forall x st, P st -> keeps (body x st) (fun r => P (snd r))) ->
  forall xs st, P st -> keeps (for_each xs body st) (fun r => P (snd r)).
Proof.
  intros Hbody xs. induction xs as [|x xs IH]; intros st Hst.
  - apply keeps_ret. exact Hst.
  - cbn [for_each]. eapply keeps_bind; [apply Hbody, Hst|].
    intros [c st'] Hst'. cbn in Hst'.
    destruct c; [apply IH, Hst' | apply keeps_ret, Hst' | apply keeps_ret, Hst'].
Qed.

Lemma keeps_retry_loop (n : nat) (row : Series) (ua : string) :
  keeps (retry_loop n row ua (None, None, None))
        (fun a => snd a <> Some "✅ Success").
Proof.
  apply keeps_post.
  - intros w. destruct (retry_loop_result n row ua w) as (a & t & -> & _).
    split; reflexivity.
  - intros w a Ha. destruct (retry_loop_result n row ua w) as (a' & t & Hrun & Hne).
    rewrite Hrun in Ha. cbn in Ha. now injection Ha as <-.
Qed.

Lemma keeps_row_body (args : Args) (rg : Z) (df : DataFrame) (i : Z) (l : Locals) :
  checkpoint_every args = T ->
  frame_ok df ->
  buffer_inv T l ->
  keeps (row_body args rg df i l) (fun r => buffer_inv T (snd r)).
Proof.
  intros HT Hdf [Hle Hlt]. unfold row_body.
  assert (Hbuf : buffer (enter_row l i) = buffer l) by reflexivity.
  assert (Hok : ok_in_part (enter_row l i) = ok_in_part l) by reflexivity.
  set (l0 := enter_row l i) in *.
  destruct (negb (max_filings args =? 0) && _).
  { eapply keeps_bind.
    - apply keeps_flush_part; rewrite ?Hbuf, ?Hok; lia.
    - intros l2 Hl2. eapply keeps_bind; [apply keeps_persist_ckpt|]. intros _ _.
      apply keeps_ret. exact Hl2. }
  eapply keeps_bind; [apply keeps_storage_free, sf_iloc|]. intros row _.
  eapply keeps_bind; [apply keeps_retry_loop|].
  intros [[url html_text] status] Hstatus. cbn in Hstatus.
  destruct (negb (has_content html_text)).
  - eapply keeps_bind; [apply keeps_periodic_ckpt|].
    intros l' [Hb Ho]. apply keeps_ret.
    change (buffer_inv T l'). unfold buffer_inv. rewrite Hb, Ho.
    change (buffer (push l0 ?r)) with (buffer l0 ++ [r]).
    change (ok_in_part (push l0 ?r)) with (ok_in_part l0).
    assert (Hzero : successes [fail_record (df_columns df) row url status] = 0%nat).
    { unfold successes. cbn [List.filter].
      now rewrite fail_record_not_success by (auto using df_columns_ok). }
    rewrite successes_app, Hbuf, Hok, Hzero. lia.
  - eapply keeps_bind; [apply keeps_storage_free, sf_clean|]. intros cleaned _.
    set (rec := ok_record _ _ _ _ _).
    assert (Hone : (successes [rec] <= 1)%nat).
    { unfold successes. cbn [List.filter]. destruct (is_success rec); cbn [length]; lia. }
    set (l1 := push (count_ok l0) rec).
    assert (Hb1 : buffer l1 = buffer l ++ [rec]) by reflexivity.
    assert (Ho1 : ok_in_part l1 = ok_in_part l + 1) by reflexivity.
    assert (Hs1 : Z.of_nat (successes (buffer l1)) <= Z.of_nat (successes (buffer l)) + 1).
    { rewrite Hb1, successes_app. lia. }
    eapply keeps_bind with (Q1 := buffer_inv T).
    { rewrite HT. destruct (T <=? ok_in_part l1) eqn:Hflush.
      - apply keeps_flush_part; lia.
      - apply keeps_ret. apply Z.leb_gt in Hflush. split; lia. }
    intros l2 Hl2.
    eapply keeps_bind; [apply keeps_periodic_ckpt|].
    intros l3 [Hb Ho].
    eapply keeps_bind; [apply keeps_storage_free, sf_emit|]. intros _ _.
    apply keeps_ret. change (buffer_inv T l3).
    unfold buffer_inv in *. now rewrite Hb, Ho.
Qed.

Lemma keeps_rowgroup_body (args : Args) (pf : list DataFrame) (start_rg rg : Z) (l : Locals) :
  checkpoint_every args = T ->
  Forall frame_ok pf ->
  buffer_inv T l ->
  keeps (rowgroup_body args pf start_rg rg l) (fun r => buffer_inv T (snd r)).
Proof.
  intros HT Hpf Hl. unfold rowgroup_body.
  destruct (negb (max_rowgroups args =? 0) && _); [apply keeps_ret, Hl|].
  eapply keeps_bind with (Q1 := frame_ok).
  { apply keeps_post; [apply sf_read_row_group|].
    intros w df. unfold read_row_group.
    destruct (rg <? 0); [discriminate|].
    destruct (pf !! Z.to_nat rg) as [df'|] eqn:Hdf; [|discriminate].
    intros [= <-]. rewrite List.Forall_forall in Hpf.
    apply Hpf. apply list_elem_of_In. eapply list_elem_of_lookup_2, Hdf. }
  intros df0 Hdf0. pose proof (filter_tenk_ok df0 Hdf0) as Hdf.
  destruct (filter_tenk df0) as [|row rows] eqn:Hfilter; [apply keeps_ret, Hl|].
  eapply keeps_bind.
  { apply (keeps_for_each (buffer_inv T)).
    - intros i st Hst. now apply keeps_row_body.
    - exact Hl. }
  intros [c l1] Hl1. cbn in Hl1.
  destruct c.
  - eapply keeps_bind; [apply keeps_persist_ckpt|]. intros _ _. apply keeps_ret, Hl1.
  - eapply keeps_bind; [apply keeps_persist_ckpt|]. intros _ _. apply keeps_ret, Hl1.
  - apply keeps_ret, Hl1.
Qed.

(** [main] from the point at which the input is open and the counters are
    restored. *)
Lemma keeps_main_loop (args : Args) (pf : list DataFrame) (start_rg : Z) (l : Locals) :
  checkpoint_every args = T ->
  Forall frame_ok pf ->
  buffer_inv T l ->
  keeps ('(c, l) ← for_each (range start_rg (Z.of_nat (length pf)))
                            (rowgroup_body args pf start_rg) l;
         match c return Run unit with
         | Return => ret tt
         | _ => l ← flush_part args l; persist_ckpt args l (Z.of_nat (length pf)) 0
         end)
        (fun _ => True).
Proof.
  intros HT Hpf Hl.
  eapply keeps_bind.
  { apply (keeps_for_each (buffer_inv T)).
    - intros rg st Hst. now apply keeps_rowgroup_body.
    - exact Hl. }
  intros [c l1] [Hle Hlt]. cbn in Hle, Hlt.
  assert (Htail : keeps (l ← flush_part args l1;
                         persist_ckpt args l (Z.of_nat (length pf)) 0) (fun _ => True)).
  { eapply keeps_bind; [apply keeps_flush_part; lia|]. intros l2 _.
    apply keeps_persist_ckpt. }
  destruct c; [exact Htail | exact Htail | now apply keeps_ret].
Qed.

End Invariant.

(** Code that leaves the whole world as it is. *)
Definition world_free {A} (c : Run A) : Prop := forall w, snd (c w) = w.

Lemma wf_ret {A} (a : A) : world_free (ret (S := World) a).
Proof. intros w. reflexivity. Qed.

Lemma wf_raise {A} (e : exn) : world_free (raise (S := World) (A := A) e).
Proof. intros w. reflexivity. Qed.

Lemma wf_lift {A} (r : result A) : world_free (lift (S := World) r).
Proof. destruct r; [apply wf_ret | apply wf_raise]. Qed.

Lemma wf_gets {A} (f : World -> A) : world_free (gets f).
Proof. intros w. reflexivity. Qed.

Lemma wf_bind {A B} (c : Run A) (k : A -> Run B) :
  world_free c -> (forall a, world_free (k a)) -> world_free (c ≫= k).
Proof.
  intros Hc Hk w. change (c ≫= k) with (bind c k). unfold bind.
  specialize (Hc w). destruct (c w) as [[a|e|] w1]; cbn in *; subst;
    [apply Hk | reflexivity | reflexivity].
Qed.

Ltac wf_step :=
  match goal with
  | |- world_free (_ ≫= _) => apply wf_bind; [|intros]
  | |- world_free (ret _) => apply wf_ret
  | |- world_free (raise _) => apply wf_raise
  | |- world_free (lift _) => apply wf_lift
  | |- world_free (gets _) => apply wf_gets
  | |- world_free (if ?b then _ else _) => destruct b
  | |- world_free (match ?x with _ => _ end) => destruct x
  end.

Lemma wf_default_checkpoint_path (args : Args) : world_free (default_checkpoint_path args).
Proof. unfold default_checkpoint_path. repeat wf_step. Qed.

Lemma wf_read_local (key : string) : world_free (read_local key).
Proof. intros w. unfold read_local. now destruct (local_files w !! key). Qed.

Lemma wf_read_gcs (key : string) : world_free (read_gcs key).
Proof. intros w. unfold read_gcs. now destruct (gcs_objects w !! key). Qed.

Lemma wf_open_parquet (args : Args) : world_free (open_parquet args).
Proof.
  unfold open_parquet.
  repeat first [apply wf_read_local | apply wf_read_gcs | wf_step].
Qed.

Lemma wf_ckpt_int (doc : jdoc) (k : string) : world_free (ckpt_int doc k).
Proof. unfold ckpt_int. repeat wf_step. Qed.

Lemma sf_load_checkpoint (path : string) : storage_free (load_checkpoint path).
Proof.
  unfold load_checkpoint, checkpoint_exists.
  assert (Hl : forall k, storage_free (read_local k)).
  { intros k w. now rewrite wf_read_local. }
  assert (Hg : forall k, storage_free (read_gcs k)).
  { intros k w. now rewrite wf_read_gcs. }
  repeat first [apply sf_gcs_exists | apply sf_local_exists | apply Hl | apply Hg
               | apply sf_bind; [|intros] | apply sf_ret | apply sf_lift | apply sf_gets
               | apply sf_emit | apply sf_try_except; [|intros]
               | match goal with
                 | |- storage_free (if ?b then _ else _) => destruct b
                 | |- storage_free (match ?x with _ => _ end) => destruct x
                 end].
Qed.

(** Running [c ≫= k] from the outcome of [c]. *)
Lemma mbind_ret {A B} (c : Run A) (k : A -> Run B) (w w1 : World) (a : A) :
  c w = (Ret a, w1) -> (c ≫= k) w = k a w1.
Proof. intros H. change (c ≫= k) with (bind c k). unfold bind. now rewrite H. Qed.

Lemma mbind_exc {A B} (c : Run A) (k : A -> Run B) (w w1 : World) (e : exn) :
  c w = (Exc e, w1) -> (c ≫= k) w = (Exc e, w1).
Proof. intros H. change (c ≫= k) with (bind c k). unfold bind. now rewrite H. Qed.

Lemma mbind_killed {A B} (c : Run A) (k : A -> Run B) (w w1 : World) :
  c w = (Killed, w1) -> (c ≫= k) w = (Killed, w1).
Proof. intros H. change (c ≫= k) with (bind c k). unfold bind. now rewrite H. Qed.

(** Every object in [w] was already in [w0], or is within the threshold. *)
Definition kept_or_ok (T : Z) (w0 w : World) : Prop :=
  (forall k f, local_files w !! k = Some f ->
               local_files w0 !! k = Some f \/ part_ok T f)
  /\ (forall k f, gcs_objects w !! k = Some f ->
                  gcs_objects w0 !! k = Some f \/ part_ok T f).

Lemma kept_or_ok_refl (T : Z) (w : World) : kept_or_ok T w w.
Proof. split; intros k f H; now left. Qed.

Lemma kept_or_ok_frame (T : Z) (w0 w w' : World) :
  local_files w' = local_files w -> gcs_objects w' = gcs_objects w ->
  kept_or_ok T w0 w -> kept_or_ok T w0 w'.
Proof. intros Hl Hg [H1 H2]. split; intros k f; rewrite ?Hl, ?Hg; auto. Qed.

Lemma kept_or_ok_store (T : Z) (w0 : World) (pl : place) (f : fdata) (w : World) :
  part_ok T f -> kept_or_ok T w0 w -> kept_or_ok T w0 (store_at pl f w).
Proof.
  intros Hf [H1 H2]. destruct pl as [p|key]; split; cbn; intros k f'; auto.
  - destruct (decide (p = k)) as [->|Hne].
    + rewrite lookup_insert_eq. intros [= <-]. now right.
    + rewrite lookup_insert_ne by exact Hne. auto.
  - destruct (decide (key = k)) as [->|Hne].
    + rewrite lookup_insert_eq. intros [= <-]. now right.
    + rewrite lookup_insert_ne by exact Hne. auto.
Qed.

(** [main] writes within the threshold. *)
Lemma main_kept_or_ok (args : Args) (w : World) :
  1 <= checkpoint_every args ->
  (forall z, loaded_ok_in_part args w = Ret z -> 0 <= z) ->
  (forall pf, fst (open_parquet args w) = Ret pf -> Forall frame_ok pf) ->
  kept_or_ok (checkpoint_every args) w (snd (main args w)).
Proof.
  intros HT Hload Hpf. set (T := checkpoint_every args) in *.
  unfold main.
  (* the checkpoint path *)
  destruct (default_checkpoint_path args w) as [o1 w1] eqn:H1.
  assert (w1 = w) by (pose proof (wf_default_checkpoint_path args w) as E;
                      now rewrite H1 in E). subst w1.
  destruct o1 as [path|e|];
    [rewrite (mbind_ret _ _ _ _ _ H1)
    |rewrite (mbind_exc _ _ _ _ _ H1); apply kept_or_ok_refl
    |rewrite (mbind_killed _ _ _ _ H1); apply kept_or_ok_refl].
  cbv zeta. set (args' := with_checkpoint_path args path).
  (* the input *)
  change (open_parquet args') with (open_parquet args).
  destruct (open_parquet args w) as [o2 w2] eqn:H2.
  assert (w2 = w) by (pose proof (wf_open_parquet args w) as E; now rewrite H2 in E).
  subst w2.
  destruct o2 as [pf|e|];
    [rewrite (mbind_ret _ _ _ _ _ H2)
    |rewrite (mbind_exc _ _ _ _ _ H2); apply kept_or_ok_refl
    |rewrite (mbind_killed _ _ _ _ H2); apply kept_or_ok_refl].
  assert (Hframes : Forall frame_ok pf)
    by (apply Hpf; first [reflexivity | now rewrite H2]).
  (* the checkpoint *)
  change (checkpoint_path args') with path.
  destruct (load_checkpoint path w) as [o3 w3] eqn:H3.
  assert (Hw3 : kept_or_ok T w w3).
  { destruct (sf_load_checkpoint path w) as [Hl Hg]. rewrite H3 in Hl, Hg.
    apply (kept_or_ok_frame T w w); auto using kept_or_ok_refl. }
  destruct o3 as [loaded|e|];
    [rewrite (mbind_ret _ _ _ _ _ H3)
    |rewrite (mbind_exc _ _ _ _ _ H3); exact Hw3
    |rewrite (mbind_killed _ _ _ _ H3); exact Hw3].
  (* the counters *)
  assert (Hok : forall z, fst (ckpt_int (or_empty loaded) "ok_in_part" w3) = Ret z -> 0 <= z).
  { intros z Hz. apply Hload. unfold loaded_ok_in_part.
    rewrite (mbind_ret _ _ _ _ _ H1), (mbind_ret _ _ _ _ _ H3). exact Hz. }
  set (doc := or_empty loaded) in *.
  assert (Hstep : forall (k : string) (rest : Z -> Run unit),
             (forall z, fst (ckpt_int doc k w3) = Ret z -> kept_or_ok T w (snd (rest z w3))) ->
             kept_or_ok T w (snd ((ckpt_int doc k ≫= rest) w3))).
  { intros k rest Hrest.
    destruct (ckpt_int doc k w3) as [o w4] eqn:Hk.
    assert (w4 = w3) by (pose proof (wf_ckpt_int doc k w3) as E; now rewrite Hk in E).
    subst w4.
    destruct o as [z|e|];
      [rewrite (mbind_ret _ _ _ _ _ Hk); now apply Hrest
      |rewrite (mbind_exc _ _ _ _ _ Hk); exact Hw3
      |rewrite (mbind_killed _ _ _ _ Hk); exact Hw3]. }
  apply Hstep. intros start_rg _.
  apply Hstep. intros start_i _.
  apply Hstep. intros out_part _.
  apply Hstep. intros ok_in_part Hok_in_part.
  apply Hstep. intros total_seen _.
  apply Hstep. intros total_ok _.
  cbv zeta.
  apply (keeps_main_loop T HT (kept_or_ok T w) (kept_or_ok_frame T w)
                         (kept_or_ok_store T w)); auto.
  split; cbn; [apply Hok, Hok_in_part | lia].
Qed.


Lemma uninterrupted_part_1 :
  local_files uninterrupted !! "/out/part-000001.parquet"
  = Some (PartFile [ok_record ["Filename"; "Form Type"] second_row
                      (Some "https://www.sec.gov/Archives/edgar/data/861439/0000912057-94-000263.txt")
                      "<html/>" "<html/>"]).
Proof. vm_compute. reflexivity. Qed.

Lemma two_rows_start : loaded_ok_in_part example_args two_rows = Ret 0.
Proof. vm_compute. reflexivity. Qed.

Lemma two_rows_input :
  fst (open_parquet example_args two_rows) = Ret [[example_row; second_row]].
Proof. vm_compute. reflexivity. Qed.


End FetchSpec.

(* ================================================================== *)
(** * Properties of the quarter-merge manifest                         *)
(* ================================================================== *)

Module PartitionSpec.
Import Partition.

Ltac run_unfold :=
  unfold mbind, mret, mthrow, M_bind, M_ret, M_throw,
         bind, ret, raise, lift, gets, modify, try_except in *.

(** [in_prefix[:-1]] when the prefix ends with a slash. *)
Definition trim_prefix (in_prefix : string) : string :=
  if PyStr.endswith "/" in_prefix
  then substring 0 (String.length in_prefix - 1) in_prefix
  else in_prefix.

(** What [list_gcs_parquets] returns. *)
Definition listing (bucket prefix : string) (w : World) : list string :=
  merge_sort str_le
    (map (fun path => "gs://" +:+ path)
         (List.filter (PyStr.endswith ".parquet")
                      (files_under (bucket +:+ "/" +:+ prefix) w))).

Lemma list_gcs_parquets_eq (bucket prefix : string) (w : World) :
  list_gcs_parquets bucket prefix w = (Ret (listing bucket prefix w), w).
Proof. reflexivity. Qed.

Lemma listing_NoDup (bucket prefix : string) (w : World) :
  NoDup (listing bucket prefix w).
Proof.
  unfold listing. rewrite merge_sort_Permutation.
  apply (NoDup_fmap_2 (fun path => "gs://" +:+ path)).
  apply NoDup_ListNoDup, List.NoDup_filter.
  unfold files_under. apply List.NoDup_filter, NoDup_ListNoDup.
  apply NoDup_fst_map_to_list.
Qed.

(** A filter that exactly one member of a duplicate-free list passes. *)
Lemma filter_single (p : string -> bool) (l : list string) (b : string) :
  NoDup l -> b ∈ l -> (forall f, f ∈ l -> (p f = true <-> f = b)) ->
  List.filter p l = [b].
Proof.
  induction l as [|x l IH]; intros Hnd Hin Hp.
  - inversion Hin.
  - apply NoDup_cons in Hnd as [Hx Hnd]. cbn [List.filter].
    destruct (decide (x = b)) as [->|Hne].
    + assert (Hb : p b = true) by (apply Hp; [left | reflexivity]).
      rewrite Hb. f_equal.
      assert (Hnone : forall l', (forall f, f ∈ l' -> p f = false) -> List.filter p l' = []).
      { induction l' as [|y l' IH']; intros H; [reflexivity|].
        cbn. rewrite (H y) by left. apply IH'. intros f Hf. apply H. now right. }
      apply Hnone. intros f Hf.
      destruct (p f) eqn:Hpf; [|reflexivity].
      exfalso. apply Hx. assert (f = b) as -> by (apply Hp; [now right | exact Hpf]).
      exact Hf.
    + assert (Hpx : p x = false).
      { destruct (p x) eqn:Hpx; [|reflexivity].
        exfalso. apply Hne. apply Hp; [left | exact Hpx]. }
      rewrite Hpx. apply IH; [exact Hnd | |].
      * apply elem_of_cons in Hin as [->|Hin]; [congruence | exact Hin].
      * intros f Hf. apply Hp. now right.
Qed.

Lemma manifest_inputs_snoc (ls : list line) (xs : list string) (f now : string) :
  manifest_inputs ls = Ok xs ->
  manifest_inputs (ls ++ [JsonLine (manifest_record f now)]) = Ok (xs ++ [f]).
Proof.
  revert xs. induction ls as [|[obj|s] ls IH]; intros xs H; cbn in *.
  - injection H as <-. reflexivity.
  - destruct (obj !! "input_file") as [v|]; [|discriminate].
    destruct (manifest_inputs ls) as [fs|e]; [|discriminate].
    rewrite (IH fs eq_refl). injection H as <-. now destruct v.
  - destruct (String.eqb (PyStr.strip s) ""); [|discriminate]. now apply IH.
Qed.

Lemma append_longer (s t : string) : String.length (s +:+ t) = (String.length s + String.length t)%nat.
Proof. induction s as [|c s IH]; simpl; [reflexivity | now rewrite IH]. Qed.

Lemma tmp_differs (s : string) : s +:+ ".tmp" <> s.
Proof.
  intros H. pose proof (append_longer s ".tmp") as E. rewrite H in E.
  cbn in E. lia.
Qed.

Lemma differs_tmp (s : string) : s <> s +:+ ".tmp".
Proof. intros H. symmetry in H. revert H. apply tmp_differs. Qed.

Lemma batches_single (n : Z) (b : string) : 1 <= n -> batches n [b] = Ok [[b]].
Proof.
  intros Hn. unfold batches.
  destruct (n =? 0) eqn:H0; [lia|]. destruct (n <? 0) eqn:Hneg; [lia|].
  cbn [length]. replace (1 + Z.to_nat n - 1)%nat with (Z.to_nat n) by lia.
  rewrite Nat.div_same by lia. cbn.
  destruct (Z.to_nat n) as [|k] eqn:Hk; [lia|]. now destruct k.
Qed.

Lemma pass_step {A B} (c : Run A) (k : A -> Run B) (w w1 : World) (a : A) :
  c w = (Ret a, w1) -> (c ≫= k) w = k a w1.
Proof. intros H. change (c ≫= k) with (bind c k). unfold bind. now rewrite H. Qed.

Lemma read_manifest_eq (uri mb mp : string) (ls : list line) (xs : list string) (w : World) :
  split_gcs_uri uri = Ok (mb, mp) ->
  objects w !! (mb +:+ "/" +:+ mp) = Some (Lines ls) ->
  manifest_inputs ls = Ok xs ->
  read_manifest uri w = (Ret (list_to_set xs), w).
Proof.
  intros Hsplit Hobj Hin. unfold read_manifest, read_lines. run_unfold.
  rewrite Hsplit. cbn. rewrite Hobj, Hin. reflexivity.
Qed.

(** The store after [append_manifest]: the temporary object written, the
    old manifest deleted, the temporary object moved into its place. *)
Definition replaced (target : string) (new_lines : list line)
           (m : gmap string odata) : gmap string odata :=
  <[target := Lines new_lines]>
    (delete (target +:+ ".tmp")
       (delete target (<[target +:+ ".tmp" := Lines new_lines]> m))).

Lemma replaced_lookup (target : string) (new_lines : list line) (m : gmap string odata) :
  replaced target new_lines m !! target = Some (Lines new_lines).
Proof. unfold replaced. apply lookup_insert_eq. Qed.

Lemma append_manifest_eq
      (uri mb mp : string) (ls : list line) (records : list dict) (w : World) :
  split_gcs_uri uri = Ok (mb, mp) ->
  objects w !! (mb +:+ "/" +:+ mp) = Some (Lines ls) ->
  write_fault w ((mb +:+ "/" +:+ mp) +:+ ".tmp") = None ->
  records <> [] ->
  append_manifest uri records w
  = (Ret tt, set_objects (replaced (mb +:+ "/" +:+ mp) (ls ++ map JsonLine records)) w).
Proof.
  intros Hsplit Hobj Hfault Hrec.
  unfold append_manifest, read_lines, write_object, is_file, move. run_unfold.
  rewrite Hsplit. cbn. rewrite Hobj.
  set (target := mb +:+ "/" +:+ mp) in *.
  rewrite Hfault.
  assert (Htext : text_of_lines (ls ++ map JsonLine records) = Lines (ls ++ map JsonLine records)).
  { unfold text_of_lines. destruct (ls ++ map JsonLine records) eqn:E; [|reflexivity].
    apply app_eq_nil in E as [_ E]. destruct records; [congruence | discriminate]. }
  rewrite Htext. unfold set_objects. cbn.
  rewrite lookup_insert_ne by first [apply tmp_differs | apply differs_tmp].
  rewrite Hobj. rewrite bool_decide_eq_true_2 by eauto. cbn.
  rewrite lookup_delete_ne by first [apply tmp_differs | apply differs_tmp].
  rewrite lookup_insert_eq. reflexivity.
Qed.

Section Rerun.
Variables (args : Args) (A B mb mp : string) (ls : list line).
Hypothesis A_not_B : A <> B.
Hypothesis manifest_uri : split_gcs_uri (manifest args) = Ok (mb, mp).
Hypothesis manifest_holds_A : manifest_inputs ls = Ok [A].
Hypothesis batch_size : 1 <= batch_files args.
Hypothesis single_pass : sleep_seconds args <= 0.

(** The manifest after the rerun. *)
Definition manifest_after (now : string) : list line :=
  ls ++ [JsonLine (manifest_record B now)].

(** The world after the pass: [B] merged, the manifest replaced. *)
Definition after_pass (v : World) : World :=
  set_objects (replaced (mb +:+ "/" +:+ mp) (manifest_after (utc_now_iso v)))
              (set_merged (fun m => m ++ [[B]]) v).

Lemma new_files_only_B (all_files : list string) :
  NoDup all_files ->
  (forall f, f ∈ all_files <-> f = A \/ f = B) ->
  List.filter (fun f => negb (bool_decide (f ∈ (list_to_set [A] : gset string)))) all_files
  = [B].
Proof.
  intros Hnd Hall. apply filter_single; [exact Hnd | apply Hall; now right |].
  intros f Hf. apply Hall in Hf. rewrite negb_true_iff, bool_decide_eq_false.
  rewrite elem_of_list_to_set, list_elem_of_singleton.
  split; [intros Hne; destruct Hf; [contradiction | assumption] | congruence].
Qed.

Lemma pass_rerun (ib ip : string) (v : World) :
  objects v !! (mb +:+ "/" +:+ mp) = Some (Lines ls) ->
  (forall f, f ∈ listing ib ip v <-> f = A \/ f = B) ->
  batch_fault v [B] = None ->
  write_fault v ((mb +:+ "/" +:+ mp) +:+ ".tmp") = None ->
  pass args ib ip v = (Ret false, after_pass v).
Proof.
  intros Hobj Hall Hbatch Hwrite. unfold pass.
  rewrite (pass_step _ _ _ _ _ (read_manifest_eq _ _ _ _ _ v manifest_uri Hobj manifest_holds_A)).
  rewrite (pass_step _ _ _ _ _ (list_gcs_parquets_eq ib ip v)).
  rewrite (new_files_only_B _ (listing_NoDup ib ip v) Hall).
  rewrite (batches_single _ B batch_size).
  change (lift (Ok [[B]])) with (ret (S := World) [[B]]).
  erewrite pass_step by reflexivity.
  assert (Hfor : for_batches args [[B]] v = (Ret tt, after_pass v)).
  { cbn [for_batches].
    assert (Hproc : process_and_merge [B] v = (Ret tt, set_merged (fun m => m ++ [[B]]) v)).
    { unfold process_and_merge. now rewrite Hbatch. }
    change (process_and_merge [B];; ?k) with (process_and_merge [B] ≫= fun _ => k).
    rewrite (pass_step _ _ _ _ _ Hproc).
    erewrite pass_step by reflexivity.
    change (append_manifest ?u ?r;; ?k) with (append_manifest u r ≫= fun _ => k).
    erewrite pass_step.
    2:{ apply (append_manifest_eq _ mb mp ls); [exact manifest_uri | exact Hobj
                                                | exact Hwrite | discriminate]. }
    reflexivity. }
  change (for_batches args [[B]];; ?k) with (for_batches args [[B]] ≫= fun _ => k).
  rewrite (pass_step _ _ _ _ _ Hfor).
  destruct (0 <? sleep_seconds args) eqn:Hs; [lia | reflexivity].
Qed.

End Rerun.


Definition rerun_args : Args :=
  mkArgs "gs://bucket/parts" "gs://bucket/quarter" "gs://bucket/manifest.jsonl"
         250 0 "/tmp/quarter_index.lock".

Definition file_A : string := "gs://bucket/parts/a.parquet".
Definition file_B : string := "gs://bucket/parts/b.parquet".

(** The bucket before the rerun: both input files, and a manifest with
    the record of [A]. *)
Definition before_rerun : World :=
  mkWorld
    (<["bucket/manifest.jsonl" :=
         Lines [JsonLine (manifest_record file_A "2024-01-01T00:00:00+00:00")]]>
     (<["bucket/parts/b.parquet" := Binary]>
      (<["bucket/parts/a.parquet" := Binary]> ∅)))
    (fun _ => None) (fun _ => None) "2024-01-02T00:00:00+00:00" ∅ [] 0.

Lemma before_rerun_listing :
  listing "bucket" "parts" before_rerun = [file_A; file_B].
Proof. vm_compute. reflexivity. Qed.


End PartitionSpec.

(* ================================================================== *)
(** * Further properties: strings, paths and part names                *)
(* ================================================================== *)

Module PathFacts.
Import Fetch.

Lemma prefix_split (p s : string) :
  String.prefix p s = true -> exists r, s = p +:+ r.
Proof.
  revert s. induction p as [|a p IH]; intros s H.
  - exists s. reflexivity.
  - destruct s as [|b s]; [discriminate|]. cbn in H.
    destruct (ascii_dec a b) as [->|]; [|discriminate].
    destruct (IH s H) as [r ->]. now exists r.
Qed.

Lemma prefix_append (p r : string) : String.prefix p (p +:+ r) = true.
Proof.
  induction p as [|a p IH]; simpl; [now destruct r|].
  destruct (ascii_dec a a); [exact IH | congruence].
Qed.

(** [c in s] for a single character. *)
Definition has_char (c : ascii) (s : string) : bool := PyStr.contains (String c "") s.

Lemma has_char_cons (c a : ascii) (s : string) :
  has_char c (String a s) = Ascii.eqb a c || has_char c s.
Proof.
  unfold has_char. cbn. destruct (ascii_dec c a) as [->|Hne].
  - rewrite Ascii.eqb_refl. now destruct s.
  - assert (Ascii.eqb a c = false) as -> by (apply Ascii.eqb_neq; congruence).
    reflexivity.
Qed.

(** [s.split(c, 1)]: the whole string when [c] does not occur, else the
    text before the first [c] and the text after it. *)
Lemma split1_spec (c : ascii) (s : string) :
  (PyStr.split1 c s = [s] /\ has_char c s = false)
  \/ (exists a b, PyStr.split1 c s = [a; b] /\ s = a +:+ String c b
                  /\ has_char c a = false).
Proof.
  induction s as [|x s IH].
  - left. split; reflexivity.
  - cbn [PyStr.split1]. rewrite has_char_cons.
    destruct (Ascii.eqb x c) eqn:Hx.
    + right. apply Ascii.eqb_eq in Hx as ->. exists "", s. repeat split.
    + destruct IH as [[-> Hno] | (a & b & -> & -> & Hno)].
      * left. split; [reflexivity | exact Hno].
      * right. exists (String x a), b. repeat split.
        rewrite has_char_cons, Hx. exact Hno.
Qed.

Lemma lower_keeps_scheme (s : string) :
  PyStr.startswith "gs://" s = true -> PyStr.startswith "gs://" (PyStr.lower s) = true.
Proof.
  unfold PyStr.startswith. intros H. apply prefix_split in H as [r ->].
  apply (prefix_append "gs://" (PyStr.lower r)).
Qed.

(** X1.  What [parse_gcs_url] returns.  When it returns [(bucket, key)],
    [is_gcs_path] agrees that the path is a bucket URL, the bucket holds no
    slash, and the stripped URL is [gs://bucket/key], or [gs://bucket] with
    an empty key: bucket and key put together give the URL back. *)
Theorem X1_parse_gcs_url_parts (gs_url bucket key : string) :
  parse_gcs_url gs_url = Ok (bucket, key) ->
  is_gcs_path gs_url = true
  /\ has_char "/" bucket = false
  /\ (PyStr.strip gs_url = "gs://" +:+ bucket +:+ "/" +:+ key
      \/ (key = "" /\ PyStr.strip gs_url = "gs://" +:+ bucket)).
Proof.
  intros H. unfold parse_gcs_url, is_gcs_path in *.
  destruct (PyStr.startswith "gs://" (PyStr.strip gs_url)) eqn:Hscheme; [|discriminate].
  cbn [negb] in H.
  split; [now apply lower_keeps_scheme|].
  apply prefix_split in Hscheme as [rest Hrest]. rewrite Hrest in *.
  change (PyStr.drop 5 ("gs://" +:+ rest)) with rest in H.
  destruct (split1_spec "/" rest) as [[Hs Hno] | (a & b & Hs & -> & Hno)];
    rewrite Hs in H; cbn in H; injection H as <- <-.
  - split; [exact Hno|]. right. split; reflexivity.
  - split; [exact Hno|]. left. reflexivity.
Qed.

Lemma X1_parse_gcs_url_parts_witness :
  is_gcs_path "  gs://my-bucket/out/run 1  " = true
  /\ has_char "/" "my-bucket" = false.
Proof.
  destruct (X1_parse_gcs_url_parts "  gs://my-bucket/out/run 1  " "my-bucket" "out/run 1")
    as (H1 & H2 & _); [reflexivity|].
  split; assumption.
Defined.


(** ** Lines of text *)

Fixpoint all_chars (p : ascii -> bool) (s : string) : bool :=
  match s with
  | EmptyString => true
  | String c r => p c && all_chars p r
  end.

Definition no_break (s : string) : bool :=
  all_chars (fun c => negb (PyStr.is_linebreak c)) s.

Lemma rev_app_append (s t u : string) :
  String.rev_app s (t +:+ u) = String.rev_app s t +:+ u.
Proof.
  revert t. induction s as [|a s IH]; intros t; [reflexivity|].
  apply (IH (String a t)).
Qed.

Lemma rev_app_rev_app (s t u : string) :
  String.rev_app (String.rev_app s t) u = String.rev_app t (s +:+ u).
Proof.
  revert t u. induction s as [|a s IH]; intros t u; [reflexivity|].
  cbn [String.rev_app]. rewrite IH. reflexivity.
Qed.

Lemma append_empty_r (s : string) : s +:+ "" = s.
Proof.
  induction s as [|a s IH]; [reflexivity|].
  change (String a (s +:+ "") = String a s). now rewrite IH.
Qed.

Lemma rev_rev (s : string) : String.rev (String.rev s) = s.
Proof. unfold String.rev. rewrite rev_app_rev_app. exact (append_empty_r s). Qed.

Lemma all_chars_rev_app (p : ascii -> bool) (s t : string) :
  all_chars p (String.rev_app s t) = all_chars p s && all_chars p t.
Proof.
  revert t. induction s as [|a s IH]; intros t; [reflexivity|].
  cbn [String.rev_app all_chars]. rewrite IH. cbn [all_chars].
  destruct (p a), (all_chars p s); reflexivity.
Qed.

Lemma all_chars_lstrip (p q : ascii -> bool) (s : string) :
  all_chars p s = true -> all_chars p (PyStr.lstrip_by q s) = true.
Proof.
  induction s as [|a s IH]; intros H; [reflexivity|].
  cbn [PyStr.lstrip_by]. destruct (q a); [|exact H].
  cbn in H. apply andb_prop in H as [_ H]. now apply IH.
Qed.

Lemma all_chars_rstrip (p q : ascii -> bool) (s : string) :
  all_chars p s = true -> all_chars p (PyStr.rstrip_by q s) = true.
Proof.
  induction s as [|a s IH]; intros H; [reflexivity|].
  cbn in H. apply andb_prop in H as [Ha H]. specialize (IH H).
  cbn [PyStr.rstrip_by]. destruct (PyStr.rstrip_by q s) as [|b r].
  - destruct (q a); [reflexivity|]. cbn. now rewrite Ha.
  - cbn [all_chars] in *. now rewrite Ha.
Qed.

(** The text left to read after the line boundary [c]. *)
Definition after_break (c : ascii) (r : string) : string :=
  match c, r with
  | "013"%char, String "010"%char r' => r'
  | _, _ => r
  end.

Lemma splitlines_acc_break (cur : option string) (c : ascii) (r : string) :
  PyStr.is_linebreak c = true ->
  PyStr.splitlines_acc cur (String c r)
  = String.rev (default "" cur) :: PyStr.splitlines_acc None (after_break c r).
Proof.
  intros H. cbn [PyStr.splitlines_acc]. rewrite H. clear H.
  destruct c as [[] [] [] [] [] [] [] []]; try reflexivity.
  destruct r as [|[[] [] [] [] [] [] [] []] r]; reflexivity.
Qed.

Lemma after_break_cases (c : ascii) (r : string) :
  after_break c r = r \/ r = String "010" (after_break c r).
Proof.
  destruct c as [[] [] [] [] [] [] [] []]; try (left; reflexivity).
  destruct r as [|[[] [] [] [] [] [] [] []] r]; try (left; reflexivity).
  right. reflexivity.
Qed.


Lemma splitlines_acc_no_break (s : string) (cur : option string) :
  no_break (default "" cur) = true ->
  Forall (fun l => no_break l = true) (PyStr.splitlines_acc cur s).
Proof.
  revert cur. induction s as [|c r IH]; intros cur Hcur.
  - destruct cur as [l|]; cbn; [|constructor].
    constructor; [|constructor].
    unfold no_break, String.rev in *. rewrite all_chars_rev_app. cbn in Hcur.
    now rewrite Hcur.
  - destruct (PyStr.is_linebreak c) eqn:Hc.
    + rewrite splitlines_acc_break by exact Hc. constructor.
      * unfold no_break, String.rev in *. rewrite all_chars_rev_app.
        now rewrite Hcur.
      * specialize (IH None eq_refl).
        destruct (after_break_cases c r) as [-> | Hr]; [exact IH|].
        rewrite Hr in IH. rewrite splitlines_acc_break in IH by reflexivity.
        change (after_break "010" (after_break c r)) with (after_break c r) in IH.
        now inversion IH.
    + cbn [PyStr.splitlines_acc]. rewrite Hc. apply IH.
      cbn. unfold no_break in *. cbn. now rewrite Hc, Hcur.
Qed.

(** Reading a piece of text that holds no line boundary. *)
Lemma splitlines_acc_line (l rest : string) (cur : option string) :
  l <> "" -> no_break l = true ->
  PyStr.splitlines_acc cur (l +:+ rest)
  = PyStr.splitlines_acc (Some (String.rev_app l (default "" cur))) rest.
Proof.
  revert cur. induction l as [|c l IH]; intros cur Hne Hl; [congruence|].
  unfold no_break in Hl. cbn in Hl. apply andb_prop in Hl as [Hc Hl].
  apply negb_true_iff in Hc.
  change (String c l +:+ rest) with (String c (l +:+ rest)).
  cbn [PyStr.splitlines_acc]. rewrite Hc.
  destruct l as [|c' l']; [reflexivity|].
  rewrite IH by (try discriminate; exact Hl). reflexivity.
Qed.

(** Joining lines with a newline and splitting again gives the lines
    back, when none is empty or holds a line boundary. *)
Lemma splitlines_join (ls : list string) :
  Forall (fun l => l <> "" /\ no_break l = true) ls ->
  PyStr.splitlines (PyStr.join newline ls) = ls.
Proof.
  unfold PyStr.splitlines, PyStr.join.
  induction ls as [|l ls IH]; intros H; [reflexivity|].
  inversion H as [|? ? [Hne Hl] Hrest]; subst.
  destruct ls as [|l2 ls].
  - cbn [String.concat]. rewrite <- (append_empty_r l) at 1.
    rewrite splitlines_acc_line by assumption.
    cbn [PyStr.splitlines_acc default].
    change (String.rev_app l "") with (String.rev l). now rewrite rev_rev.
  - change (String.concat newline (l :: l2 :: ls))
      with (l +:+ newline +:+ String.concat newline (l2 :: ls)).
    rewrite splitlines_acc_line by assumption.
    change (newline +:+ ?t) with (String "010" t).
    rewrite splitlines_acc_break by reflexivity.
    change (after_break "010" ?t) with t.
    change (default "" (Some (String.rev_app l (default "" None))))
      with (String.rev l).
    rewrite rev_rev. f_equal. apply IH, Hrest.
Qed.

(** ** [str.strip] *)

Lemma lstrip_head (p : ascii -> bool) (s : string) :
  PyStr.lstrip_by p s = ""
  \/ exists c r, PyStr.lstrip_by p s = String c r /\ p c = false.
Proof.
  induction s as [|a s IH]; [now left|].
  cbn [PyStr.lstrip_by]. destruct (p a) eqn:Ha; [exact IH|].
  right. now exists a, s.
Qed.

Lemma rstrip_idem (p : ascii -> bool) (s : string) :
  PyStr.rstrip_by p (PyStr.rstrip_by p s) = PyStr.rstrip_by p s.
Proof.
  induction s as [|a s IH]; [reflexivity|].
  cbn [PyStr.rstrip_by]. destruct (PyStr.rstrip_by p s) as [|b r] eqn:E.
  - destruct (p a) eqn:Ha; [reflexivity|]. cbn. now rewrite Ha.
  - cbn [PyStr.rstrip_by] in *. now rewrite IH.
Qed.

Lemma rstrip_head (p : ascii -> bool) (c : ascii) (r : string) :
  p c = false -> exists r', PyStr.rstrip_by p (String c r) = String c r'.
Proof.
  intros Hc. cbn [PyStr.rstrip_by]. destruct (PyStr.rstrip_by p r) as [|b r'].
  - rewrite Hc. now exists "".
  - now exists (String b r').
Qed.

Lemma strip_by_idem (p : ascii -> bool) (s : string) :
  let t := PyStr.rstrip_by p (PyStr.lstrip_by p s) in
  PyStr.rstrip_by p (PyStr.lstrip_by p t) = t.
Proof.
  cbn zeta. destruct (lstrip_head p s) as [-> | (c & r & -> & Hc)]; [reflexivity|].
  destruct (rstrip_head p c r Hc) as [r' E].
  rewrite E at 1. cbn [PyStr.lstrip_by]. rewrite Hc, <- E. apply rstrip_idem.
Qed.

Lemma strip_idem (s : string) : PyStr.strip (PyStr.strip s) = PyStr.strip s.
Proof. apply strip_by_idem. Qed.

Lemma no_break_strip (s : string) : no_break s = true -> no_break (PyStr.strip s) = true.
Proof. intros H. apply all_chars_rstrip, all_chars_lstrip, H. Qed.

(** The lines [clean_filing_html] keeps. *)
Definition kept_lines (raw : string) : list string :=
  map PyStr.strip
      (List.filter (fun line => negb (String.eqb (PyStr.strip line) ""))
                   (PyStr.splitlines raw)).

Lemma kept_lines_ok (raw : string) :
  Forall (fun l => (l <> "" /\ no_break l = true) /\ PyStr.strip l = l) (kept_lines raw).
Proof.
  unfold kept_lines. apply List.Forall_forall. intros l Hl.
  apply List.in_map_iff in Hl as (x & <- & Hx).
  apply List.filter_In in Hx as [Hx Hne].
  apply negb_true_iff, String.eqb_neq in Hne.
  split; [split; [exact Hne|] | apply strip_idem].
  apply no_break_strip.
  pose proof (splitlines_acc_no_break raw None eq_refl) as Hall.
  rewrite List.Forall_forall in Hall. apply Hall, Hx.
Qed.


Definition two_paragraphs : string :=
  "  Item 1.  " +:+ newline +:+ "   " +:+ newline +:+ "Business" +:+ String "013" newline.

Definition reader : World :=
  mkWorld (fun _ => Err (Exn "ConnectionError" "offline")) (fun _ => Ok None)
          (fun _ => Ok two_paragraphs) (fun p => p) (fun _ => None) 0 ∅ ∅ [] [] None.


(** ** Part names *)

Lemma append_cancel_l (p x y : string) : p +:+ x = p +:+ y -> x = y.
Proof.
  induction p as [|a p IH]; intros H; [exact H|].
  apply IH. now injection H.
Qed.

Lemma append_length (s t : string) :
  String.length (s +:+ t) = (String.length s + String.length t)%nat.
Proof.
  induction s as [|c s IH]; [reflexivity|].
  change (S (String.length (s +:+ t)) = S (String.length s + String.length t)).
  now rewrite IH.
Qed.

Lemma append_cancel_r (s x y : string) : x +:+ s = y +:+ s -> x = y.
Proof.
  intros H.
  assert (Hlen : String.length x = String.length y).
  { apply (f_equal String.length) in H. rewrite !append_length in H. lia. }
  revert y H Hlen. induction x as [|a x IH]; intros [|b y] H Hlen;
    try reflexivity; try discriminate.
  injection H as -> H. f_equal. apply IH; [exact H|]. now injection Hlen.
Qed.

(** [k] zeros, as [f"{n:06d}"] puts them before the digits. *)
Definition zeros (k : nat) : string := String.concat "" (repeat "0"%string k).

Lemma zeros_S (k : nat) (s : string) : zeros (S k) +:+ s = String "0" (zeros k +:+ s).
Proof. destruct k; reflexivity. Qed.

(** The number that a string of digits behind an optional minus sign
    denotes. *)
Definition number (s : string) : option Z :=
  option_map Z.of_int (NilEmpty.int_of_string s).

Lemma uint_zeros (k : nat) (s : string) (d : Decimal.uint) :
  NilEmpty.uint_of_string s = Some d ->
  exists d', NilEmpty.uint_of_string (zeros k +:+ s) = Some d'
             /\ Z.of_uint d' = Z.of_uint d.
Proof.
  intros H. induction k as [|k (d' & Hd' & Hval)].
  - exists d. split; [exact H | reflexivity].
  - exists (Decimal.D0 d'). rewrite zeros_S. split; [|exact Hval].
    cbn [NilEmpty.uint_of_string]. now rewrite Hd'.
Qed.

Lemma int_of_digits (s : string) (d : Decimal.uint) :
  NilEmpty.uint_of_string s = Some d -> NilEmpty.int_of_string s = Some (Decimal.Pos d).
Proof.
  destruct s as [|a s]; intros H.
  - injection H as <-. reflexivity.
  - unfold NilEmpty.int_of_string. destruct (Ascii.eqb a "-") eqn:Ha.
    + apply Ascii.eqb_eq in Ha as ->. cbn in H.
      destruct (NilEmpty.uint_of_string s); discriminate.
    + now rewrite H.
Qed.

Lemma digits_of_abs (z : Z) :
  exists u, PyStr.of_Z (Z.abs z) = NilEmpty.string_of_uint u /\ Z.of_uint u = Z.abs z.
Proof.
  assert (Hpos : forall p, exists u,
             PyStr.of_Z (Z.pos p) = NilEmpty.string_of_uint u /\ Z.of_uint u = Z.pos p).
  { intros p. exists (Pos.to_uint p).
    pose proof (DecimalZ.of_to (Z.pos p)) as Hval. cbn in Hval.
    split; [|exact Hval].
    unfold PyStr.of_Z. cbn. destruct (Pos.to_uint p); try reflexivity.
    discriminate. }
  destruct z as [|p|p]; [|apply Hpos|apply Hpos].
  exists (Decimal.D0 Decimal.Nil). split; reflexivity.
Qed.

(** Reading the six-digit field back gives the number. *)
Lemma number_pad6 (z : Z) : number (PyStr.pad6 z) = Some z.
Proof.
  unfold PyStr.pad6. destruct (digits_of_abs z) as (u & -> & Hu).
  set (k := (6 - _ - _)%nat). fold (zeros k).
  destruct (uint_zeros k _ u (NilEmpty.usu u)) as (d' & Hd' & Hval).
  unfold number. destruct (z <? 0) eqn:Hz.
  - change ("-" +:+ zeros k +:+ ?t) with (String "-" (zeros k +:+ t)).
    cbn [NilEmpty.int_of_string Ascii.eqb Bool.eqb]. rewrite Hd'. cbn.
    rewrite Hval, Hu. f_equal. lia.
  - change ("" +:+ zeros k +:+ ?t) with (zeros k +:+ t).
    rewrite (int_of_digits _ _ Hd'). cbn. rewrite Hval, Hu. f_equal. lia.
Qed.

Lemma pad6_inj (i j : Z) : PyStr.pad6 i = PyStr.pad6 j -> i = j.
Proof.
  intros H. apply (f_equal number) in H. rewrite !number_pad6 in H. congruence.
Qed.

Lemma append_assoc (a b c : string) : (a +:+ b) +:+ c = a +:+ b +:+ c.
Proof.
  induction a as [|x a IH]; [reflexivity|].
  change (String x ((a +:+ b) +:+ c) = String x (a +:+ b +:+ c)). now rewrite IH.
Qed.

(** What [part_url] returns: the name of the part behind a folder that
    does not depend on the index, and that the default checkpoint path
    shares. *)
Lemma output_folder (args : Args) (i : Z) (w w1 : World) (a : string) :
  part_url args i w = (Ret a, w1) ->
  exists folder,
    (forall j, part_url args j w
               = (Ret (folder +:+ "part-" +:+ PyStr.pad6 j +:+ ".parquet"), w))
    /\ (checkpoint_path args = "" ->
        default_checkpoint_path args w = (Ret (folder +:+ "_checkpoint.json"), w)).
Proof.
  unfold part_url, default_checkpoint_path. intros H.
  destruct (is_gcs_path (output_prefix args)).
  - destruct (parse_gcs_url (output_prefix args)) as [[b pref]|e]; [|discriminate].
    exists ("gs://" +:+ b +:+ "/" +:+ PyStr.strip_char "/" pref +:+ "/").
    split; [intros j | intros ->]; cbn; rewrite !append_assoc; reflexivity.
  - exists (if PyStr.endswith "/" (resolve w (output_prefix args))
            then resolve w (output_prefix args)
            else resolve w (output_prefix args) +:+ "/").
    split; [intros j | intros ->];
      unfold mbind, M_bind, bind, gets, ret, path_join; cbn;
      destruct (PyStr.endswith "/" _); rewrite ?append_assoc; reflexivity.
Qed.

(** X3.  Part names are distinct: two part indices that differ give two
    different part URLs under the same output prefix, whatever the
    indices are (negative ones included), so that a run never writes two
    of its parts to one name. *)
Theorem X3_part_names_distinct
        (args : Args) (i j : Z) (w w1 w2 : World) (a b : string) :
  part_url args i w = (Ret a, w1) ->
  part_url args j w = (Ret b, w2) ->
  i <> j ->
  a <> b.
Proof.
  intros Hi Hj Hne Hab. apply Hne.
  destruct (output_folder args i w w1 a Hi) as (folder & Hall & _).
  rewrite Hall in Hi, Hj. injection Hi as <-. injection Hj as <-.
  apply append_cancel_l, append_cancel_l, append_cancel_r in Hab.
  now apply pad6_inj.
Qed.

Definition local_args : Args :=
  mkArgs "/in.parquet" "/out" "ua@example.org" 2 200 0 0 false "" 50.

Lemma X3_part_names_distinct_witness :
  "/out/part-000007.parquet" <> "/out/part--00001.parquet".
Proof.
  apply (X3_part_names_distinct local_args 7 (-1) reader reader reader);
    [reflexivity | reflexivity | discriminate].
Defined.

(** X4.  With no [--checkpoint-path] given, the checkpoint is stored in
    the output folder under a name that no part has: no flush overwrites
    the checkpoint, and no checkpoint overwrites a part. *)
Theorem X4_default_checkpoint_is_no_part
        (args : Args) (i : Z) (w w1 w2 : World) (c a : string) :
  checkpoint_path args = "" ->
  default_checkpoint_path args w = (Ret c, w1) ->
  part_url args i w = (Ret a, w2) ->
  c <> a.
Proof.
  intros Hdefault Hc Ha Hca.
  destruct (output_folder args i w w2 a Ha) as (folder & Hall & Hckpt).
  rewrite (Hckpt Hdefault) in Hc. rewrite Hall in Ha.
  injection Hc as <-. injection Ha as <-.
  apply append_cancel_l in Hca. discriminate.
Qed.

Definition bucket_args : Args :=
  mkArgs "gs://data/in.parquet" "gs://data/out/" "ua@example.org" 2 200 0 0 false "" 50.

Lemma X4_default_checkpoint_is_no_part_witness :
  "gs://data/out/_checkpoint.json" <> "gs://data/out/part-000000.parquet".
Proof.
  apply (X4_default_checkpoint_is_no_part bucket_args 0 reader reader reader);
    reflexivity.
Defined.

End PathFacts.

(* ================================================================== *)
(** * Further properties of the batch fetcher                          *)
(* ================================================================== *)

Module FetchMore.
Import Fetch FetchSpec.

(** ** The form-type filter *)

(** A cell that the filter accepts: not missing, and reading [10-K] or
    [10-K/A] once stripped and put in upper case. *)
Definition is_tenk_cell (v : pyval) : Prop :=
  v <> PyNone
  /\ (PyStr.upper (PyStr.strip (py_str v)) = "10-K"
      \/ PyStr.upper (PyStr.strip (py_str v)) = "10-K/A").

Lemma isin_tenk_normalize (v : pyval) :
  isin_tenk (normalize_form_type v) = true <-> is_tenk_cell v.
Proof.
  unfold is_tenk_cell, isin_tenk, normalize_form_type, TENK_FORMS.
  assert (Hstr : forall s : string,
             existsb (String.eqb s) ["10-K"; "10-K/A"]%string = true
             <-> s = "10-K"%string \/ s = "10-K/A"%string).
  { intros s. cbn [existsb]. rewrite !orb_true_iff, !String.eqb_eq.
    intuition discriminate. }
  destruct v; try (rewrite Hstr; intuition congruence).
  split; [discriminate | intros [H _]; congruence].
Qed.

Lemma series_get_set (row : Series) (k : string) (f : pyval -> pyval) (d : pyval) :
  f d = d -> series_get (series_set row k f) k d = f (series_get row k d).
Proof.
  intros Hd. induction row as [|[c v] row IH]; [cbn; congruence|].
  cbn. destruct (String.eqb c k) eqn:Hc; cbn; now rewrite Hc.
Qed.


Definition lower_case_row : Series :=
  [("Form Type", PyStr " 10-k/a "); ("Filename", PyStr "edgar/data/1/a.txt")].

Definition two_forms : DataFrame :=
  [lower_case_row; [("Form Type", PyStr "8-K"); ("Filename", PyNone)]].


(** ** The result records *)

Lemma add_columns_lookup (cols : list string) (row : Series) (rec : dict) (col : string) :
  List.NoDup (map column_key cols) ->
  In col cols ->
  add_columns cols row rec !! column_key col = Some (series_get row col PyNone).
Proof.
  unfold add_columns. revert rec.
  induction cols as [|c cols IH]; intros rec Hnd Hin; [contradiction|].
  inversion Hnd as [|? ? Hc Hrest]; subst. cbn [fold_left].
  destruct Hin as [->|Hin]; [|now apply IH].
  fold (add_columns cols row (<[column_key col := series_get row col PyNone]> rec)).
  rewrite add_columns_other; [apply lookup_insert_eq|].
  apply List.Forall_forall. intros c' Hc' Heq. apply Hc.
  rewrite <- Heq. now apply List.in_map.
Qed.

(** The four fields that the loop puts into a record before the columns
    of the row. *)
Definition result_fields (status url text cleaned : pyval) : dict :=
  <["cleaned_text" := cleaned]>
  (<["filing_text" := text]>
  (<["filing_url" := url]>
  (<["status" := status]> ∅))).

(** X6.  What a Fetch Result record holds, for columns whose keys (lower
    case, spaces as underscores) are distinct: every column of the input
    row under its key, with the value of the row, even under a key that a
    result field also uses (the column then replaces the field); any other
    key as the result fields have it: the status, the URL, the filing text
    and the cleaned text, the last two [None] in a failure record. *)
Theorem X6_record_holds_row_and_result
        (cols : list string) (row : Series) (url status : option string)
        (html_text cleaned : string) :
  List.NoDup (map column_key cols) ->
  (forall col, In col cols ->
     ok_record cols row url html_text cleaned !! column_key col
     = Some (series_get row col PyNone)
     /\ fail_record cols row url status !! column_key col
        = Some (series_get row col PyNone))
  /\ (forall k, ~ In k (map column_key cols) ->
        ok_record cols row url html_text cleaned !! k
        = result_fields (PyStr "✅ Success") (opt_str url)
                        (PyStr html_text) (PyStr cleaned) !! k
        /\ fail_record cols row url status !! k
           = result_fields (opt_str status) (opt_str url) PyNone PyNone !! k).
Proof.
  intros Hnd. split.
  - intros col Hin. split; now apply add_columns_lookup.
  - intros k Hk.
    assert (Hother : Forall (fun col => column_key col <> k) cols).
    { apply List.Forall_forall. intros col Hin Heq. apply Hk.
      rewrite <- Heq. now apply List.in_map. }
    split; now apply add_columns_other.
Qed.

Definition index_columns : list string := ["CIK"; "Form Type"; "Status"].

Definition index_row : Series :=
  [("CIK", PyInt 320193); ("Form Type", PyStr "10-K"); ("Status", PyStr "filed")].

Lemma X6_record_holds_row_and_result_witness :
  ok_record index_columns index_row None "<html/>" "" !! "form_type" = Some (PyStr "10-K")
  /\ ok_record index_columns index_row None "<html/>" "" !! "status" = Some (PyStr "filed")
  /\ fail_record index_columns index_row None None !! "filing_text" = Some PyNone.
Proof.
  assert (Hnd : List.NoDup (map column_key index_columns)).
  { repeat constructor; cbn; intuition discriminate. }
  destruct (X6_record_holds_row_and_result index_columns index_row None None
              "<html/>" "" Hnd) as [Hcols Hrest].
  split; [|split].
  - apply (Hcols "Form Type"). cbn. tauto.
  - apply (Hcols "Status"). cbn. tauto.
  - apply (Hrest "filing_text"). cbn. intuition discriminate.
Defined.

(** ** The requests of the loader *)

(** A request to the SEC site that carries the given user agent. *)
Definition sec_get (ua : string) (e : event) : Prop :=
  exists url t,
    e = EvGet url ua t
    /\ PyStr.startswith "https://www.sec.gov/" url = true
    /\ (t = 15 \/ t = 25).

(** Content is handed back only as the body of a last request that was
    answered with code 200, together with the URL of that request and a
    success status. *)
Definition delivered (w : World) (ua : string) (r : fetched) (evs : list event) : Prop :=
  forall html, snd (fst r) = Some html ->
    exists url,
      fst (fst r) = Some url
      /\ last evs = Some (EvGet url ua 25)
      /\ http w url = Ok (200, html)
      /\ (snd r = "✅ Success (direct)" \/ snd r = "✅ Success (index)").

Lemma sec_url (rest : string) :
  PyStr.startswith "https://www.sec.gov/" ("https://www.sec.gov/" +:+ rest) = true.
Proof. apply (PathFacts.prefix_append "https://www.sec.gov/" rest). Qed.

(** X7.  One call of [extract_filing_html_directly] makes at most two
    requests; each goes to a URL under [https://www.sec.gov/] and carries
    the given user agent, with a timeout of 15 or 25 seconds, whatever the
    row and the index page say; and content comes back only from a last
    request answered with code 200, with the URL of that request and a
    success status. *)
Theorem X7_requests_go_to_sec (row : Series) (ua : string) (w : World) :
  exists (r : fetched) (evs : list event),
    extract_filing_html_directly row ua w = (Ret r, log (EvCall row :: evs) w)
    /\ (length evs <= 2)%nat
    /\ Forall (sec_get ua) evs
    /\ delivered w ua r evs.
Proof.
  unfold extract_filing_html_directly, extract_filing_html_body.
  set (filename := PyStr.replace_char " " "" _).
  set (handler := fun e : exn => ret (None, None, "⚠️ Exception: " +:+ exn_text e)).
  set (w1 := log [EvCall row] w).
  assert (Hh : http w1 = http w) by reflexivity.
  assert (Ht : table_hrefs w1 = table_hrefs w) by reflexivity.
  assert (Hfin : forall (r : fetched) (evs : list event) (c : Run fetched),
             try_except c handler w1 = (Ret r, log evs w1) ->
             (length evs <= 2)%nat -> Forall (sec_get ua) evs -> delivered w ua r evs ->
             exists (r : fetched) (evs : list event),
               (emit (EvCall row);; try_except c handler) w
               = (Ret r, log (EvCall row :: evs) w)
               /\ (length evs <= 2)%nat /\ Forall (sec_get ua) evs
               /\ delivered w ua r evs).
  { intros r evs c Hrun Hlen Hall Hdel. exists r, evs.
    split; [|auto]. run_unfold. unfold emit. run_unfold. cbn.
    fold (log [EvCall row] w). fold w1. unfold try_except in Hrun.
    rewrite Hrun. unfold w1. now rewrite log_log. }
  clearbody w1.
  assert (Hnone : forall (u : option string) (s : string) (evs : list event),
             delivered w ua (u, None, s) evs)
    by (intros u s evs html H; discriminate).
  assert (Hget1 : forall url t, PyStr.startswith "https://www.sec.gov/" url = true ->
             t = 15 \/ t = 25 -> Forall (sec_get ua) [EvGet url ua t]).
  { intros url t Hurl Htime. constructor; [|constructor]. now exists url, t. }
  destruct (String.eqb filename "").
  { eapply (Hfin _ []); [subst handler; now rewrite log_nil | cbn; lia | constructor
                        | apply Hnone]. }
  destruct (has_document_suffix (PyStr.lower filename)).
  { set (url := "https://www.sec.gov/Archives/" +:+ _).
    assert (Hurl : PyStr.startswith "https://www.sec.gov/" url = true)
      by exact (sec_url ("Archives/" +:+ _)).
    destruct (http w url) as [[code text]|e] eqn:Hget.
    - destruct (negb (code =? 200)) eqn:Hcode;
        (eapply (Hfin _ [EvGet url ua 25]);
         [subst handler; run_unfold; rewrite http_get_run, Hh, Hget, Hcode; reflexivity
         | cbn; lia | apply Hget1; auto | ]); [apply Hnone|].
      intros html [= <-]. exists url.
      apply negb_false_iff, Z.eqb_eq in Hcode as ->. auto.
    - eapply (Hfin _ [EvGet url ua 25]);
        [subst handler; run_unfold; rewrite http_get_run, Hh, Hget; reflexivity
        | cbn; lia | apply Hget1; auto | apply Hnone]. }
  set (parts := PyStr.split "/" filename).
  destruct (length parts <? 4)%nat.
  { eapply (Hfin _ []); [subst handler; now rewrite log_nil | cbn; lia | constructor
                        | apply Hnone]. }
  set (index_url := "https://www.sec.gov/Archives/edgar/data/" +:+ _).
  assert (Hindex : Forall (sec_get ua) [EvGet index_url ua 15])
    by (apply Hget1; [exact (sec_url ("Archives/edgar/data/" +:+ _)) | auto]).
  destruct (http w index_url) as [[code text]|e] eqn:Hget.
  2:{ eapply (Hfin _ [EvGet index_url ua 15]);
        [subst handler; run_unfold; rewrite http_get_run, Hh, Hget; reflexivity
        | cbn; lia | exact Hindex | apply Hnone]. }
  destruct (negb (code =? 200)) eqn:Hcode.
  { eapply (Hfin _ [EvGet index_url ua 15]);
      [subst handler; run_unfold; rewrite http_get_run, Hh, Hget, Hcode; reflexivity
      | cbn; lia | exact Hindex | apply Hnone]. }
  destruct (table_hrefs w text) as [[hrefs|]|e] eqn:Htab.
  3:{ eapply (Hfin _ [EvGet index_url ua 15]);
        [subst handler; run_unfold;
         rewrite http_get_run, Hh, Hget, Hcode; cbn; rewrite Ht, Htab; reflexivity
        | cbn; lia | exact Hindex | apply Hnone]. }
  2:{ eapply (Hfin _ [EvGet index_url ua 15]);
        [subst handler; run_unfold;
         rewrite http_get_run, Hh, Hget, Hcode; cbn; rewrite Ht, Htab; reflexivity
        | cbn; lia | exact Hindex | apply Hnone]. }
  destruct (List.find is_primary_href hrefs) as [link|] eqn:Hfind.
  2:{ eapply (Hfin _ [EvGet index_url ua 15]);
        [subst handler; run_unfold;
         rewrite http_get_run, Hh, Hget, Hcode; cbn; rewrite Ht, Htab; cbn;
         rewrite Hfind; reflexivity
        | cbn; lia | exact Hindex | apply Hnone]. }
  set (filing_url := "https://www.sec.gov/" +:+ PyStr.lstrip_char "/" (default "" link)).
  assert (Hboth : Forall (sec_get ua) [EvGet index_url ua 15; EvGet filing_url ua 25]).
  { inversion Hindex; subst. constructor; [assumption|]. apply Hget1; [apply sec_url | auto]. }
  destruct (http w filing_url) as [[fcode ftext]|e] eqn:Hget2.
  - destruct (negb (fcode =? 200)) eqn:Hfcode;
      (eapply (Hfin _ [EvGet index_url ua 15; EvGet filing_url ua 25]);
       [subst handler; run_unfold;
        rewrite http_get_run, Hh, Hget, Hcode; cbn; rewrite Ht, Htab; cbn;
        rewrite Hfind; fold filing_url; rewrite http_get_run; cbn;
        rewrite Hh, Hget2, Hfcode; now rewrite log_log
       | cbn; lia | exact Hboth | ]); [apply Hnone|].
    intros html [= <-]. exists filing_url.
    apply negb_false_iff, Z.eqb_eq in Hfcode as ->. auto.
  - eapply (Hfin _ [EvGet index_url ua 15; EvGet filing_url ua 25]);
      [subst handler; run_unfold;
       rewrite http_get_run, Hh, Hget, Hcode; cbn; rewrite Ht, Htab; cbn;
       rewrite Hfind; fold filing_url; rewrite http_get_run; cbn;
       rewrite Hh, Hget2; now rewrite log_log
      | cbn; lia | exact Hboth | apply Hnone].
Qed.

(** ** Rows that are never fetched *)

(** The filename the loader reads from a row. *)
Definition filename_of (row : Series) : string :=
  PyStr.replace_char " " ""
    (PyStr.strip (py_str (series_get row "Filename" (PyStr "")))).

Definition missing_filename : fetched := (None, None, "❌ Missing or invalid Filename").

Lemma extract_missing_filename (row : Series) (ua : string) (v : World) :
  filename_of row = "" ->
  extract_filing_html_directly row ua v = (Ret missing_filename, log [EvCall row] v).
Proof.
  unfold filename_of. intros H.
  unfold extract_filing_html_directly, extract_filing_html_body. rewrite H.
  reflexivity.
Qed.

(** X8.  A row without a filename (no [Filename] column, or a cell that
    is blank once stripped and freed of spaces) is never requested from
    the network, and yet goes through the whole retry loop: every attempt
    is the call alone followed by the two-second pause, and the loop ends
    with the [Missing or invalid Filename] status. *)
Theorem X8_missing_filename_is_retried_offline
        (row : Series) (ua : string) (n : nat) (cur : attempt) (w : World) :
  filename_of row = "" ->
  retry_loop n row ua cur w
  = (Ret (match n with O => cur | S _ => attempt_of missing_filename end),
     log (failed_attempts [EvCall row] n) w).
Proof.
  intros H.
  apply (retry_loop_failing row ua w missing_filename [EvCall row]).
  - intros v _. now apply extract_missing_filename.
  - reflexivity.
  - apply same_oracles_refl.
Qed.

Lemma X8_missing_filename_is_retried_offline_witness :
  snd (retry_loop 2 [("Form Type", PyStr "10-K")] "ua@example.org" (None, None, None) blank)
  = log [EvCall [("Form Type", PyStr "10-K")]; EvSleep (Some 2);
         EvCall [("Form Type", PyStr "10-K")]; EvSleep (Some 2)] blank.
Proof.
  rewrite (X8_missing_filename_is_retried_offline
             [("Form Type", PyStr "10-K")] "ua@example.org" 2 (None, None, None) blank
             eq_refl).
  reflexivity.
Defined.

(** What [persist_ckpt] adds to the trace: nothing, or one warning. *)
Lemma persisted_trace (args : Args) (l : Locals) (a b : Z) (w : World) :
  trace (persisted args l a b w) = trace w
  \/ exists msg, trace (persisted args l a b w) = trace w ++ [EvWarn msg].
Proof.
  unfold persisted, save_outcome.
  rewrite (json_dumps_ok _ (encodable_stamped _ _ (encodable_checkpoint_state l a b))).
  destruct (checkpoint_place _ _) as [pl|e].
  - destruct (write_fault _ pl) as [e|].
    + right. eexists. reflexivity.
    + left. now destruct pl.
  - right. eexists. reflexivity.
Qed.

(** X9.  With a retry limit of zero or less the retry loop makes no
    attempt: the row is not fetched, whatever the network would answer,
    and goes into the buffer as a failure record whose status and URL are
    [None]; the trace gains at most the warning of a failed periodic
    checkpoint. *)
Theorem X9_no_attempt_without_retry_limit
        (args : Args) (rg i : Z) (df : DataFrame) (row : Series)
        (l : Locals) (w : World) :
  retry_limit args <= 0 ->
  max_filings args = 0 \/ total_seen l + 1 <= max_filings args ->
  0 <= i ->
  df !! Z.to_nat i = Some row ->
  exists l' w',
    row_body args rg df i l w = (Ret (Next, l'), w')
    /\ buffer l' = buffer l ++ [fail_record (df_columns df) row None None]
    /\ total_seen l' = total_seen l + 1
    /\ total_ok l' = total_ok l
    /\ (trace w' = trace w \/ exists msg, trace w' = trace w ++ [EvWarn msg]).
Proof.
  intros Hlimit Hmax Hi Hrow. unfold row_body.
  replace (negb (max_filings args =? 0) && (max_filings args <? total_seen (enter_row l i)))
    with false.
  2:{ symmetry. cbn. destruct Hmax as [-> | Hmax]; [reflexivity|].
      apply andb_false_iff. right. lia. }
  run_unfold. rewrite (iloc_at _ _ _ _ Hi Hrow).
  replace (Z.to_nat (retry_limit args)) with 0%nat by lia.
  cbn [retry_loop ret has_content negb].
  rewrite periodic_ckpt_eq.
  destruct (_ <=? _).
  - eexists _, _. split; [reflexivity|]. repeat split. apply persisted_trace.
  - eexists _, _. split; [reflexivity|]. repeat split. now left.
Qed.

Definition no_retry_args : Args :=
  mkArgs "/in.parquet" "/out" "ua@example.org" 0 200 0 0 false "/out/_checkpoint.json" 50.

Lemma X9_no_attempt_without_retry_limit_witness :
  exists l' w',
    row_body no_retry_args 0 [example_row] 0 zero_locals blank = (Ret (Next, l'), w')
    /\ buffer l' = [fail_record ["Filename"; "Form Type"] example_row None None].
Proof.
  destruct (X9_no_attempt_without_retry_limit no_retry_args 0 0 [example_row] example_row
              zero_locals blank) as (l' & w' & Hrun & Hbuf & _).
  - cbn. lia.
  - now left.
  - lia.
  - reflexivity.
  - exists l', w'. split; [exact Hrun | exact Hbuf].
Defined.

(** ** Flushing a part *)

(** The world after [persist_ckpt], when the checkpoint is stored. *)
Definition heap_after (st : dict) (w : World) : World :=
  set_heap (fun h => (h ++ [st]) ++ [stamped st w]) w.

Lemma persisted_stored (args : Args) (l : Locals) (a b : Z) (w : World) (cp : place) :
  checkpoint_place (checkpoint_path args) w = Ok cp ->
  write_fault w cp = None ->
  persisted args l a b w
  = store_at cp (JsonText (JObject (stamped (checkpoint_state l a b) w)))
             (heap_after (checkpoint_state l a b) w).
Proof.
  intros Hcp Hwf. unfold persisted, save_outcome.
  rewrite (json_dumps_ok _ (encodable_stamped _ _ (encodable_checkpoint_state l a b))).
  change (checkpoint_place (checkpoint_path args) (set_heap _ w))
    with (checkpoint_place (checkpoint_path args) w).
  rewrite Hcp. cbn [write_fault set_heap]. rewrite Hwf. now destruct cp.
Qed.

(** What a flush with a non-empty buffer does, once the part URL names an
    object. *)
Definition flushed (args : Args) (l : Locals) (pl : place) (w : World)
  : outcome Locals * World :=
  if skip_if_exists args && bool_decide (is_Some (lookup_at pl w))
  then (Ret (next_part l), w)
  else
    match write_fault w pl with
    | Some e => (Exc e, w)
    | None =>
        let w2 := persisted args (next_part l) (current_rowgroup l) (current_row_index l)
                            (store_at pl (PartFile (buffer l)) w) in
        match kill_after w with
        | None => (Ret (next_part l), w2)
        | Some O => (Killed, w2)
        | Some (S n) => (Ret (next_part l), set_kill (Some n) w2)
        end
    end.

Lemma skip_gcs_eq (skip : bool) (out : string) (pl : place) (w : World) :
  checkpoint_place out w = Ok pl ->
  (if skip && is_gcs_path out then gcs_exists out else ret false) w
  = (Ret (skip && is_gcs_path out && bool_decide (is_Some (lookup_at pl w))), w).
Proof.
  unfold checkpoint_place. intros Hpl.
  destruct skip; [|reflexivity]. destruct (is_gcs_path out); [|reflexivity].
  destruct (parse_gcs_url out) as [[b k]|e] eqn:Hparse; [|discriminate].
  injection Hpl as <-. unfold gcs_exists. rewrite Hparse. reflexivity.
Qed.

Lemma skip_local_eq (skip : bool) (out : string) (pl : place) (w : World) :
  checkpoint_place out w = Ok pl ->
  (if skip && negb (is_gcs_path out) then local_exists out else ret false) w
  = (Ret (skip && negb (is_gcs_path out) && bool_decide (is_Some (lookup_at pl w))), w).
Proof.
  unfold checkpoint_place. intros Hpl.
  destruct skip; [|reflexivity]. destruct (is_gcs_path out); [reflexivity|].
  injection Hpl as <-. reflexivity.
Qed.

Lemma write_part_eq (records : list dict) (out : string) (pl : place) (w : World) :
  checkpoint_place out w = Ok pl ->
  (if is_gcs_path out then write_part_gcs records out
   else write_part_local records out) w
  = match write_fault w pl with
    | Some e => (Exc e, w)
    | None => (Ret tt, store_at pl (PartFile records) w)
    end.
Proof.
  unfold checkpoint_place. intros Hpl. destruct (is_gcs_path out).
  - destruct (parse_gcs_url out) as [[b k]|e] eqn:Hparse; [|discriminate].
    injection Hpl as <-. unfold write_part_gcs, write_gcs. rewrite Hparse. reflexivity.
  - injection Hpl as <-. reflexivity.
Qed.

Lemma kill_point_eq (l : Locals) (w0 w1 : World) :
  kill_after w1 = kill_after w0 ->
  (kill_point;; ret l) w1
  = match kill_after w0 with
    | None => (Ret l, w1)
    | Some O => (Killed, w1)
    | Some (S n) => (Ret l, set_kill (Some n) w1)
    end.
Proof.
  intros Hk. unfold kill_point. run_unfold. rewrite Hk.
  destruct (kill_after w0) as [[|n]|]; reflexivity.
Qed.

Lemma flush_part_eq (args : Args) (l : Locals) (out : string) (pl : place) (w : World) :
  buffer l <> [] ->
  part_url args (out_part l) w = (Ret out, w) ->
  checkpoint_place out w = Ok pl ->
  flush_part args l w = flushed args l pl w.
Proof.
  intros Hbuf Hout Hpl. unfold flush_part, flushed.
  destruct (buffer l) as [|rec recs] eqn:Hl; [congruence|]. rewrite <- Hl. clear Hbuf.
  rewrite (mbind_ret _ _ _ _ _ Hout).
  rewrite (mbind_ret _ _ _ _ _ (skip_gcs_eq _ _ _ _ Hpl)).
  destruct (skip_if_exists args && is_gcs_path out
            && bool_decide (is_Some (lookup_at pl w))) eqn:HB1.
  { apply andb_prop in HB1 as [HB1 Hex]. apply andb_prop in HB1 as [Hs _].
    now rewrite Hs, Hex. }
  rewrite (mbind_ret _ _ _ _ _ (skip_local_eq _ _ _ _ Hpl)).
  destruct (skip_if_exists args && negb (is_gcs_path out)
            && bool_decide (is_Some (lookup_at pl w))) eqn:HB2.
  { apply andb_prop in HB2 as [HB2 Hex]. apply andb_prop in HB2 as [Hs _].
    now rewrite Hs, Hex. }
  assert (Hno : skip_if_exists args && bool_decide (is_Some (lookup_at pl w)) = false).
  { destruct (skip_if_exists args), (is_gcs_path out), (bool_decide _);
      cbn in *; congruence. }
  rewrite Hno. clear HB1 HB2 Hno.
  change (?c;; ?k) with (c ≫= fun _ => k).
  pose proof (write_part_eq (buffer l) out pl w Hpl) as Hwrite.
  destruct (write_fault w pl) as [e|].
  - now rewrite (mbind_exc _ _ _ _ _ Hwrite).
  - rewrite (mbind_ret _ _ _ _ _ Hwrite).
    rewrite (mbind_ret _ _ _ _ _ (persist_ckpt_eq _ _ _ _ _)).
    apply kill_point_eq.
    destruct (persisted_frame args (next_part l) (current_rowgroup l)
                (current_row_index l) (store_at pl (PartFile (buffer l)) w))
      as (_ & _ & _ & _ & _ & _ & Hk & _).
    rewrite Hk. now destruct pl.
Qed.

End FetchMore.

(* ================================================================== *)
(** * Flushing a part, and running again after the end                 *)
(* ================================================================== *)

Module FlushSpec.
Import Fetch FetchSpec FetchMore.

(** X10.  A flush under [--skip-if-exists] that finds an object at the
    name of the part drops the buffered results: the buffer is emptied and
    the part index moves on, but nothing is written and no checkpoint is
    saved; the world is as it was. *)
Theorem X10_flush_drops_buffer_when_part_exists
        (args : Args) (l : Locals) (out : string) (pl : place) (w : World) :
  skip_if_exists args = true ->
  buffer l <> [] ->
  part_url args (out_part l) w = (Ret out, w) ->
  checkpoint_place out w = Ok pl ->
  is_Some (lookup_at pl w) ->
  flush_part args l w = (Ret (next_part l), w)
  /\ buffer (next_part l) = []
  /\ out_part (next_part l) = out_part l + 1.
Proof.
  intros Hskip Hbuf Hout Hpl Hex.
  rewrite (flush_part_eq args l out pl w Hbuf Hout Hpl). unfold flushed.
  rewrite Hskip, bool_decide_eq_true_2 by exact Hex. repeat split.
Qed.

Definition skip_args : Args :=
  mkArgs "/in.parquet" "/out" "ua@example.org" 2 200 0 0 true "/out/_checkpoint.json" 50.

Definition one_result : Locals :=
  mkLocals 0 0 1 1 1 1 [ok_record [] [] None "<html/>" ""] 0 0.

Definition part_0_present : World :=
  set_local (insert "/out/part-000000.parquet" (PartFile [])) blank.

Lemma X10_flush_drops_buffer_when_part_exists_witness :
  flush_part skip_args one_result part_0_present
  = (Ret (next_part one_result), part_0_present).
Proof.
  refine (proj1 (X10_flush_drops_buffer_when_part_exists skip_args one_result
                   "/out/part-000000.parquet" (Local "/out/part-000000.parquet")
                   part_0_present _ _ _ _ _)).
  - reflexivity.
  - discriminate.
  - reflexivity.
  - reflexivity.
  - eexists. reflexivity.
Defined.

(** X11.  A part that cannot be written stops the flush with the error of
    the back end: unlike a failed checkpoint save, the exception reaches the
    caller; nothing is stored and no checkpoint is saved. *)
Theorem X11_part_write_failure_propagates
        (args : Args) (l : Locals) (out : string) (pl : place) (e : exn) (w : World) :
  buffer l <> [] ->
  part_url args (out_part l) w = (Ret out, w) ->
  checkpoint_place out w = Ok pl ->
  skip_if_exists args = false \/ lookup_at pl w = None ->
  write_fault w pl = Some e ->
  flush_part args l w = (Exc e, w).
Proof.
  intros Hbuf Hout Hpl Hnoskip Hfault.
  rewrite (flush_part_eq args l out pl w Hbuf Hout Hpl). unfold flushed.
  replace (skip_if_exists args && bool_decide (is_Some (lookup_at pl w))) with false.
  - now rewrite Hfault.
  - symmetry. destruct Hnoskip as [-> | ->]; [reflexivity|].
    rewrite bool_decide_eq_false_2 by (intros [? ?]; discriminate).
    apply andb_false_r.
Qed.

Definition disk_full : World :=
  mkWorld (fun _ => Ok (200, "<html/>")) (fun _ => Ok None) (fun t => Ok t)
          (fun p => p) (fun _ => Some (Exn "OSError" "No space left on device"))
          1700000000 ∅ ∅ [] [] None.

Lemma X11_part_write_failure_propagates_witness :
  flush_part skip_args one_result disk_full
  = (Exc (Exn "OSError" "No space left on device"), disk_full).
Proof.
  apply (X11_part_write_failure_propagates skip_args one_result
           "/out/part-000000.parquet" (Local "/out/part-000000.parquet")).
  - discriminate.
  - reflexivity.
  - reflexivity.
  - now right.
  - reflexivity.
Defined.

Lemma lookup_at_store_ne (q pl : place) (f : fdata) (w : World) :
  q <> pl -> lookup_at q (store_at pl f w) = lookup_at q w.
Proof.
  intros Hne. destruct q as [p|k], pl as [p'|k']; cbn; try reflexivity;
    apply lookup_insert_ne; congruence.
Qed.

(** X12.  A flush that goes through: the part object holds the buffered
    records, in the order in which they were appended; the checkpoint
    object, stored under another name, holds the index of the next part
    and a zero count of successes in it, with the position the flush was
    called at; no other object changes. *)
Theorem X12_flush_writes_part_then_checkpoint
        (args : Args) (l : Locals) (out : string) (pl cp : place) (w : World) :
  buffer l <> [] ->
  part_url args (out_part l) w = (Ret out, w) ->
  checkpoint_place out w = Ok pl ->
  skip_if_exists args = false \/ lookup_at pl w = None ->
  write_fault w pl = None ->
  checkpoint_place (checkpoint_path args) w = Ok cp ->
  cp <> pl ->
  write_fault w cp = None ->
  kill_after w = None ->
  exists (w' : World) (d : dict),
    flush_part args l w = (Ret (next_part l), w')
    /\ lookup_at pl w' = Some (PartFile (buffer l))
    /\ lookup_at cp w' = Some (JsonText (JObject d))
    /\ d !! "out_part" = Some (PyInt (out_part l + 1))
    /\ d !! "ok_in_part" = Some (PyInt 0)
    /\ d !! "rowgroup" = Some (PyInt (current_rowgroup l))
    /\ d !! "row_in_rowgroup" = Some (PyInt (current_row_index l))
    /\ (forall q, q <> pl -> q <> cp -> lookup_at q w' = lookup_at q w).
Proof.
  intros Hbuf Hout Hpl Hnoskip Hfault Hcp Hne Hcfault Hkill.
  set (st := checkpoint_state (next_part l) (current_rowgroup l) (current_row_index l)).
  set (w1 := store_at pl (PartFile (buffer l)) w).
  assert (Hcp1 : checkpoint_place (checkpoint_path args) w1 = Ok cp)
    by (rewrite <- Hcp; now destruct pl).
  assert (Hcfault1 : write_fault w1 cp = None)
    by (rewrite <- Hcfault; now destruct pl).
  pose proof (persisted_stored args (next_part l) (current_rowgroup l)
                (current_row_index l) w1 cp Hcp1 Hcfault1) as Hw2.
  fold st in Hw2.
  exists (persisted args (next_part l) (current_rowgroup l) (current_row_index l) w1),
         (stamped st w1).
  split; [|rewrite Hw2; split; [|split; [|split; [|split; [|split; [|split]]]]]].
  - rewrite (flush_part_eq args l out pl w Hbuf Hout Hpl). unfold flushed.
    replace (skip_if_exists args && bool_decide (is_Some (lookup_at pl w))) with false.
    + now rewrite Hfault, Hkill.
    + symmetry. destruct Hnoskip as [-> | ->]; [reflexivity|].
      rewrite bool_decide_eq_false_2 by (intros [? ?]; discriminate).
      apply andb_false_r.
  - rewrite lookup_at_store_ne by congruence.
    change (lookup_at pl (heap_after st w1)) with (lookup_at pl w1).
    apply lookup_at_store.
  - apply lookup_at_store.
  - reflexivity.
  - reflexivity.
  - reflexivity.
  - reflexivity.
  - intros q Hq1 Hq2. rewrite lookup_at_store_ne by exact Hq2.
    change (lookup_at q (heap_after st w1)) with (lookup_at q w1).
    now apply lookup_at_store_ne.
Qed.

Lemma X12_flush_writes_part_then_checkpoint_witness :
  exists (w' : World) (d : dict),
    flush_part skip_args one_result blank = (Ret (next_part one_result), w')
    /\ local_files w' !! "/out/part-000000.parquet" = Some (PartFile (buffer one_result))
    /\ local_files w' !! "/out/_checkpoint.json" = Some (JsonText (JObject d))
    /\ d !! "out_part" = Some (PyInt 1).
Proof.
  destruct (X12_flush_writes_part_then_checkpoint skip_args one_result
              "/out/part-000000.parquet" (Local "/out/part-000000.parquet")
              (Local "/out/_checkpoint.json") blank)
    as (w' & d & Hrun & Hpart & Hckpt & Hout & _).
  - discriminate.
  - reflexivity.
  - reflexivity.
  - now right.
  - reflexivity.
  - reflexivity.
  - discriminate.
  - reflexivity.
  - reflexivity.
  - exists w', d. repeat split; assumption.
Defined.

(** ** Running again after the end *)

(** The variables a run starts with when it finds the checkpoint that
    [persist_ckpt] wrote from [l0] at the position [rg], [ri]. *)
Definition resumed_from (l0 : Locals) (rg ri : Z) : Locals :=
  mkLocals ri (out_part l0) (ok_in_part l0) (total_seen l0) (total_ok l0) 0 [] rg ri.

Lemma ckpt_int_counter (d : dict) (k : string) (z : Z) (w : World) :
  d !! k = Some (PyInt z) -> ckpt_int (JObject d) k w = (Ret z, w).
Proof. intros H. unfold ckpt_int. now rewrite H. Qed.

Lemma checkpoint_state_fields (l : Locals) (a b : Z) :
  checkpoint_state l a b !! "rowgroup" = Some (PyInt a)
  /\ checkpoint_state l a b !! "row_in_rowgroup" = Some (PyInt b)
  /\ checkpoint_state l a b !! "out_part" = Some (PyInt (out_part l))
  /\ checkpoint_state l a b !! "ok_in_part" = Some (PyInt (ok_in_part l))
  /\ checkpoint_state l a b !! "total_seen" = Some (PyInt (total_seen l))
  /\ checkpoint_state l a b !! "total_ok" = Some (PyInt (total_ok l)).
Proof.
  unfold checkpoint_state.
  repeat split; rewrite ?lookup_insert_ne by discriminate; apply lookup_insert_eq.
Qed.

Lemma range_empty (lo hi : Z) : hi <= lo -> range lo hi = [].
Proof. intros H. unfold range. now replace (Z.to_nat (hi - lo)) with 0%nat by lia. Qed.

Lemma persisted_elsewhere
      (args : Args) (l : Locals) (a b : Z) (w : World) (cp q : place) :
  checkpoint_place (checkpoint_path args) w = Ok cp ->
  q <> cp ->
  lookup_at q (persisted args l a b w) = lookup_at q w.
Proof.
  intros Hcp Hq. unfold persisted, save_outcome.
  rewrite (json_dumps_ok _ (encodable_stamped _ _ (encodable_checkpoint_state l a b))).
  change (checkpoint_place (checkpoint_path args) (set_heap _ w))
    with (checkpoint_place (checkpoint_path args) w).
  rewrite Hcp. cbn [write_fault set_heap].
  destruct (write_fault w cp); [now destruct q|].
  cbn [snd]. rewrite lookup_at_store_ne by exact Hq. now destruct q.
Qed.

(** X13.  A run that finds a checkpoint at or past the last row group
    (the checkpoint a finished run leaves) reads no row group, calls the
    loader for no row and writes no part: it saves the checkpoint again,
    at the number of row groups and row 0 with the counters it loaded, and
    leaves every other object as it was. *)
Theorem X13_finished_run_only_saves_checkpoint
        (args : Args) (w : World) (path : string) (pf : list DataFrame)
        (cp : place) (d : dict) (l0 : Locals) (rg ri : Z) :
  default_checkpoint_path args w = (Ret path, w) ->
  open_parquet (with_checkpoint_path args path) w = (Ret pf, w) ->
  checkpoint_place path w = Ok cp ->
  lookup_at cp w = Some (JsonText (JObject d)) ->
  Forall (fun k => d !! k = checkpoint_state l0 rg ri !! k) counter_fields ->
  Z.of_nat (length pf) <= rg ->
  exists w',
    main args w = (Ret tt, w')
    /\ (forall q, q <> cp -> lookup_at q w' = lookup_at q w)
    /\ (trace w' = trace w \/ exists msg, trace w' = trace w ++ [EvWarn msg])
    /\ (write_fault w cp = None ->
        exists d',
          lookup_at cp w' = Some (JsonText (JObject d'))
          /\ d' !! "rowgroup" = Some (PyInt (Z.of_nat (length pf)))
          /\ d' !! "row_in_rowgroup" = Some (PyInt 0)
          /\ Forall (fun k => d' !! k = d !! k)
                    ["out_part"; "ok_in_part"; "total_seen"; "total_ok"]).
Proof.
  intros Hpath Hopen Hcp Hstored Hd Hdone.
  set (args' := with_checkpoint_path args path).
  set (l := resumed_from l0 rg ri).
  set (n := Z.of_nat (length pf)) in *.
  unfold counter_fields in Hd.
  destruct (checkpoint_state_fields l0 rg ri) as (F1 & F2 & F3 & F4 & F5 & F6).
  rewrite !Forall_cons, F1, F2, F3, F4, F5, F6 in Hd.
  destruct Hd as (D1 & D2 & D3 & D4 & D5 & D6 & _).
  assert (Hne : d <> ∅) by (intros ->; discriminate).
  assert (Hcp' : checkpoint_place (checkpoint_path args') w = Ok cp) by exact Hcp.
  exists (persisted args' l n 0 w).
  split; [|split; [|split]].
  - unfold main. rewrite (mbind_ret _ _ _ _ _ Hpath). cbn beta zeta. fold args'.
    rewrite (mbind_ret _ _ _ _ _ Hopen).
    assert (Hload : load_checkpoint (checkpoint_path args') w
                    = (Ret (Some (JObject d)), w)).
    { rewrite (load_checkpoint_eq _ _ _ Hcp'), Hstored. reflexivity. }
    rewrite (mbind_ret _ _ _ _ _ Hload).
    unfold or_empty. rewrite bool_decide_eq_false_2 by exact Hne.
    repeat (erewrite mbind_ret by (apply ckpt_int_counter; eassumption)).
    fold n. rewrite range_empty by exact Hdone. cbn [for_each].
    erewrite mbind_ret by reflexivity. cbn beta iota.
    erewrite mbind_ret by reflexivity.
    apply persist_ckpt_eq.
  - intros q Hq. now apply (persisted_elsewhere args' l n 0 w cp).
  - apply persisted_trace.
  - intros Hfault. rewrite (persisted_stored args' l n 0 w cp Hcp' Hfault).
    eexists. split; [apply lookup_at_store|].
    split; [reflexivity|]. split; [reflexivity|].
    destruct (checkpoint_state_fields l n 0) as (_ & _ & G3 & G4 & G5 & G6).
    repeat constructor; unfold stamped; rewrite lookup_insert_ne by discriminate;
      [rewrite D3 | rewrite D4 | rewrite D5 | rewrite D6]; assumption.
Qed.

(** A finished run over one row group: the input, and the checkpoint the
    run left. *)
Definition two_fetched : Locals := mkLocals 0 1 0 2 2 0 [] 0 0.

Definition finished : World :=
  set_local (fun _ =>
    <["/out/_checkpoint.json" := JsonText (JObject (checkpoint_state two_fetched 1 0))]>
    (<["/in.parquet" := ParquetTable [[example_row; example_row]]]> ∅)) blank.

Lemma finished_input :
  open_parquet (with_checkpoint_path skip_args "/out/_checkpoint.json") finished
  = (Ret [[example_row; example_row]], finished).
Proof. vm_compute. reflexivity. Qed.

Lemma X13_finished_run_only_saves_checkpoint_witness :
  exists w',
    main skip_args finished = (Ret tt, w')
    /\ local_files w' !! "/in.parquet" = local_files finished !! "/in.parquet".
Proof.
  destruct (X13_finished_run_only_saves_checkpoint skip_args finished
              "/out/_checkpoint.json" [[example_row; example_row]]
              (Local "/out/_checkpoint.json") (checkpoint_state two_fetched 1 0)
              two_fetched 1 0)
    as (w' & Hrun & Hother & _).
  - reflexivity.
  - exact finished_input.
  - reflexivity.
  - reflexivity.
  - repeat constructor.
  - cbn. lia.
  - exists w'. split; [exact Hrun|].
    apply (Hother (Local "/in.parquet")). discriminate.
Defined.

End FlushSpec.

(* ================================================================== *)
(** * Further properties of the quarter merge                          *)
(* ================================================================== *)

Module PartitionMore.
Import Partition PartitionSpec.

(** ** Bucket URIs *)

(** X14.  What [split_gcs_uri] returns.  The bucket holds no slash, and
    bucket and path put together give the URI back ([gs://bucket/path], or
    [gs://bucket] with an empty path); on a URI without white space around
    it, [parse_gcs_url] of the fetch script returns the same pair. *)
Theorem X14_split_gcs_uri_parts (gs_uri bucket path : string) :
  split_gcs_uri gs_uri = Ok (bucket, path) ->
  PathFacts.has_char "/" bucket = false
  /\ (gs_uri = "gs://" +:+ bucket +:+ "/" +:+ path
      \/ (path = "" /\ gs_uri = "gs://" +:+ bucket))
  /\ (PyStr.strip gs_uri = gs_uri -> Fetch.parse_gcs_url gs_uri = Ok (bucket, path)).
Proof.
  unfold split_gcs_uri, Fetch.parse_gcs_url, partition1. intros H.
  destruct (PyStr.startswith "gs://" gs_uri) eqn:Hscheme; [|discriminate].
  cbn [negb] in H.
  apply PathFacts.prefix_split in Hscheme as [rest ->].
  change (PyStr.drop 5 ("gs://" +:+ rest)) with rest in H.
  destruct (PathFacts.split1_spec "/" rest) as [[Hs Hno] | (a & b & Hs & -> & Hno)];
    rewrite Hs in H; injection H as <- <-.
  - split; [exact Hno|]. split; [right; split; reflexivity|].
    intros ->.
    change (PyStr.startswith "gs://" ("gs://" +:+ rest)) with (String.prefix "" rest).
    change (PyStr.drop 5 ("gs://" +:+ rest)) with rest.
    rewrite Hs. now destruct rest.
  - split; [exact Hno|]. split; [left; reflexivity|].
    intros ->.
    change (PyStr.drop 5 ("gs://" +:+ ?r)) with r.
    change (PyStr.startswith "gs://" ("gs://" +:+ ?r)) with (String.prefix "" r).
    rewrite Hs. now destruct a.
Qed.

Lemma X14_split_gcs_uri_parts_witness :
  Fetch.parse_gcs_url "gs://bucket/manifests/quarter.jsonl"
  = Ok ("bucket", "manifests/quarter.jsonl").
Proof.
  destruct (X14_split_gcs_uri_parts "gs://bucket/manifests/quarter.jsonl"
              "bucket" "manifests/quarter.jsonl" eq_refl) as (_ & _ & H).
  apply H. reflexivity.
Defined.

(** ** Batches *)

Lemma chunks_concat (k c : nat) (l : list string) :
  (length l <= c * k)%nat ->
  concat (map (fun j => firstn k (skipn (j * k) l)) (seq 0 c)) = l.
Proof.
  revert l. induction c as [|c IH]; intros l Hlen.
  - destruct l; [reflexivity | cbn in Hlen; lia].
  - cbn [seq map concat]. rewrite <- seq_shift, map_map.
    change (skipn (0 * k) l) with l.
    transitivity (take k l ++ drop k l); [|apply take_drop]. f_equal.
    rewrite <- (IH (drop k l)) by (rewrite length_drop; lia).
    f_equal. apply map_ext. intros j.
    rewrite drop_drop. replace (k + j * k)%nat with (S j * k)%nat by lia. reflexivity.
Qed.

Lemma chunk_size (k j : nat) (l : list string) :
  (0 < k)%nat -> (j * k < length l)%nat ->
  firstn k (skipn (j * k) l) <> [] /\ (length (firstn k (skipn (j * k) l)) <= k)%nat.
Proof.
  intros Hk Hj. split.
  - intros H. apply (f_equal length) in H.
    rewrite length_take, length_drop in H. cbn in H. lia.
  - rewrite length_take. lia.
Qed.

(** X15.  With a batch size of at least one, the batches of a pass are
    the new files cut into consecutive pieces: put end to end they give the
    list back, in order, and each batch holds at least one file and at most
    [--batch-files]. *)
Theorem X15_batches_cut_the_list (n : Z) (new_files : list string) :
  1 <= n ->
  exists bs,
    batches n new_files = Ok bs
    /\ concat bs = new_files
    /\ Forall (fun b => b <> [] /\ Z.of_nat (length b) <= n) bs.
Proof.
  intros Hn. unfold batches.
  destruct (n =? 0) eqn:H0; [lia|]. destruct (n <? 0) eqn:Hneg; [lia|].
  set (k := Z.to_nat n). set (len := length new_files).
  assert (Hk : (0 < k)%nat) by (subst k; lia).
  pose proof (Nat.div_mod_eq (len + k - 1) k) as Hdiv.
  pose proof (Nat.mod_upper_bound (len + k - 1) k ltac:(lia)) as Hmod.
  set (count := ((len + k - 1) / k)%nat) in *.
  eexists. split; [reflexivity|]. split.
  - apply chunks_concat. fold len. nia.
  - apply List.Forall_forall. intros b Hb.
    apply List.in_map_iff in Hb as (j & <- & Hj). apply List.in_seq in Hj.
    destruct (chunk_size k j new_files Hk) as [Hne Hle]; [fold len; nia|].
    split; [exact Hne|]. subst k. lia.
Qed.

Lemma X15_batches_cut_the_list_witness :
  exists bs, batches 2 ["a"; "b"; "c"]%string = Ok bs /\ concat bs = ["a"; "b"; "c"]%string.
Proof.
  destruct (X15_batches_cut_the_list 2 ["a"; "b"; "c"]%string)
    as (bs & Hbs & Hcat & _); [lia|].
  exists bs. split; assumption.
Defined.

(** ** The listing of the input prefix *)

#[local] Instance str_le_total : Total str_le.
Proof. intros a b. apply String.leb_total. Qed.


(** ** The manifest *)

(** The lines [append_manifest] finds in the manifest: none when the
    object is missing or is not text. *)
Definition existing_lines (target : string) (w : World) : list line :=
  match objects w !! target with
  | Some (Lines ls) => ls
  | _ => []
  end.

(** The files that [read_manifest] finds in the manifest: none when the
    object is missing, is not text, or holds a line that is no record. *)
Definition recorded (target : string) (w : World) : list string :=
  match manifest_inputs (existing_lines target w) with
  | Ok xs => xs
  | Err _ => []
  end.

Lemma read_manifest_recorded (uri mb mp : string) (w : World) :
  split_gcs_uri uri = Ok (mb, mp) ->
  read_manifest uri w = (Ret (list_to_set (recorded (mb +:+ "/" +:+ mp) w)), w).
Proof.
  intros Hsplit. unfold read_manifest, read_lines, recorded, existing_lines. run_unfold.
  rewrite Hsplit. cbn.
  destruct (objects w !! _) as [[ls|]|]; try reflexivity.
  destruct (manifest_inputs ls); reflexivity.
Qed.

Lemma replaced_fresh (target : string) (new_lines : list line) (m : gmap string odata) :
  <[target := Lines new_lines]>
    (delete (target +:+ ".tmp") (<[target +:+ ".tmp" := Lines new_lines]> m))
  = replaced target new_lines m.
Proof.
  unfold replaced. apply map_eq. intros k.
  destruct (decide (k = target)) as [->|Hk]; [now rewrite !lookup_insert_eq|].
  rewrite !lookup_insert_ne by congruence.
  destruct (decide (k = target +:+ ".tmp")) as [->|Hk']; [now rewrite !lookup_delete_eq|].
  now rewrite !lookup_delete_ne by congruence.
Qed.

(** [append_manifest] when the temporary object can be written. *)
Lemma append_manifest_any
      (uri mb mp : string) (records : list dict) (w : World) :
  split_gcs_uri uri = Ok (mb, mp) ->
  write_fault w ((mb +:+ "/" +:+ mp) +:+ ".tmp") = None ->
  records <> [] ->
  append_manifest uri records w
  = (Ret tt,
     set_objects (replaced (mb +:+ "/" +:+ mp)
                           (existing_lines (mb +:+ "/" +:+ mp) w ++ map JsonLine records)) w).
Proof.
  intros Hsplit Hfault Hrec.
  destruct (objects w !! (mb +:+ "/" +:+ mp)) as [[ls|]|] eqn:Hobj.
  { unfold existing_lines. rewrite Hobj.
    now apply append_manifest_eq. }
  all: unfold existing_lines; rewrite Hobj;
    unfold append_manifest, read_lines, write_object, is_file, move; run_unfold;
    rewrite Hsplit; cbn; rewrite Hobj; cbn;
    set (target := mb +:+ "/" +:+ mp) in *; rewrite Hfault;
    destruct records as [|r records]; [congruence|];
    cbn [map text_of_lines]; unfold set_objects; cbn;
    rewrite lookup_insert_ne by first [apply tmp_differs | apply differs_tmp];
    rewrite Hobj.
  - rewrite bool_decide_eq_true_2 by eauto. cbn.
    rewrite lookup_delete_ne by first [apply tmp_differs | apply differs_tmp].
    rewrite lookup_insert_eq. reflexivity.
  - rewrite bool_decide_eq_false_2 by (intros [? ?]; discriminate). cbn.
    rewrite lookup_insert_eq. do 2 f_equal.
    apply (replaced_fresh target (JsonLine r :: map JsonLine records)).
Qed.

Lemma manifest_inputs_app (ls : list line) (xs : list string) (fs : list string) (now : string) :
  manifest_inputs ls = Ok xs ->
  manifest_inputs (ls ++ map JsonLine (map (fun uri => manifest_record uri now) fs))
  = Ok (xs ++ fs).
Proof.
  revert ls xs. induction fs as [|f fs IH]; intros ls xs H.
  - cbn. now rewrite !app_nil_r.
  - cbn [map]. rewrite (cons_middle _ ls), app_assoc.
    rewrite (IH _ (xs ++ [f])); [now rewrite <- app_assoc|].
    now apply manifest_inputs_snoc.
Qed.

Lemma manifest_inputs_err (ls more : list line) (e : exn) :
  manifest_inputs ls = Err e -> exists e', manifest_inputs (ls ++ more) = Err e'.
Proof.
  induction ls as [|[obj|s] ls IH]; cbn; intros H; [discriminate| |].
  - destruct (obj !! "input_file") as [v|]; [|eauto].
    destruct (manifest_inputs ls) as [fs|e0]; [discriminate|].
    destruct (IH H) as [e' ->]. eauto.
  - destruct (String.eqb (PyStr.strip s) ""); [|eauto]. now apply IH.
Qed.

Lemma existing_lines_replaced (target : string) (new_lines : list line) (w : World) :
  existing_lines target (set_objects (replaced target new_lines) w) = new_lines.
Proof. unfold existing_lines. cbn. now rewrite replaced_lookup. Qed.

Lemma replaced_tmp (target : string) (new_lines : list line) (m : gmap string odata) :
  replaced target new_lines m !! (target +:+ ".tmp") = None.
Proof.
  unfold replaced. rewrite lookup_insert_ne by apply differs_tmp.
  apply lookup_delete_eq.
Qed.

Lemma replaced_other (target k : string) (new_lines : list line) (m : gmap string odata) :
  k <> target -> k <> target +:+ ".tmp" -> replaced target new_lines m !! k = m !! k.
Proof.
  intros Hk Hk'. unfold replaced.
  rewrite lookup_insert_ne, !lookup_delete_ne, lookup_insert_ne by congruence.
  reflexivity.
Qed.

(** The records that a pass appends for the files of its batches. *)
Definition records_of (now : string) (files : list string) : list dict :=
  map (fun uri => manifest_record uri now) files.


Definition empty_bucket : World :=
  mkWorld ∅ (fun _ => None) (fun _ => None) "2024-01-02T00:00:00+00:00" ∅ [] 0.


(** X18.  A manifest with a line that is no record (text that is not
    JSON, or an object without [input_file]) reads as the empty set, so
    that every listed file counts as new; and since [append_manifest] keeps
    the lines it finds, the manifest still reads as the empty set after
    the records of a pass were appended. *)
Theorem X18_unreadable_manifest_stays_unreadable
        (uri mb mp : string) (records : list dict) (e : exn) (w : World) :
  split_gcs_uri uri = Ok (mb, mp) ->
  manifest_inputs (existing_lines (mb +:+ "/" +:+ mp) w) = Err e ->
  write_fault w ((mb +:+ "/" +:+ mp) +:+ ".tmp") = None ->
  records <> [] ->
  read_manifest uri w = (Ret ∅, w)
  /\ exists w',
       append_manifest uri records w = (Ret tt, w')
       /\ read_manifest uri w' = (Ret ∅, w').
Proof.
  intros Hsplit Hbad Hfault Hrec.
  set (target := mb +:+ "/" +:+ mp) in *. split.
  - rewrite (read_manifest_recorded uri mb mp _ Hsplit). fold target.
    unfold recorded. now rewrite Hbad.
  - eexists. split; [now apply (append_manifest_any uri mb mp)|].
    rewrite (read_manifest_recorded uri mb mp _ Hsplit). fold target.
    unfold recorded. rewrite existing_lines_replaced.
    destruct (manifest_inputs_err _ (map JsonLine records) e Hbad) as [e' ->].
    reflexivity.
Qed.

(** A manifest whose second line was cut short. *)
Definition torn_manifest : World :=
  mkWorld
    (<["bucket/manifest.jsonl" :=
         Lines [JsonLine (manifest_record file_A "2024-01-01T00:00:00+00:00");
                TextLine "{'input_fi"]]> ∅)
    (fun _ => None) (fun _ => None) "2024-01-02T00:00:00+00:00" ∅ [] 0.

Lemma X18_unreadable_manifest_stays_unreadable_witness :
  read_manifest "gs://bucket/manifest.jsonl" torn_manifest = (Ret ∅, torn_manifest).
Proof.
  refine (proj1 (X18_unreadable_manifest_stays_unreadable
                   "gs://bucket/manifest.jsonl" "bucket" "manifest.jsonl"
                   (records_of "2024-01-02T00:00:00+00:00" [file_B])
                   (Exn "JSONDecodeError" "Expecting value") torn_manifest _ _ _ _)).
  - reflexivity.
  - reflexivity.
  - reflexivity.
  - discriminate.
Defined.

(** ** The batches of a pass *)

(** [w'] is [w] after the batches [bs] were merged and recorded. *)
Definition advanced (target : string) (bs : list (list string)) (w w' : World) : Prop :=
  merged w' = merged w ++ bs
  /\ existing_lines target w'
     = existing_lines target w ++ map JsonLine (records_of (utc_now_iso w) (concat bs))
  /\ write_fault w' = write_fault w
  /\ batch_fault w' = batch_fault w
  /\ utc_now_iso w' = utc_now_iso w
  /\ lock_files w' = lock_files w
  /\ slept w' = slept w
  /\ forall k, k <> target -> k <> target +:+ ".tmp" -> objects w' !! k = objects w !! k.

Lemma advanced_nil (target : string) (w : World) : advanced target [] w w.
Proof.
  unfold advanced. cbn. rewrite !app_nil_r. repeat split.
Qed.

Lemma process_and_merge_ok (b : list string) (w : World) :
  batch_fault w b = None ->
  process_and_merge b w = (Ret tt, set_merged (fun m => m ++ [b]) w).
Proof. intros H. unfold process_and_merge. now rewrite H. Qed.

(** Batches that merge and are recorded, in front of the batches that
    remain. *)
Lemma for_batches_app (args : Args) (mb mp : string) (bs1 : list (list string)) :
  split_gcs_uri (manifest args) = Ok (mb, mp) ->
  Forall (fun b => b <> []) bs1 ->
  forall w,
    write_fault w ((mb +:+ "/" +:+ mp) +:+ ".tmp") = None ->
    Forall (fun b => batch_fault w b = None) bs1 ->
    exists w',
      advanced (mb +:+ "/" +:+ mp) bs1 w w'
      /\ forall rest, for_batches args (bs1 ++ rest) w = for_batches args rest w'.
Proof.
  intros Hsplit Hne. set (target := mb +:+ "/" +:+ mp).
  induction Hne as [|b bs1 Hb Hne IH]; intros w Hfault Hok.
  - exists w. split; [apply advanced_nil | reflexivity].
  - inversion Hok as [|? ? Hb_ok Hrest_ok]; subst.
    set (w1 := set_merged (fun m => m ++ [b]) w).
    set (lines := existing_lines target w
                  ++ map JsonLine (records_of (utc_now_iso w) b)).
    set (w2 := set_objects (replaced target lines) w1).
    assert (Hstep : forall rest,
               for_batches args ((b :: bs1) ++ rest) w = for_batches args (bs1 ++ rest) w2).
    { intros rest. cbn [app for_batches].
      change (process_and_merge b;; ?k) with (process_and_merge b ≫= fun _ => k).
      rewrite (pass_step _ _ _ _ _ (process_and_merge_ok b w Hb_ok)).
      erewrite pass_step by reflexivity.
      change (append_manifest ?u ?r;; ?k) with (append_manifest u r ≫= fun _ => k).
      erewrite pass_step; [reflexivity|].
      apply (append_manifest_any _ mb mp); [exact Hsplit | exact Hfault |].
      destruct b; [congruence | discriminate]. }
    destruct (IH w2 Hfault Hrest_ok)
      as (w' & (Hm & Hl & Hwf & Hbf & Hnow & Hlock & Hslept & Hobj) & Hrun).
    exists w'. split.
    + unfold advanced. rewrite Hm, Hl, Hwf, Hbf, Hnow, Hlock, Hslept.
      split; [cbn; now rewrite <- app_assoc|].
      split.
      { unfold w2. rewrite existing_lines_replaced. unfold lines, records_of.
        cbn [concat]. now rewrite !map_app, app_assoc. }
      repeat split. intros k Hk Hk'. rewrite (Hobj k Hk Hk'). cbn.
      now apply replaced_other.
    + intros rest. rewrite Hstep. apply Hrun.
Qed.

Lemma recorded_advanced (target : string) (bs : list (list string))
      (xs : list string) (w w' : World) :
  advanced target bs w w' ->
  manifest_inputs (existing_lines target w) = Ok xs ->
  recorded target w' = xs ++ concat bs.
Proof.
  intros (_ & Hl & _) Hold. unfold recorded. rewrite Hl. unfold records_of.
  now rewrite (manifest_inputs_app _ xs).
Qed.




(** A bucket in which the batch holding [file_B] cannot be merged. *)
Definition bad_batch : World :=
  mkWorld ∅ (fun _ => None)
          (fun b => if bool_decide (b = [file_B])
                    then Some (Exn "ArrowInvalid" "Parquet magic bytes not found")
                    else None)
          "2024-01-02T00:00:00+00:00" ∅ [] 0.


(** X21.  A manifest that cannot be written after a batch was merged: the
    pass stops with the error of the write, the batch stays merged, and the
    manifest object is as before, so it does not record the batch and the
    next pass takes the files of the batch for new again. *)
Theorem X21_merge_without_record
        (args : Args) (mb mp : string) (b : list string) (bs : list (list string))
        (e : exn) (w : World) :
  split_gcs_uri (manifest args) = Ok (mb, mp) ->
  batch_fault w b = None ->
  write_fault w ((mb +:+ "/" +:+ mp) +:+ ".tmp") = Some e ->
  exists w',
    for_batches args (b :: bs) w = (Exc e, w')
    /\ merged w' = merged w ++ [b]
    /\ objects w' !! (mb +:+ "/" +:+ mp) = objects w !! (mb +:+ "/" +:+ mp)
    /\ read_manifest (manifest args) w' = (fst (read_manifest (manifest args) w), w').
Proof.
  intros Hsplit Hok Hfault.
  exists (set_merged (fun m => m ++ [b]) w). split; [|split; [|split]].
  - cbn [for_batches].
    change (process_and_merge b;; ?k) with (process_and_merge b ≫= fun _ => k).
    rewrite (pass_step _ _ _ _ _ (process_and_merge_ok b w Hok)).
    erewrite pass_step by reflexivity.
    unfold append_manifest, read_lines, write_object. run_unfold.
    rewrite Hsplit. cbn.
    destruct (objects w !! _) as [[ls|]|]; cbn; now rewrite Hfault.
  - reflexivity.
  - reflexivity.
  - rewrite !(read_manifest_recorded _ mb mp _ Hsplit). reflexivity.
Qed.

(** A bucket that refuses every write. *)
Definition read_only_bucket : World :=
  mkWorld ∅ (fun _ => Some (Exn "OSError" "403 Forbidden")) (fun _ => None)
          "2024-01-02T00:00:00+00:00" ∅ [] 0.

Lemma X21_merge_without_record_witness :
  exists w',
    for_batches rerun_args [[file_A]] read_only_bucket
    = (Exc (Exn "OSError" "403 Forbidden"), w')
    /\ merged w' = [[file_A]]
    /\ objects w' !! "bucket/manifest.jsonl" = None.
Proof.
  destruct (X21_merge_without_record rerun_args "bucket" "manifest.jsonl"
              [file_A] [] (Exn "OSError" "403 Forbidden") read_only_bucket)
    as (w' & Hrun & Hmerged & Hobj & _).
  - reflexivity.
  - reflexivity.
  - reflexivity.
  - exists w'. repeat split; assumption.
Defined.

(** ** Passes that merge nothing *)

Lemma filter_none (p : string -> bool) (l : list string) :
  (forall f, In f l -> p f = false) -> List.filter p l = [].
Proof.
  induction l as [|x l IH]; intros H; [reflexivity|].
  cbn. rewrite (H x) by now left. apply IH. intros f Hf. apply H. now right.
Qed.

(** The files of the listing that the manifest does not record. *)
Definition new_files (target ib ip : string) (w : World) : list string :=
  List.filter
    (fun f => negb (bool_decide (f ∈ (list_to_set (recorded target w) : gset string))))
    (listing ib ip w).

Lemma pass_start (args : Args) (mb mp ib ip : string) (w : World)
      (k : gset string -> Run bool) :
  split_gcs_uri (manifest args) = Ok (mb, mp) ->
  (read_manifest (manifest args) ≫= k) w
  = k (list_to_set (recorded (mb +:+ "/" +:+ mp) w)) w.
Proof.
  intros Hsplit. apply pass_step. now apply read_manifest_recorded.
Qed.


(** The bucket after both input files were merged and recorded. *)
Definition all_recorded : World :=
  mkWorld
    (<["bucket/manifest.jsonl" :=
         Lines [JsonLine (manifest_record file_A "2024-01-01T00:00:00+00:00");
                JsonLine (manifest_record file_B "2024-01-02T00:00:00+00:00")]]>
     (<["bucket/parts/b.parquet" := Binary]>
      (<["bucket/parts/a.parquet" := Binary]> ∅)))
    (fun _ => None) (fun _ => None) "2024-01-03T00:00:00+00:00" ∅
    [[file_A]; [file_B]] 0.

Lemma all_recorded_listing : listing "bucket" "parts" all_recorded = [file_A; file_B].
Proof. vm_compute. reflexivity. Qed.

Lemma all_recorded_manifest :
  recorded "bucket/manifest.jsonl" all_recorded = [file_A; file_B].
Proof. vm_compute. reflexivity. Qed.


(** X23.  The batch size at its edges, in a pass that has new files: a
    size of zero stops the pass with the [ValueError] of [range]; a
    negative size gives no batch at all, and the pass ends as if it had
    finished, with nothing merged and nothing recorded. *)
Theorem X23_batch_size_zero_or_negative
        (args : Args) (mb mp ib ip : string) (w : World) :
  split_gcs_uri (manifest args) = Ok (mb, mp) ->
  new_files (mb +:+ "/" +:+ mp) ib ip w <> [] ->
  (batch_files args = 0 ->
   pass args ib ip w = (Exc (Exn "ValueError" "range() arg 3 must not be zero"), w))
  /\ (batch_files args < 0 -> sleep_seconds args <= 0 ->
      pass args ib ip w = (Ret false, w)).
Proof.
  intros Hman Hnew. unfold new_files in Hnew.
  split.
  - intros Hzero. unfold pass. rewrite (pass_start args mb mp ib ip w _ Hman).
    rewrite (pass_step _ _ _ _ _ (list_gcs_parquets_eq ib ip w)).
    destruct (List.filter _ _) as [|f fs]; [congruence|].
    unfold batches. rewrite Hzero. reflexivity.
  - intros Hneg Hsleep. unfold pass. rewrite (pass_start args mb mp ib ip w _ Hman).
    rewrite (pass_step _ _ _ _ _ (list_gcs_parquets_eq ib ip w)).
    destruct (List.filter _ _) as [|f fs]; [congruence|].
    unfold batches.
    destruct (batch_files args =? 0) eqn:H0; [lia|].
    destruct (batch_files args <? 0) eqn:H1; [|lia].
    change (lift (Ok [])) with (ret (S := World) ([] : list (list string))).
    erewrite pass_step by reflexivity. cbn [for_batches].
    erewrite pass_step by reflexivity.
    destruct (0 <? sleep_seconds args) eqn:Hs; [lia | reflexivity].
Qed.

Definition negative_batch_args : Args :=
  mkArgs "gs://bucket/parts" "gs://bucket/quarter" "gs://bucket/manifest.jsonl"
         (-1) 0 "/tmp/quarter_index.lock".

Lemma before_rerun_new :
  new_files "bucket/manifest.jsonl" "bucket" "parts" before_rerun = [file_B].
Proof. vm_compute. reflexivity. Qed.

Lemma X23_batch_size_zero_or_negative_witness :
  pass negative_batch_args "bucket" "parts" before_rerun = (Ret false, before_rerun).
Proof.
  refine (proj2 (X23_batch_size_zero_or_negative negative_batch_args
                   "bucket" "manifest.jsonl" "bucket" "parts" before_rerun _ _) _ _).
  - reflexivity.
  - change ("bucket" +:+ "/" +:+ "manifest.jsonl") with "bucket/manifest.jsonl".
    rewrite before_rerun_new. discriminate.
  - cbn. lia.
  - cbn. lia.
Defined.

End PartitionMore.

(* ================================================================== *)
(** * The lock of the quarter merge                                    *)
(* ================================================================== *)

Module LockSpec.
Import Partition PartitionSpec.

(** Code that is not terminated from outside and leaves the lock files
    alone. *)
Definition lock_free {A} (c : Run A) : Prop :=
  forall w, fst (c w) <> Killed /\ lock_files (snd (c w)) = lock_files w.

Lemma lf_ret {A} (a : A) : lock_free (ret (S := World) a).
Proof. intros w. split; [discriminate | reflexivity]. Qed.

Lemma lf_raise {A} (e : exn) : lock_free (raise (S := World) (A := A) e).
Proof. intros w. split; [discriminate | reflexivity]. Qed.

Lemma lf_lift {A} (r : result A) : lock_free (lift (S := World) r).
Proof. destruct r; [apply lf_ret | apply lf_raise]. Qed.

Lemma lf_gets {A} (f : World -> A) : lock_free (gets f).
Proof. intros w. split; [discriminate | reflexivity]. Qed.

Lemma lf_bind {A B} (c : Run A) (k : A -> Run B) :
  lock_free c -> (forall a, lock_free (k a)) -> lock_free (c ≫= k).
Proof.
  intros Hc Hk w. change (c ≫= k) with (bind c k). unfold bind.
  destruct (Hc w) as [Hn Hl].
  destruct (c w) as [[a|e|] w1]; cbn in *; [|split; [discriminate | exact Hl]|congruence].
  destruct (Hk a w1) as [Hn1 Hl1]. split; [exact Hn1 | congruence].
Qed.

Lemma lf_try_except {A} (body : Run A) (h : exn -> Run A) :
  lock_free body -> (forall e, lock_free (h e)) -> lock_free (try_except body h).
Proof.
  intros Hb Hh w. unfold try_except. destruct (Hb w) as [Hn Hl].
  destruct (body w) as [[a|e|] w1]; cbn in *; [split; [discriminate | exact Hl]| |congruence].
  destruct (Hh e w1) as [Hn1 Hl1]. split; [exact Hn1 | congruence].
Qed.

Lemma lf_set_objects (f : gmap string odata -> gmap string odata) :
  lock_free (modify (set_objects f)).
Proof. intros w. split; [discriminate | reflexivity]. Qed.

Lemma lf_read_lines (key : string) : lock_free (read_lines key).
Proof.
  intros w. unfold read_lines.
  destruct (objects w !! key) as [[ls|]|]; split; first [discriminate | reflexivity].
Qed.

Lemma lf_write_object (key : string) (d : odata) : lock_free (write_object key d).
Proof.
  intros w. unfold write_object.
  destruct (write_fault w key); split; first [discriminate | reflexivity].
Qed.

Lemma lf_move (src dst : string) : lock_free (move src dst).
Proof.
  intros w. unfold move.
  destruct (objects w !! src); split; first [discriminate | reflexivity].
Qed.

Lemma lf_process_and_merge (batch : list string) : lock_free (process_and_merge batch).
Proof.
  intros w. unfold process_and_merge.
  destruct (batch_fault w batch); split; first [discriminate | reflexivity].
Qed.

Lemma lf_sleep : lock_free sleep.
Proof. intros w. split; [discriminate | reflexivity]. Qed.

Ltac lf_step :=
  match goal with
  | |- lock_free (_ ≫= _) => apply lf_bind; [|intros]
  | |- lock_free (ret _) => apply lf_ret
  | |- lock_free (raise _) => apply lf_raise
  | |- lock_free (lift _) => apply lf_lift
  | |- lock_free (gets _) => apply lf_gets
  | |- lock_free (is_file _) => apply lf_gets
  | |- lock_free (try_except _ _) => apply lf_try_except; [|intros]
  | |- lock_free (modify (set_objects _)) => apply lf_set_objects
  | |- lock_free (read_lines _) => apply lf_read_lines
  | |- lock_free (write_object _ _) => apply lf_write_object
  | |- lock_free (move _ _) => apply lf_move
  | |- lock_free (process_and_merge _) => apply lf_process_and_merge
  | |- lock_free sleep => apply lf_sleep
  | |- lock_free (if ?b then _ else _) => destruct b
  | |- lock_free (match ?x with _ => _ end) => destruct x
  | |- lock_free (let '(_, _) := ?x in _) => destruct x
  end.

Lemma lf_read_manifest (uri : string) : lock_free (read_manifest uri).
Proof. unfold read_manifest. repeat lf_step. Qed.

Lemma lf_list_gcs_parquets (bucket prefix : string) :
  lock_free (list_gcs_parquets bucket prefix).
Proof. unfold list_gcs_parquets. repeat lf_step. Qed.

Lemma lf_append_manifest (uri : string) (records : list dict) :
  lock_free (append_manifest uri records).
Proof. unfold append_manifest. repeat lf_step. Qed.

Lemma lf_for_batches (args : Args) (bs : list (list string)) :
  lock_free (for_batches args bs).
Proof.
  induction bs as [|b bs IH]; cbn [for_batches]; [apply lf_ret|].
  repeat first [apply lf_append_manifest | exact IH | lf_step].
Qed.

Lemma lf_pass (args : Args) (ib ip : string) : lock_free (pass args ib ip).
Proof.
  unfold pass.
  repeat first [apply lf_read_manifest | apply lf_list_gcs_parquets
                | apply lf_for_batches | lf_step].
Qed.

Lemma lf_turns (fuel : nat) (args : Args) (ib ip : string) :
  lock_free (turns fuel args ib ip).
Proof.
  induction fuel as [|fuel IH]; cbn [turns]; [apply lf_ret|].
  apply lf_bind; [apply lf_pass|]. intros [|]; [exact IH | apply lf_ret].
Qed.

(** X24.  A run that finds the lock file refuses to start: it raises
    [RuntimeError] before anything is read, leaves the lock file of the
    other run in place, and merges and records nothing. *)
Theorem X24_held_lock_stops_the_run (fuel : nat) (args : Args) (w : World) :
  lock_path args ∈ lock_files w ->
  main fuel args w
  = (Exc (Exn "RuntimeError"
              ("Lock exists at " +:+ lock_path args +:+ ". Another job may be running.")),
     w).
Proof.
  intros Hheld. unfold main, acquire_local_lock. run_unfold.
  now rewrite bool_decide_eq_true_2 by exact Hheld.
Qed.

Definition locked : World :=
  mkWorld ∅ (fun _ => None) (fun _ => None) "2024-01-02T00:00:00+00:00"
          {["/tmp/quarter_index.lock"]} [] 0.

Lemma X24_held_lock_stops_the_run_witness :
  fst (main 1 rerun_args locked)
  = Exc (Exn "RuntimeError"
             "Lock exists at /tmp/quarter_index.lock. Another job may be running.").
Proof.
  rewrite (X24_held_lock_stops_the_run 1 rerun_args locked).
  - reflexivity.
  - cbn. now apply elem_of_singleton.
Defined.

(** X25.  A run that takes the lock gives it back, however it ends: after
    [main], whether it returns or raises (a bad input prefix, a batch that
    fails to merge, a manifest that cannot be written, a batch size of
    zero), the lock files are those that were there before the run. *)
Theorem X25_lock_is_always_released (fuel : nat) (args : Args) (w : World) :
  lock_path args ∉ lock_files w ->
  fst (main fuel args w) <> Killed
  /\ lock_files (snd (main fuel args w)) = lock_files w.
Proof.
  intros Hfree. unfold main.
  set (w1 := set_locks (fun s => {[lock_path args]} ∪ s) w).
  assert (Hacq : acquire_local_lock (lock_path args) w = (Ret tt, w1)).
  { unfold acquire_local_lock. run_unfold.
    now rewrite bool_decide_eq_false_2 by exact Hfree. }
  change (acquire_local_lock ?p;; ?k) with (acquire_local_lock p ≫= fun _ => k).
  rewrite (pass_step _ _ _ _ _ Hacq).
  set (body := _ ≫= _).
  assert (Hbody : lock_free body).
  { subst body. apply lf_bind; [apply lf_lift|]. intros [ib ip]. apply lf_turns. }
  destruct (Hbody w1) as [Hn Hl]. unfold try_finally.
  destruct (body w1) as [[a|e|] w2]; cbn in *; [| |congruence].
  all: split; [discriminate|]; rewrite Hl; apply set_eq; intros x;
    rewrite elem_of_difference, elem_of_union, elem_of_singleton; split;
    [intros [[->|Hx] Hnot]; [now elim Hnot | exact Hx]
    | intros Hx; split; [now right|]; intros ->; contradiction].
Qed.

(** One new input file, in a bucket that refuses the manifest write. *)
Definition refusing : World :=
  mkWorld (<["bucket/parts/a.parquet" := Binary]> ∅)
          (fun _ => Some (Exn "OSError" "403 Forbidden")) (fun _ => None)
          "2024-01-02T00:00:00+00:00" ∅ [] 0.

Lemma X25_lock_is_always_released_witness :
  lock_files (snd (main 1 rerun_args refusing)) = ∅.
Proof.
  refine (proj2 (X25_lock_is_always_released 1 rerun_args refusing _)).
  cbn. apply not_elem_of_empty.
Defined.

End LockSpec.

(* ================================================================== *)
(** * Helper functions: keys, quarters, output names, viewer URLs       *)
(* ================================================================== *)

Module Helpers.

(** ** More string methods *)

(** [str.isdigit], ASCII range: a non-empty string of decimal digits. *)
Definition is_digit (c : ascii) : bool :=
  let n := nat_of_ascii c in
  ((48 <=? n) && (n <=? 57))%nat.

Definition isdigit (s : string) : bool :=
  negb (String.eqb s "") && PathFacts.all_chars is_digit s.

(** [s.zfill(width)]: zeros on the left, behind a leading sign. *)
Definition zfill (width : nat) (s : string) : string :=
  let pad := PathFacts.zeros (width - String.length s) in
  match s with
  | String c r =>
      if Ascii.eqb c "+" || Ascii.eqb c "-" then String c (pad +:+ r) else pad +:+ s
  | EmptyString => pad
  end.

(** [s.replace(old, new)] for a non-empty [old]: the occurrences of [old]
    from left to right, none overlapping another.  [skip] counts the
    characters of a match that are still to be passed over. *)
Fixpoint replace_go (old new : string) (skip : nat) (s : string) : string :=
  match s with
  | EmptyString => EmptyString
  | String c r =>
      match skip with
      | S k => replace_go old new k r
      | O =>
          if String.prefix old s
          then new +:+ replace_go old new (String.length old - 1) r
          else String c (replace_go old new 0 r)
      end
  end.

Definition replace (old new s : string) : string := replace_go old new 0 s.

(** ** Helpers of the job *)

Definition ensure_str_cik (cik : pyval) : string :=
  let s := PyStr.strip (py_str cik) in
  if isdigit s then zfill 10 s else s.

(** One entry of the series [build_primary_key] returns, from the cells
    of the row: [cik|form_type|date_filed|filename]. *)
Definition build_primary_key (cik form_type date_filed filename : pyval) : string :=
  ensure_str_cik cik +:+ "|" +:+ py_str form_type +:+ "|" +:+ py_str date_filed
    +:+ "|" +:+ py_str filename.

(** [s in {a, b}] *)
Definition among (s : string) (names : list string) : bool :=
  existsb (String.eqb s) names.

Definition normalize_quarter (q : pyval) : string :=
  match q with
  | PyNone => ""
  | _ =>
      let s := PyStr.lower (PyStr.strip (py_str q)) in
      let s := PyStr.replace_char " " "" (replace "quarter" "" s) in
      if among s ["1"; "q1"] then "q1"
      else if among s ["2"; "q2"] then "q2"
      else if among s ["3"; "q3"] then "q3"
      else if among s ["4"; "q4"] then "q4"
      else ""
  end.

Definition quarter_output_uri (out_base : string) (year : Z) (quarter : string) : string :=
  out_base +:+ "/year=" +:+ PyStr.of_Z year +:+ "/" +:+ quarter +:+ ".parquet".

(** ** Padding a CIK *)

Lemma digit_no_ws (c : ascii) : is_digit c = true -> PyStr.is_ws c = false.
Proof.
  unfold is_digit, PyStr.is_ws. set (n := nat_of_ascii c). intros H.
  apply andb_prop in H as [H1 H2]. apply Nat.leb_le in H1, H2.
  apply orb_false_iff. split; apply andb_false_iff.
  - right. apply Nat.leb_gt. lia.
  - right. apply Nat.leb_gt. lia.
Qed.

Lemma rstrip_none (p : ascii -> bool) (s : string) :
  PathFacts.all_chars (fun c => negb (p c)) s = true -> PyStr.rstrip_by p s = s.
Proof.
  induction s as [|a s IH]; intros H; [reflexivity|].
  cbn in H. apply andb_prop in H as [Ha H]. apply negb_true_iff in Ha.
  cbn [PyStr.rstrip_by]. rewrite (IH H), Ha. now destruct s.
Qed.

Lemma lstrip_none (p : ascii -> bool) (s : string) :
  PathFacts.all_chars (fun c => negb (p c)) s = true -> PyStr.lstrip_by p s = s.
Proof.
  destruct s as [|a s]; intros H; [reflexivity|].
  cbn in H. apply andb_prop in H as [Ha _]. apply negb_true_iff in Ha.
  cbn [PyStr.lstrip_by]. now rewrite Ha.
Qed.

Lemma all_chars_impl (p q : ascii -> bool) (s : string) :
  (forall c, p c = true -> q c = true) ->
  PathFacts.all_chars p s = true -> PathFacts.all_chars q s = true.
Proof.
  intros Hpq. induction s as [|a s IH]; intros H; [reflexivity|].
  cbn in *. apply andb_prop in H as [Ha H]. now rewrite (Hpq a Ha), IH.
Qed.

Lemma strip_digits (s : string) :
  PathFacts.all_chars is_digit s = true -> PyStr.strip s = s.
Proof.
  intros H.
  assert (Hws : PathFacts.all_chars (fun c => negb (PyStr.is_ws c)) s = true).
  { apply (all_chars_impl is_digit); [|exact H].
    intros c Hc. now rewrite (digit_no_ws c Hc). }
  unfold PyStr.strip. now rewrite (lstrip_none _ _ Hws), (rstrip_none _ _ Hws).
Qed.

Lemma all_chars_app (p : ascii -> bool) (s t : string) :
  PathFacts.all_chars p (s +:+ t) = PathFacts.all_chars p s && PathFacts.all_chars p t.
Proof.
  induction s as [|a s IH]; [reflexivity|].
  change (String a s +:+ t) with (String a (s +:+ t)). cbn [PathFacts.all_chars].
  rewrite IH. now destruct (p a).
Qed.

Lemma zeros_digits (k : nat) : PathFacts.all_chars is_digit (PathFacts.zeros k) = true.
Proof.
  induction k as [|k IH]; [reflexivity|].
  pose proof (PathFacts.zeros_S k "") as E. rewrite !PathFacts.append_empty_r in E.
  rewrite E. cbn [PathFacts.all_chars]. now rewrite IH.
Qed.

Lemma zeros_length (k : nat) : String.length (PathFacts.zeros k) = k.
Proof.
  induction k as [|k IH]; [reflexivity|].
  pose proof (PathFacts.zeros_S k "") as E. rewrite !PathFacts.append_empty_r in E.
  rewrite E. cbn [String.length]. now rewrite IH.
Qed.

(** [zfill] on a string of digits. *)
Lemma zfill_digits (width : nat) (s : string) :
  isdigit s = true ->
  zfill width s = PathFacts.zeros (width - String.length s) +:+ s.
Proof.
  unfold isdigit, zfill. intros H. apply andb_prop in H as [_ H].
  destruct s as [|c r]; [now rewrite PathFacts.append_empty_r|].
  cbn in H. apply andb_prop in H as [Hc _].
  assert (Hsign : Ascii.eqb c "+" || Ascii.eqb c "-" = false).
  { apply orb_false_iff. split; apply Ascii.eqb_neq; intros ->; discriminate. }
  now rewrite Hsign.
Qed.

Lemma isdigit_padded (k : nat) (s : string) :
  isdigit s = true -> isdigit (PathFacts.zeros k +:+ s) = true.
Proof.
  unfold isdigit. intros H. apply andb_prop in H as [Hne H].
  rewrite all_chars_app, zeros_digits, H. cbn [andb]. rewrite andb_true_r.
  apply negb_true_iff, String.eqb_neq. intros E.
  apply (f_equal String.length) in E. rewrite PathFacts.append_length in E.
  apply negb_true_iff, String.eqb_neq in Hne. destruct s; [congruence|].
  cbn in E. lia.
Qed.



(** ** The primary key *)

(** A string cut at the first [c] has one head and one tail. *)
Lemma cut_unique (c : ascii) (a a' r r' : string) :
  PathFacts.has_char c a = false ->
  PathFacts.has_char c a' = false ->
  a +:+ String c r = a' +:+ String c r' ->
  a = a' /\ r = r'.
Proof.
  revert a'. induction a as [|x a IH]; intros [|x' a'] Ha Ha' H.
  - injection H as ->. now split.
  - exfalso. injection H as <- _.
    rewrite PathFacts.has_char_cons, Ascii.eqb_refl in Ha'. discriminate.
  - exfalso. injection H as -> _.
    rewrite PathFacts.has_char_cons, Ascii.eqb_refl in Ha. discriminate.
  - injection H as -> H.
    rewrite PathFacts.has_char_cons in Ha, Ha'.
    apply orb_false_iff in Ha as [_ Ha]. apply orb_false_iff in Ha' as [_ Ha'].
    destruct (IH a' Ha Ha' H) as [-> ->]. now split.
Qed.

(** X27.  The primary key tells rows apart: when the padded CIK, the form
    type and the filing date of two rows hold no vertical bar, equal keys
    mean equal padded CIK, form type, filing date and filename. *)
Theorem X27_primary_key_determines_fields
        (cik form_type date_filed filename cik' form_type' date_filed' filename' : pyval) :
  Forall (fun s => PathFacts.has_char "|" s = false)
         [ensure_str_cik cik; py_str form_type; py_str date_filed;
          ensure_str_cik cik'; py_str form_type'; py_str date_filed'] ->
  build_primary_key cik form_type date_filed filename
  = build_primary_key cik' form_type' date_filed' filename' ->
  ensure_str_cik cik = ensure_str_cik cik'
  /\ py_str form_type = py_str form_type'
  /\ py_str date_filed = py_str date_filed'
  /\ py_str filename = py_str filename'.
Proof.
  intros Hbars Hkey. unfold build_primary_key in Hkey.
  rewrite !Forall_cons in Hbars.
  destruct Hbars as (B1 & B2 & B3 & B1' & B2' & B3' & _).
  change ("|" +:+ ?t) with (String "|" t) in Hkey.
  destruct (cut_unique _ _ _ _ _ B1 B1' Hkey) as [E1 Hkey2].
  destruct (cut_unique _ _ _ _ _ B2 B2' Hkey2) as [E2 Hkey3].
  destruct (cut_unique _ _ _ _ _ B3 B3' Hkey3) as [E3 E4].
  auto.
Qed.

Lemma X27_primary_key_determines_fields_witness :
  ensure_str_cik (PyInt 320193) = ensure_str_cik (PyStr " 0000320193 ").
Proof.
  refine (proj1 (X27_primary_key_determines_fields
                   (PyInt 320193) (PyStr "10-K") (PyStr "2020-10-30") (PyStr "a.txt")
                   (PyStr " 0000320193 ") (PyStr "10-K") (PyStr "2020-10-30")
                   (PyStr "a.txt") _ _)).
  - repeat constructor.
  - reflexivity.
Defined.

(** ** Quarters *)

Lemma lstrip_map (f : ascii -> ascii) (p : ascii -> bool) (s : string) :
  (forall c, p (f c) = p c) ->
  PyStr.lstrip_by p (PyStr.map_chars f s) = PyStr.map_chars f (PyStr.lstrip_by p s).
Proof.
  intros Hf. induction s as [|a s IH]; [reflexivity|].
  cbn [PyStr.map_chars PyStr.lstrip_by]. rewrite Hf. now destruct (p a).
Qed.

Lemma rstrip_map (f : ascii -> ascii) (p : ascii -> bool) (s : string) :
  (forall c, p (f c) = p c) ->
  PyStr.rstrip_by p (PyStr.map_chars f s) = PyStr.map_chars f (PyStr.rstrip_by p s).
Proof.
  intros Hf. induction s as [|a s IH]; [reflexivity|].
  cbn [PyStr.map_chars PyStr.rstrip_by]. rewrite IH, Hf.
  destruct (PyStr.rstrip_by p s); [now destruct (p a) | reflexivity].
Qed.

Lemma upper_keeps_ws (c : ascii) : PyStr.is_ws (PyStr.upper_char c) = PyStr.is_ws c.
Proof. destruct c as [[] [] [] [] [] [] [] []]; reflexivity. Qed.

Lemma lower_upper_char (c : ascii) :
  PyStr.lower_char (PyStr.upper_char c) = PyStr.lower_char c.
Proof. destruct c as [[] [] [] [] [] [] [] []]; reflexivity. Qed.

Lemma lower_upper (s : string) : PyStr.lower (PyStr.upper s) = PyStr.lower s.
Proof.
  unfold PyStr.lower, PyStr.upper. induction s as [|a s IH]; [reflexivity|].
  cbn [PyStr.map_chars]. now rewrite IH, lower_upper_char.
Qed.

Lemma strip_upper (s : string) : PyStr.strip (PyStr.upper s) = PyStr.upper (PyStr.strip s).
Proof.
  unfold PyStr.strip, PyStr.upper.
  now rewrite lstrip_map, rstrip_map by apply upper_keeps_ws.
Qed.

Definition quarters : list string := [""; "q1"; "q2"; "q3"; "q4"].

Lemma normalize_quarter_range (q : pyval) : In (normalize_quarter q) quarters.
Proof.
  unfold normalize_quarter, quarters.
  destruct q; cbn [In]; try tauto;
    repeat match goal with |- context [if ?b then _ else _] => destruct b end; tauto.
Qed.

(** X28.  [normalize_quarter] gives one of [q1] to [q4], or the empty
    string for a quarter it does not know; it does not depend on the case
    of the letters, and it leaves its own results as they are. *)
Theorem X28_normalize_quarter_is_stable (q : pyval) (s : string) :
  In (normalize_quarter q) quarters
  /\ normalize_quarter (PyStr (PyStr.upper s)) = normalize_quarter (PyStr s)
  /\ normalize_quarter (PyStr (normalize_quarter q)) = normalize_quarter q.
Proof.
  split; [apply normalize_quarter_range|]. split.
  - unfold normalize_quarter. cbn [py_str].
    now rewrite strip_upper, lower_upper.
  - pose proof (normalize_quarter_range q) as Hq. unfold quarters in Hq.
    cbn [In] in Hq.
    destruct Hq as [<- | [<- | [<- | [<- | [<- | []]]]]]; reflexivity.
Qed.

(** ** Output names *)

Lemma uint_no_slash (u : Decimal.uint) :
  PathFacts.has_char "/" (NilEmpty.string_of_uint u) = false.
Proof.
  induction u; cbn [NilEmpty.string_of_uint]; [reflexivity|..];
    rewrite PathFacts.has_char_cons; exact IHu.
Qed.

Lemma of_Z_no_slash (z : Z) : PathFacts.has_char "/" (PyStr.of_Z z) = false.
Proof.
  unfold PyStr.of_Z, NilZero.string_of_int, NilZero.string_of_uint.
  destruct (Z.to_int z) as [u|u].
  - destruct u; try reflexivity; apply (uint_no_slash (_ u)).
  - rewrite PathFacts.has_char_cons. cbn [Ascii.eqb Bool.eqb orb].
    destruct u; try reflexivity; apply (uint_no_slash (_ u)).
Qed.

Lemma of_Z_inj (a b : Z) : PyStr.of_Z a = PyStr.of_Z b -> a = b.
Proof.
  unfold PyStr.of_Z. intros H. apply DecimalZ.to_int_inj.
  assert (Hnn : forall z, Z.to_int z <> Decimal.Pos Decimal.Nil
                          /\ Z.to_int z <> Decimal.Neg Decimal.Nil).
  { intros [|p|p]; cbn; split; try discriminate;
      intros [= E]; now apply (DecimalPos.Unsigned.to_uint_nonnil p). }
  apply (f_equal NilZero.int_of_string) in H.
  rewrite !NilZero.isi in H by apply Hnn. congruence.
Qed.

(** X29.  The quarter files have distinct names: under one output base,
    two groups that differ in the year or in the quarter are written to
    different URIs, so no two groups of a batch are merged into one file. *)
Theorem X29_quarter_files_are_distinct
        (out_base : string) (year year' : Z) (quarter quarter' : string) :
  year <> year' \/ quarter <> quarter' ->
  quarter_output_uri out_base year quarter <> quarter_output_uri out_base year' quarter'.
Proof.
  unfold quarter_output_uri. intros Hne H.
  apply PathFacts.append_cancel_l, PathFacts.append_cancel_l in H.
  change ("/" +:+ ?t) with (String "/" t) in H.
  destruct (cut_unique _ _ _ _ _ (of_Z_no_slash year) (of_Z_no_slash year') H)
    as [Hy Hq].
  apply of_Z_inj in Hy. apply PathFacts.append_cancel_r in Hq.
  destruct Hne as [Hne | Hne]; now apply Hne.
Qed.

Lemma X29_quarter_files_are_distinct_witness :
  "gs://bucket/quarter/year=2020/q1.parquet"%string
  <> "gs://bucket/quarter/year=2021/q1.parquet"%string.
Proof.
  apply (X29_quarter_files_are_distinct "gs://bucket/quarter" 2020 2021 "q1" "q1").
  left. discriminate.
Defined.

(** ** The viewer URL fix of the fetch script *)

Definition viewer_prefix : string := "https://www.sec.gov/ix?doc=".

Definition fix_ixviewer_url (url : option string) : option string :=
  match url with
  | Some u =>
      if PyStr.contains "ix?doc=" u
      then Some (replace viewer_prefix "https://www.sec.gov" u)
      else Some u
  | None => None
  end.

Lemma replace_go_skip (old new a t : string) :
  replace_go old new (String.length a) (a +:+ t) = replace_go old new 0 t.
Proof.
  induction a as [|x a IH]; [reflexivity|].
  change (String x a +:+ t) with (String x (a +:+ t)). exact IH.
Qed.

Lemma replace_at_prefix (old new rest : string) :
  old <> "" ->
  replace_go old new 0 (old +:+ rest) = new +:+ replace_go old new 0 rest.
Proof.
  destruct old as [|c old']; intros Hne; [congruence|].
  pose proof (PathFacts.prefix_append (String c old') rest) as Hp.
  change (String c old' +:+ rest) with (String c (old' +:+ rest)) in *.
  cbn [replace_go]. rewrite Hp. cbn [String.length].
  replace (S (String.length old') - 1)%nat with (String.length old') by lia.
  now rewrite replace_go_skip.
Qed.

Lemma replace_absent (old new s : string) :
  PyStr.contains old s = false -> replace_go old new 0 s = s.
Proof.
  induction s as [|c r IH]; intros H; [reflexivity|].
  cbn [PyStr.contains] in H. apply orb_false_iff in H as [Hpre Hrest].
  cbn [replace_go]. rewrite Hpre. now rewrite (IH Hrest).
Qed.

Lemma contains_prefix (p s : string) :
  String.prefix p s = true -> PyStr.contains p s = true.
Proof. intros H. destruct s; cbn [PyStr.contains]; now rewrite H. Qed.

Lemma contains_later (p a t : string) :
  PyStr.contains p t = true -> PyStr.contains p (a +:+ t) = true.
Proof.
  intros H. induction a as [|x a IH]; [exact H|].
  change (String x a +:+ t) with (String x (a +:+ t)).
  cbn [PyStr.contains]. rewrite IH. apply orb_true_r.
Qed.

(** X30.  [fix_ixviewer_url] turns a viewer URL into the URL of the
    document: [https://www.sec.gov/ix?doc=] in front of a path becomes
    [https://www.sec.gov] in front of the same path; a URL in which that
    prefix does not occur, and a missing URL, come back as they are. *)
Theorem X30_viewer_url_becomes_document_url (path url : string) :
  (PyStr.contains viewer_prefix path = false ->
   fix_ixviewer_url (Some (viewer_prefix +:+ path))
   = Some ("https://www.sec.gov" +:+ path))
  /\ (PyStr.contains viewer_prefix url = false ->
      fix_ixviewer_url (Some url) = Some url)
  /\ fix_ixviewer_url None = None.
Proof.
  split; [|split; [|reflexivity]].
  - intros Hpath. unfold fix_ixviewer_url.
    assert (Hin : PyStr.contains "ix?doc=" (viewer_prefix +:+ path) = true).
    { apply (contains_later "ix?doc=" "https://www.sec.gov/" ("ix?doc=" +:+ path)).
      apply contains_prefix, PathFacts.prefix_append. }
    rewrite Hin. f_equal. unfold replace.
    rewrite replace_at_prefix by discriminate.
    now rewrite (replace_absent _ _ path Hpath).
  - intros Hurl. unfold fix_ixviewer_url.
    destruct (PyStr.contains "ix?doc=" url); [|reflexivity].
    f_equal. now apply replace_absent.
Qed.

Lemma X30_viewer_url_becomes_document_url_witness :
  fix_ixviewer_url (Some "https://www.sec.gov/ix?doc=/Archives/edgar/data/1/a.htm")
  = Some "https://www.sec.gov/Archives/edgar/data/1/a.htm".
Proof.
  refine (proj1 (X30_viewer_url_becomes_document_url "/Archives/edgar/data/1/a.htm" "") _).
  reflexivity.
Defined.

End Helpers.
